(** * Job control and pipeline execution of the C shell

    A shallow embedding of [src/jobs.c] (the job table, the foreground
    record, [jobs_poll], [fg] and [bg]), of the executor ([parse_segment],
    [parse_pipeline], [run_builtin], [run_pipeline], [run_pipeline_async]
    and [execute_first_cmd_group]) and of the read-execute loop of [main].

    The shell is a single process whose static variables are gathered in
    the record [shell].  Everything the shell asks of the operating system
    is either recorded in a chronological [trace] of events (lines written
    to stdout, [waitpid], [nanosleep], [kill], [tcsetpgrp], [pipe], [fork])
    or, when the system call returns a value, answered by an [OS] record of
    oracles.  Code that runs in a forked child works on a copy of the
    address space: it is modelled by separate functions ([fg_child],
    [bg_child]) that never touch the parent's [shell]; what a child does to
    its standard descriptors and to the files is computed over a small
    model of the file system.

    The builtins that the executor calls through [run_builtin] have their
    own state and are embedded in modules of their own: [Hop] (hop.c:
    [hop] and [cd] over a working directory and the recorded previous
    one), [Ping] (ping.c), [Log] (log.c: the ring of the last 15 commands
    and its file), [Activities] (activities.c), [Reveal] (reveal.c) and
    [Prompt] (prompt.c). *)

From Stdlib Require Import ZArith List String Ascii Lia Bool Sorted.
From stdpp Require Import base list strings pretty gmap.
Import ListNotations.
Open Scope Z_scope.

(** ** C integers *)

Definition INT_MAX : Z := 2147483647.

(** Value of a C [int] after an arithmetic result [z], as the compiled code
    computes it on a two's complement machine. *)
Definition wrap_int (z : Z) : Z := (z + 2147483648) mod 4294967296 - 2147483648.

(** [printf("%d", z)]. *)
Definition fmt_d (z : Z) : string := pretty z.

(** [strncpy(buf, s, size-1); buf[size-1] = 0] into a buffer of [size] bytes. *)
Definition strncpy_buf (size : nat) (s : string) : string :=
  String.substring 0 (size - 1) s.

(** ** The operating system as seen by the shell *)

Module Sys.

(** The status word written by [waitpid], seen through the macros
    [WIFEXITED]/[WEXITSTATUS], [WIFSIGNALED], [WIFSTOPPED], [WIFCONTINUED]. *)
Inductive wstatus :=
| Exited (code : Z)
| Signaled (sig : Z)
| Stopped (sig : Z)
| Continued.

(** The return value of [waitpid(pid, &st, options)]: [0] (nothing to
    report, possible under [WNOHANG] only), [-1] (error) or the pid, in
    which case the status word is meaningful. *)
Inductive wait_ret :=
| WaitNone
| WaitError
| WaitPid (st : wstatus).

Definition WIFEXITED (st : wstatus) : bool :=
  match st with Exited _ => true | _ => false end.
Definition WEXITSTATUS (st : wstatus) : Z :=
  match st with Exited c => c | _ => 0 end.
Definition WIFSTOPPED (st : wstatus) : bool :=
  match st with Stopped _ => true | _ => false end.
Definition WIFCONTINUED (st : wstatus) : bool :=
  match st with Continued => true | _ => false end.

(** Option bits of [waitpid] and the signal number used by the shell
    (Linux values). *)
Definition WNOHANG : Z := 1.
Definition WUNTRACED : Z := 2.
Definition WCONTINUED : Z := 8.
Definition SIGCONT : Z := 18.

(** A wait is non-blocking when [WNOHANG] is among its options. *)
Definition nonblocking (options : Z) : bool := Z.testbit options 0.

Inductive event :=
| EvStdout (line : string)          (* one newline-terminated line on stdout *)
| EvStderr (line : string)          (* one newline-terminated line on stderr *)
| EvWaitpid (pid : Z) (options : Z)
| EvNanosleep (nsec : Z)
| EvKill (pid : Z) (sig : Z)
| EvTcsetpgrp (pgid : Z)
| EvPipe (stage : nat) (ok : bool)
| EvFork (stage : nat) (ret : Z)
| EvBuiltin (argv : list string).   (* body of a builtin run by the shell process *)

(** What the system answers.  The [k]-th call of [waitpid] made by the
    shell is answered by [os_waitpid k pid options] and its [k]-th call of
    [fork] by [os_fork k] (the pid of the child, or a failure);
    [os_pipe k] tells whether the [pipe] call made ahead of the [k]-th fork
    succeeds; [os_getpgrp] is the process group of the shell.
    [os_builtin argv] is the status returned by the argv-based body of
    [hop], [cd], [reveal], [ping], [log] or [activities]: each of them
    returns 0, 1 or an exit status, never a negative number.
    [os_stack_pid i] and [os_stack_name i] are what the slots [pids[i]] and
    [names[i]] of the local arrays of [run_pipeline_async] hold when the
    function is entered: the arrays are not initialised, so a slot that
    the fork loop does not write is read as whatever the stack held (for
    [names[i]], the string it happens to point to, or [None] for [NULL]). *)
Record OS := mkOS {
  os_waitpid : nat -> Z -> Z -> wait_ret;
  os_pipe : nat -> bool;
  os_fork : nat -> option positive;
  os_getpgrp : Z;
  os_builtin : list string -> N;
  os_stack_pid : nat -> Z;
  os_stack_name : nat -> option string
}.

End Sys.
Import Sys.

(** ** jobs.c *)

Definition MAX_CMDS : Z := 16.
Definition MAX_BG_JOBS : Z := 64.

(** [BgJob].  Of the arrays [pids], [finished], [stopped] and
    [stage_names] only the first [npids] slots are ever written or read;
    the lists hold those slots. *)
Record BgJob := mkBgJob {
  job_num : Z;
  npids : Z;
  pids : list Z;
  finished : list bool;
  stopped : list bool;
  cmd_name : string;
  stage_names : list string;
  last_status : Z
}.

(** The static variables of jobs.c and executor.c, the trace of what the
    shell process has done so far and the numbers of [waitpid] and [fork]
    calls it has made.  [bg_job_count] is the length of [bg_jobs]. *)
Record shell := mkShell {
  bg_jobs : list BgJob;
  next_job_number : Z;
  fg_pgid : Z;
  fg_pids : list Z;
  fg_count : Z;
  fg_name : string;
  last_fg_name : string;
  g_recent_stop : Z;
  trace : list event;
  nwait : nat;
  nfork : nat
}.

Definition bg_job_count (s : shell) : Z := Z.of_nat (length (bg_jobs s)).

Definition shell_init : shell :=
  mkShell [] 1 (-1) [] 0 "" "" 0 [] 0 0.

Definition set_bg_jobs (js : list BgJob) (s : shell) : shell :=
  mkShell js (next_job_number s) (fg_pgid s) (fg_pids s) (fg_count s)
          (fg_name s) (last_fg_name s) (g_recent_stop s) (trace s) (nwait s) (nfork s).

Definition set_next_job_number (n : Z) (s : shell) : shell :=
  mkShell (bg_jobs s) n (fg_pgid s) (fg_pids s) (fg_count s)
          (fg_name s) (last_fg_name s) (g_recent_stop s) (trace s) (nwait s) (nfork s).

Definition set_fg (pgid : Z) (ps : list Z) (cnt : Z) (name : string) (s : shell) : shell :=
  mkShell (bg_jobs s) (next_job_number s) pgid ps cnt name
          (last_fg_name s) (g_recent_stop s) (trace s) (nwait s) (nfork s).

Definition set_last_fg_name (name : string) (s : shell) : shell :=
  mkShell (bg_jobs s) (next_job_number s) (fg_pgid s) (fg_pids s) (fg_count s)
          (fg_name s) name (g_recent_stop s) (trace s) (nwait s) (nfork s).

Definition set_recent_stop (v : Z) (s : shell) : shell :=
  mkShell (bg_jobs s) (next_job_number s) (fg_pgid s) (fg_pids s) (fg_count s)
          (fg_name s) (last_fg_name s) v (trace s) (nwait s) (nfork s).

(** Record one more thing the shell process did. *)
Definition emit (e : event) (s : shell) : shell :=
  mkShell (bg_jobs s) (next_job_number s) (fg_pgid s) (fg_pids s) (fg_count s)
          (fg_name s) (last_fg_name s) (g_recent_stop s) (trace s ++ [e]) (nwait s) (nfork s).

(** [fork()] in the parent: the pid of the child, or [None] on failure. *)
Definition fork (os : OS) (stage : nat) (s : shell) : option Z * shell :=
  let r := os_fork os (nfork s) in
  (Z.pos <$> r,
   mkShell (bg_jobs s) (next_job_number s) (fg_pgid s) (fg_pids s) (fg_count s)
           (fg_name s) (last_fg_name s) (g_recent_stop s)
           (trace s ++ [EvFork stage (match r with Some p => Z.pos p | None => -1 end)])
           (nwait s) (S (nfork s))).

(** [waitpid(pid, &st, options)]: recorded in the trace and answered by the
    oracle. *)
Definition waitpid (os : OS) (pid options : Z) (s : shell) : wait_ret * shell :=
  (os_waitpid os (nwait s) pid options,
   mkShell (bg_jobs s) (next_job_number s) (fg_pgid s) (fg_pids s) (fg_count s)
           (fg_name s) (last_fg_name s) (g_recent_stop s)
           (trace s ++ [EvWaitpid pid options]) (S (nwait s)) (nfork s)).

(** The static variables of the shell, without the record of its dealings
    with the system. *)
Definition memory (s : shell) :=
  (bg_jobs s, next_job_number s, fg_pgid s, fg_pids s, fg_count s, fg_name s,
   last_fg_name s, g_recent_stop s).

(** Array reads: a slot that was never written holds the zero left by
    [memset]. *)
Definition rdZ (l : list Z) (i : nat) : Z := default 0 (l !! i).
Definition rdB (l : list bool) (i : nat) : bool := default false (l !! i).

Definition set_finished (j : nat) (b : bool) (job : BgJob) : BgJob :=
  mkBgJob (job_num job) (npids job) (pids job) (<[j:=b]> (finished job))
          (stopped job) (cmd_name job) (stage_names job) (last_status job).

Definition set_stopped (j : nat) (b : bool) (job : BgJob) : BgJob :=
  mkBgJob (job_num job) (npids job) (pids job) (finished job)
          (<[j:=b]> (stopped job)) (cmd_name job) (stage_names job) (last_status job).

Definition set_last_status (v : Z) (job : BgJob) : BgJob :=
  mkBgJob (job_num job) (npids job) (pids job) (finished job)
          (stopped job) (cmd_name job) (stage_names job) v.

(** The string stored for a display name: the name itself, or ["?"] when
    the buffer starts with the terminating zero. *)
Definition name_or_qm (name : string) : string :=
  match name with EmptyString => "?" | _ => name end.

Definition jobs_set_foreground (pgid : Z) (ps : list Z) (count : Z)
    (name : option string) (s : shell) : shell :=
  let cnt := if count >? MAX_CMDS then MAX_CMDS else count in
  set_fg pgid (resize (Z.to_nat cnt) 0 ps) cnt
         (match name with Some n => strncpy_buf 128 n | None => "" end) s.

Definition jobs_clear_foreground (s : shell) : shell :=
  set_fg (-1) (fg_pids s) 0 "" s.

Definition jobs_move_foreground_to_background_stopped (s : shell) : Z * shell :=
  if (fg_pgid s =? -1) || (fg_count s =? 0) then (-1, s)
  else if bg_job_count s >=? MAX_BG_JOBS then (-1, s)
  else
    let n := Z.to_nat (fg_count s) in
    let job := mkBgJob (next_job_number s) (fg_count s)
                       (resize n 0 (fg_pids s))
                       (replicate n false)
                       (replicate n true)
                       (name_or_qm (fg_name s))
                       (replicate n (name_or_qm (fg_name s)))
                       0 in
    let s1 := set_next_job_number (wrap_int (next_job_number s + 1)) s in
    let s2 := set_bg_jobs (bg_jobs s1 ++ [job]) s1 in
    (job_num job, jobs_clear_foreground s2).

(** [stage_names && stage_names[i] ? stage_names[i] : dflt]. *)
Definition stage_name_at (stage_names : option (list (option string))) (i : nat)
    (dflt : string) : string :=
  match stage_names with
  | Some l => match l !! i with Some (Some n) => n | _ => dflt end
  | None => dflt
  end.

(** Returns the job number (or [-1]) and the value stored through
    [last_pid_out], if any. *)
Definition jobs_add_background (ps : list Z) (count : Z)
    (stage_names : option (list (option string))) (s : shell)
    : (Z * option Z) * shell :=
  if count <=? 0 then ((-1, None), s)
  else if bg_job_count s >=? MAX_BG_JOBS then ((-1, None), s)
  else
    let n := Z.to_nat count in
    let cmd := stage_name_at stage_names 0 "?" in
    let job := mkBgJob (next_job_number s) count
                       (resize n 0 ps)
                       (replicate n false)
                       (replicate n false)
                       cmd
                       (map (fun i => stage_name_at stage_names i cmd) (seq 0 n))
                       0 in
    let s1 := set_next_job_number (wrap_int (next_job_number s + 1)) s in
    let s2 := set_bg_jobs (bg_jobs s1 ++ [job]) s1 in
    ((job_num job, Some (rdZ ps (n - 1))), s2).

(** The options of the polling wait:
    [WNOHANG | WUNTRACED | WCONTINUED]. *)
Definition poll_options : Z := Z.lor (Z.lor WNOHANG WUNTRACED) WCONTINUED.

(** [(WIFEXITED(st) && WEXITSTATUS(st)==0) ? 0 : 1]. *)
Definition classify (st : wstatus) : Z :=
  if WIFEXITED st && (WEXITSTATUS st =? 0) then 0 else 1.

(** The stage loop of [jobs_poll] for one job: [k] iterations remain, [j]
    is the loop index. *)
Fixpoint poll_stages (os : OS) (k j : nat) (job : BgJob) (all_done : bool)
    (s : shell) : BgJob * bool * shell :=
  match k with
  | O => (job, all_done, s)
  | S k' =>
    if rdB (finished job) j then poll_stages os k' (S j) job all_done s
    else
      let '(w, s1) := waitpid os (rdZ (pids job) j) poll_options s in
      match w with
      | WaitNone => poll_stages os k' (S j) job false s1
      | WaitError => poll_stages os k' (S j) job all_done s1
      | WaitPid st =>
        if WIFSTOPPED st then
          poll_stages os k' (S j) (set_stopped j true job) false s1
        else if WIFCONTINUED st then
          poll_stages os k' (S j) (set_stopped j false job) false s1
        else
          let job1 := set_stopped j false (set_finished j true job) in
          let job2 := if Z.of_nat j =? npids job1 - 1
                      then set_last_status (classify st) job1 else job1 in
          poll_stages os k' (S j) job2 all_done s1
      end
  end.

(** [pids[npids-1]]. *)
Definition last_pid (job : BgJob) : Z := rdZ (pids job) (Z.to_nat (npids job - 1)).

Definition exit_message (job : BgJob) : string :=
  cmd_name job +:+ " with pid " +:+ fmt_d (last_pid job) +:+
  (if last_status job =? 0 then " exited normally" else " exited abnormally").

(** The job loop of [jobs_poll].  A finished job is taken out of the array
    (the entries behind it move one slot down) and the loop goes on with
    the job that took its place; the result is the table that remains. *)
Fixpoint poll_jobs (os : OS) (jobs : list BgJob) (s : shell) : list BgJob * shell :=
  match jobs with
  | [] => ([], s)
  | job :: rest =>
    let '(job', all_done, s1) :=
      poll_stages os (Z.to_nat (npids job)) 0 job true s in
    if all_done then poll_jobs os rest (emit (EvStdout (exit_message job')) s1)
    else let '(rest', s2) := poll_jobs os rest s1 in (job' :: rest', s2)
  end.

Definition jobs_poll (os : OS) (s : shell) : shell :=
  let '(js, s') := poll_jobs os (bg_jobs s) s in set_bg_jobs js s'.

(** [jobs_for_each_activity]: the [(pid, name, stopped)] triples handed to
    the callback, in job-then-stage order. *)
Definition job_activities (job : BgJob) : list (Z * string * bool) :=
  omap (fun j => if rdB (finished job) j then None
                 else Some (rdZ (pids job) j,
                            default (cmd_name job) (stage_names job !! j),
                            rdB (stopped job) j))
       (seq 0 (Z.to_nat (npids job))).

Definition jobs_for_each_activity (s : shell) : list (Z * string * bool) :=
  concat (map job_activities (bg_jobs s)).

(** [find_job_index]: the scan from slot [i] on. *)
Fixpoint find_job_from (jobs : list BgJob) (i : Z) (jobnum : Z) : Z :=
  match jobs with
  | [] => -1
  | job :: rest => if job_num job =? jobnum then i else find_job_from rest (i + 1) jobnum
  end.

Definition find_job_index (jobnum : Z) (s : shell) : Z :=
  find_job_from (bg_jobs s) 0 jobnum.

Definition most_recent_job_index (s : shell) : Z :=
  if bg_job_count s =? 0 then -1 else bg_job_count s - 1.

(** [jobnum ? find_job_index(jobnum) : most_recent_job_index()]. *)
Definition select_job_index (jobnum : Z) (s : shell) : Z :=
  if jobnum =? 0 then most_recent_job_index s else find_job_index jobnum s.

Definition zero_job : BgJob := mkBgJob 0 0 [] [] [] "" [] 0.

(** [bg_jobs[idx]]. *)
Definition job_at (s : shell) (idx : Z) : BgJob :=
  default zero_job (bg_jobs s !! Z.to_nat idx).

Definition stage_indices (job : BgJob) : list nat := seq 0 (Z.to_nat (npids job)).

Definition clear_stopped (job : BgJob) : BgJob :=
  fold_left (fun jb i => set_stopped i false jb) (stage_indices job) job.

Definition jobs_cmd_bg (jobnum : Z) (s : shell) : Z * shell :=
  let idx := select_job_index jobnum s in
  if idx <? 0 then (1, emit (EvStdout "No such job") s)
  else
    let job := job_at s idx in
    let any_stopped :=
      existsb (fun i => negb (rdB (finished job) i) && rdB (stopped job) i)
              (stage_indices job) in
    if negb any_stopped then (1, emit (EvStdout "Job already running") s)
    else
      let pgid := rdZ (pids job) 0 in
      let s1 := if pgid >? 0 then emit (EvKill (- pgid) SIGCONT) s else s in
      let s2 := set_bg_jobs (<[Z.to_nat idx := clear_stopped job]> (bg_jobs s1)) s1 in
      (0, emit (EvStdout ("[" +:+ fmt_d (job_num job) +:+ "] " +:+ cmd_name job +:+ " &")) s2).

(** The options of the wait of [fg]: [WUNTRACED | WCONTINUED | WNOHANG]. *)
Definition fg_options : Z := Z.lor (Z.lor WUNTRACED WCONTINUED) WNOHANG.

(** One pass of [fg] over the stages of the job: the flags [all_done] and
    [stopped] of the pass and the [status_code] kept across passes. *)
Fixpoint fg_stages (os : OS) (k i : nat) (job : BgJob) (all_done stopped_ : bool)
    (status_code : Z) (s : shell) : BgJob * bool * bool * Z * shell :=
  match k with
  | O => (job, all_done, stopped_, status_code, s)
  | S k' =>
    if rdB (finished job) i then
      fg_stages os k' (S i) job all_done stopped_ status_code s
    else
      let '(w, s1) := waitpid os (rdZ (pids job) i) fg_options s in
      match w with
      | WaitNone => fg_stages os k' (S i) job false stopped_ status_code s1
      | WaitError => fg_stages os k' (S i) job all_done stopped_ status_code s1
      | WaitPid st =>
        if WIFSTOPPED st then
          fg_stages os k' (S i) (set_stopped i true job) false true status_code s1
        else if WIFCONTINUED st then
          fg_stages os k' (S i) (set_stopped i false job) false stopped_ status_code s1
        else
          let job1 := set_stopped i false (set_finished i true job) in
          let sc := if Z.of_nat i =? npids job1 - 1 then classify st else status_code in
          fg_stages os k' (S i) job1 all_done stopped_ sc s1
      end
  end.

Definition nap_nsec : Z := 30 * 1000 * 1000.

(** The [for(;;)] loop of [jobs_cmd_fg].  Each unit of fuel pays for one
    pass; [None] is returned when the fuel is spent with the job still
    running.  The job is updated in place in the table. *)
Fixpoint fg_loop (os : OS) (fuel : nat) (idx : nat) (status_code : Z) (s : shell)
    : option Z * shell :=
  match fuel with
  | O => (None, s)
  | S fuel' =>
    let job := job_at s (Z.of_nat idx) in
    let '(job', all_done, stopped_, sc, s1) :=
      fg_stages os (Z.to_nat (npids job)) 0 job true false status_code s in
    let s2 := set_bg_jobs (<[idx := job']> (bg_jobs s1)) s1 in
    if stopped_ then
      (Some 148,
       emit (EvStdout ("[" +:+ fmt_d (job_num job') +:+ "] Stopped " +:+ cmd_name job'))
            (emit (EvTcsetpgrp (os_getpgrp os)) s2))
    else if all_done then
      (Some sc, emit (EvTcsetpgrp (os_getpgrp os)) (set_bg_jobs (delete idx (bg_jobs s2)) s2))
    else fg_loop os fuel' idx sc (emit (EvNanosleep nap_nsec) s2)
  end.

Definition jobs_cmd_fg (os : OS) (fuel : nat) (jobnum : Z) (s : shell) : option Z * shell :=
  let idx := select_job_index jobnum s in
  if idx <? 0 then (Some 1, emit (EvStdout "No such job") s)
  else
    let job := job_at s idx in
    let pgid := rdZ (pids job) 0 in
    if pgid <=? 0 then (Some 1, emit (EvStdout "No such job") s)
    else
      let s1 := emit (EvTcsetpgrp pgid) (emit (EvStdout (cmd_name job)) s) in
      let need_cont := existsb (fun i => rdB (stopped job) i) (stage_indices job) in
      let s2 := if need_cont then emit (EvKill (- pgid) SIGCONT) s1 else s1 in
      fg_loop os fuel (Z.to_nat idx) 0 s2.

(** ** libc: atoi *)

Definition isspace (c : ascii) : bool :=
  let n := nat_of_ascii c in ((n =? 32) || ((9 <=? n) && (n <=? 13)))%nat.

Definition isdigit (c : ascii) : bool :=
  let n := nat_of_ascii c in ((48 <=? n) && (n <=? 57))%nat.

Fixpoint skip_spaces (s : string) : string :=
  match s with
  | String c r => if isspace c then skip_spaces r else s
  | EmptyString => s
  end.

Fixpoint digits_value (s : string) (acc : Z) : Z :=
  match s with
  | String c r =>
    if isdigit c then digits_value r (acc * 10 + (Z.of_nat (nat_of_ascii c) - 48))
    else acc
  | EmptyString => acc
  end.

Definition LONG_MAX : Z := 9223372036854775807.

Definition clamp_long (z : Z) : Z := Z.max (- LONG_MAX - 1) (Z.min LONG_MAX z).

(** [strtol(s, NULL, 10)]: leading white space, an optional sign, then the
    longest run of decimal digits (0 when there is none), clamped to the
    range of [long]. *)
Definition strtol10 (s : string) : Z :=
  match skip_spaces s with
  | String "-" r => clamp_long (- digits_value r 0)
  | String "+" r => clamp_long (digits_value r 0)
  | t => clamp_long (digits_value t 0)
  end.

(** [atoi(s)] is [(int) strtol(s, NULL, 10)]. *)
Definition atoi (s : string) : Z := wrap_int (strtol10 s).

(** ** executor.c: data *)

Definition MAX_ARGS : Z := 64.
Definition MAX_REDIRS : Z := 16.

Inductive RedirType := R_IN | R_OUT_TRUNC | R_OUT_APPEND.

Record Redir := mkRedir { r_type : RedirType; r_path : string }.

(** [argv] holds the strings before the terminating [NULL]; [redir_count]
    is the length of [redirs]. *)
Record SimpleCmd := mkCmd { argv : list string; redirs : list Redir }.

(** [count] is the length of [cmds]. *)
Record Pipeline := mkPipeline { cmds : list SimpleCmd }.

Definition redir_count (c : SimpleCmd) : Z := Z.of_nat (length (redirs c)).
Definition count (pl : Pipeline) : Z := Z.of_nat (length (cmds pl)).
Definition empty_cmd : SimpleCmd := mkCmd [] [].

(** [pl->cmds[i]]. *)
Definition cmd_at (pl : Pipeline) (i : nat) : SimpleCmd := default empty_cmd (cmds pl !! i).

(** The names tested by the [strcmp] chain of [run_builtin]. *)
Definition is_external_builtin (name : string) : bool :=
  (name =? "hop")%string || (name =? "cd")%string || (name =? "reveal")%string ||
  (name =? "ping")%string || (name =? "log")%string || (name =? "activities")%string.

Definition is_builtin (name : string) : bool :=
  is_external_builtin name || (name =? "fg")%string || (name =? "bg")%string.

(** [int jobnum=0; if(c->argv[1]) jobnum=atoi(c->argv[1]);] *)
Definition jobnum_arg (args : list string) : Z :=
  match args with
  | [] => 0
  | a1 :: _ => atoi a1
  end.

(** [run_builtin] called by the shell process itself: the builtin body
    runs in the shell, on the shell's own state.  [EvBuiltin argv] stands
    for the whole body of [hop], [cd], [reveal], [ping], [log] or
    [activities] run on [argv]; the bodies of [fg] and [bg] are the
    functions of jobs.c.  The result is [Some (-1)] when the command is not
    a builtin and [None] when [fg] is still waiting after [fuel] passes. *)
Definition run_builtin (os : OS) (fuel : nat) (c : SimpleCmd) (s : shell)
    : option Z * shell :=
  match argv c with
  | [] => (Some (-1), s)
  | a0 :: args =>
    if is_external_builtin a0 then
      (Some (Z.of_N (os_builtin os (argv c))), emit (EvBuiltin (argv c)) s)
    else if (a0 =? "fg")%string then jobs_cmd_fg os fuel (jobnum_arg args) s
    else if (a0 =? "bg")%string then
      let '(r, s') := jobs_cmd_bg (jobnum_arg args) s in (Some r, s')
    else (Some (-1), s)
  end.

(** ** executor.c: the forked child *)

(** What a standard descriptor of a child is bound to. *)
Inductive endpoint :=
| Terminal                                 (* inherited from the shell *)
| PipeRead (k : nat)                       (* read end of the pipe made for stage k *)
| PipeWrite (k : nat)                      (* write end of the pipe made for stage k *)
| OpenRead (path : string)                 (* open(path, O_RDONLY) *)
| OpenWrite (path : string) (append : bool). (* open(path, O_WRONLY|O_CREAT|...) *)

Record stdio := mkStdio { io_stdin : endpoint; io_stdout : endpoint }.

(** The files that exist, with their contents, and the paths that cannot
    be opened for writing. *)
Record filesys := mkFs { files : gmap string string; denied : gset string }.

(** [open(path, O_RDONLY) >= 0]. *)
Definition open_rdonly (fs : filesys) (path : string) : bool :=
  match files fs !! path with Some _ => true | None => false end.

(** [open(path, O_WRONLY | O_CREAT | (append ? O_APPEND : O_TRUNC), 0644)]:
    the file system after a successful call. *)
Definition open_wronly (fs : filesys) (path : string) (append : bool) : option filesys :=
  if bool_decide (path ∈ denied fs) then None
  else Some (match files fs !! path with
             | Some _ => if append then fs
                         else mkFs (<[path := ""%string]> (files fs)) (denied fs)
             | None => mkFs (<[path := ""%string]> (files fs)) (denied fs)
             end).

(** A process writes [data] to its standard output. *)
Definition write_stdout (io : stdio) (data : string) (fs : filesys) : filesys :=
  match io_stdout io with
  | OpenWrite path true =>
    mkFs (<[path := (default ""%string (files fs !! path) +:+ data)%string]> (files fs)) (denied fs)
  | OpenWrite path false =>
    let old := default ""%string (files fs !! path) in
    mkFs (<[path := (data +:+ String.substring (String.length data)
                                  (String.length old - String.length data) old)%string]>
            (files fs)) (denied fs)
  | _ => fs
  end.

Inductive redir_result :=
| RedirOk (io : stdio) (fs : filesys)
| RedirFail (msg : string) (fs : filesys).   (* message on stderr, then _exit(1) *)

(** The redirection loop of the child, left to right. *)
Fixpoint apply_redirs (rs : list Redir) (io : stdio) (fs : filesys) : redir_result :=
  match rs with
  | [] => RedirOk io fs
  | r :: rest =>
    match r_type r with
    | R_IN =>
      if open_rdonly fs (r_path r)
      then apply_redirs rest (mkStdio (OpenRead (r_path r)) (io_stdout io)) fs
      else RedirFail "No such file or directory" fs
    | ty =>
      let append := match ty with R_OUT_APPEND => true | _ => false end in
      match open_wronly fs (r_path r) append with
      | Some fs' => apply_redirs rest (mkStdio (io_stdin io) (OpenWrite (r_path r) append)) fs'
      | None => RedirFail "Unable to create file for writing" fs
      end
    end
  end.

(** How the child ends: [_exit(code)] after a failure, the builtin body
    run inside the child followed by [_exit] with its status, or the
    program image replaced by [execvp]. *)
Inductive child_end :=
| ChildExit (code : Z)
| ChildBuiltin (argv : list string)
| ChildExec (argv : list string).

Record child := mkChild {
  ch_io : stdio;
  ch_fs : filesys;
  ch_stderr : list string;
  ch_end : child_end
}.

(** [dup2(prev_read, STDIN_FILENO)] and [dup2(pipefd[1], STDOUT_FILENO)]
    for stage [i] of [n]. *)
Definition pipe_wiring (i n : nat) : stdio :=
  mkStdio (match i with O => Terminal | S i' => PipeRead i' end)
          (if (S i <? n)%nat then PipeWrite i else Terminal).

(** [run_builtin(c)], then [execvp]; [exec_ok] tells whether [execvp] finds
    the program. *)
Definition child_run (exec_ok : string -> bool) (c : SimpleCmd) (io : stdio)
    (fs : filesys) : child :=
  match argv c with
  | a0 :: _ =>
    if is_builtin a0 then mkChild io fs [] (ChildBuiltin (argv c))
    else if exec_ok a0 then mkChild io fs [] (ChildExec (argv c))
    else mkChild io fs ["Command not found!"%string] (ChildExit 127)
  | [] => mkChild io fs ["Command not found!"%string] (ChildExit 127)
  end.

(** The child of stage [i] forked by [run_pipeline]. *)
Definition fg_child (exec_ok : string -> bool) (pl : Pipeline) (i : nat)
    (fs : filesys) : child :=
  let c := cmd_at pl i in
  match apply_redirs (redirs c) (pipe_wiring i (length (cmds pl))) fs with
  | RedirFail msg fs' => mkChild (pipe_wiring i (length (cmds pl))) fs' [msg] (ChildExit 1)
  | RedirOk io fs' => child_run exec_ok c io fs'
  end.

Definition dev_null : string := "/dev/null".

(** The child of stage [i] forked by [run_pipeline_async]. *)
Definition bg_child (exec_ok : string -> bool) (pl : Pipeline) (i : nat)
    (fs : filesys) : child :=
  let c := cmd_at pl i in
  let io0 := pipe_wiring i (length (cmds pl)) in
  let io1 := if redir_count c =? 0
             then (if open_rdonly fs dev_null
                   then mkStdio (OpenRead dev_null) (io_stdout io0) else io0)
             else io0 in
  match apply_redirs (redirs c) io1 fs with
  | RedirFail msg fs' => mkChild io1 fs' [msg] (ChildExit 1)
  | RedirOk io fs' => child_run exec_ok c io fs'
  end.

(** The file system after a child ran: when the child got as far as its
    builtin or program, that one writes [data] to its standard output. *)
Definition stage_writes (ch : child) (data : string) : filesys :=
  match ch_end ch with
  | ChildExit _ => ch_fs ch
  | _ => write_stdout (ch_io ch) data (ch_fs ch)
  end.

(** ** executor.c: the shell side *)

(** The parent side of the fork loop, spelled out in both [run_pipeline]
    and [run_pipeline_async]: for stage [i] a pipe is made unless the stage
    is the last one, then the child is forked; a failure of either call
    leaves the loop ([EvPipe i false] and [EvFork i (-1)] stand for the
    failed call and its [perror] line).  [k] iterations remain.  Returns
    the pid array, the process group, and the number of stages forked. *)
Fixpoint launch (os : OS) (k i n : nat) (ps : list Z) (pgid : Z) (s : shell)
    : list Z * Z * nat * shell :=
  match k with
  | O => (ps, pgid, i, s)
  | S k' =>
    let need_pipe := (S i <? n)%nat in
    if need_pipe && negb (os_pipe os (nfork s)) then (ps, pgid, i, emit (EvPipe i false) s)
    else
      let s1 := if need_pipe then emit (EvPipe i true) s else s in
      match fork os i s1 with
      | (None, s2) => (ps, pgid, i, s2)
      | (Some pid, s2) =>
        launch os k' (S i) n (<[i := pid]> ps) (if pgid =? -1 then pid else pgid) s2
      end
  end.

(** The blocking wait of [run_pipeline]: [waitpid(pids[i], &st, WUNTRACED)]
    for every stage in turn. *)
Fixpoint wait_stages (os : OS) (k i : nat) (cnt : Z) (ps : list Z)
    (stopped_ : bool) (status_code : Z) (s : shell) : bool * Z * shell :=
  match k with
  | O => (stopped_, status_code, s)
  | S k' =>
    if rdZ ps i >? 0 then
      let '(w, s1) := waitpid os (rdZ ps i) WUNTRACED s in
      match w with
      | WaitPid st =>
        if WIFSTOPPED st then wait_stages os k' (S i) cnt ps true status_code s1
        else if Z.of_nat i =? cnt - 1 then
          wait_stages os k' (S i) cnt ps stopped_
                      (if WIFEXITED st then WEXITSTATUS st else 1) s1
        else wait_stages os k' (S i) cnt ps stopped_ status_code s1
      | _ => wait_stages os k' (S i) cnt ps stopped_ status_code s1
      end
    else wait_stages os k' (S i) cnt ps stopped_ status_code s
  end.

(** [pl->cmds[0].argv[0] ? pl->cmds[0].argv[0] : "?"]. *)
Definition first_name (pl : Pipeline) : string :=
  match argv (cmd_at pl 0) with a0 :: _ => a0 | [] => "?"%string end.

Definition stopped_line (jobnum : Z) (name : string) : string :=
  "[" +:+ fmt_d jobnum +:+ "] Stopped " +:+ name.

(** The second half of [run_pipeline], from [jobs_set_foreground] on:
    [ps], [pgid] and [forked] are what the fork loop left. *)
Definition run_pipeline_wait (os : OS) (pl : Pipeline) (ps : list Z) (pgid : Z)
    (forked : nat) (s1 : shell) : Z * shell :=
  let n := length (cmds pl) in
  let status0 := if (forked <? n)%nat then 1 else 0 in
  let s2 := jobs_set_foreground pgid ps (count pl) (Some (first_name pl)) s1 in
  let s3 := set_last_fg_name (strncpy_buf 128 (first_name pl)) s2 in
  let s4 := emit (EvTcsetpgrp pgid) s3 in
  let '(stopped_, status_code, s5) := wait_stages os n 0 (count pl) ps false status0 s4 in
  if stopped_ then
    let s6 := set_recent_stop 1 s5 in
    let '(jobnum, s7) := jobs_move_foreground_to_background_stopped s6 in
    let s8 := if jobnum =? -1 then s7
              else emit (EvStdout (stopped_line jobnum (name_or_qm (last_fg_name s7)))) s7 in
    (148, jobs_clear_foreground (emit (EvTcsetpgrp (os_getpgrp os)) s8))
  else
    (status_code, jobs_clear_foreground (emit (EvTcsetpgrp (os_getpgrp os)) s5)).

Definition run_pipeline (os : OS) (pl : Pipeline) (s : shell) : Z * shell :=
  let n := length (cmds pl) in
  if count pl <=? 0 then (1, s)
  else
    let '(ps, pgid, forked, s1) := launch os n 0 n (replicate n (-1)) (-1) s in
    run_pipeline_wait os pl ps pgid forked s1.

(** The display of a single-command job: the arguments joined by a space,
    followed by [" &"]. *)
Fixpoint join_argv (args : list string) : string :=
  match args with
  | [] => ""
  | [a] => a
  | a :: rest => a +:+ " " +:+ join_argv rest
  end.

(** The local array [names] of [run_pipeline_async].  A slot the fork loop
    did not reach is not initialised in C: it holds what the stack held,
    [os_stack_name os i], and such a slot of [pids] holds
    [os_stack_pid os i]. *)
Definition async_names (os : OS) (pl : Pipeline) (segment_text : string) (forked : nat)
    : list (option string) :=
  let base := map (fun i => if (i <? forked)%nat
                            then Some (match argv (cmd_at pl i) with
                                       | a0 :: _ => a0 | [] => segment_text end)
                            else os_stack_name os i)
                  (seq 0 (length (cmds pl))) in
  if (count pl =? 1) && negb (length (argv (cmd_at pl 0)) =? 0)%nat
  then <[0%nat := Some (join_argv (argv (cmd_at pl 0)) +:+ " &")]> base
  else base.

Definition run_pipeline_async (os : OS) (pl : Pipeline) (segment_text : string)
    (s : shell) : Z * shell :=
  let n := length (cmds pl) in
  if count pl <=? 0 then (1, s)
  else
    let '(ps, pgid, forked, s1) :=
      launch os n 0 n (map (os_stack_pid os) (seq 0 n)) (-1) s in
    let '(jobnum, lastpid, s2) :=
      jobs_add_background ps (count pl) (Some (async_names os pl segment_text forked)) s1 in
    let s3 := if jobnum =? -1 then s2
              else emit (EvStdout ("[" +:+ fmt_d jobnum +:+ "] " +:+ fmt_d (default 0 lastpid))) s2 in
    (0, s3).

(** The body of the loop of [execute_first_cmd_group] for one command
    group that [parse_pipeline] accepted: [pl] is the parsed pipeline,
    [segment] its text and [is_background] tells whether the group ended in
    a single [&].  Returns the new [last_status]. *)
Definition execute_group (os : OS) (fuel : nat) (pl : Pipeline) (segment : string)
    (is_background : bool) (last_status : Z) (s : shell) : option Z * shell :=
  if (count pl =? 1) && negb is_background then
    let sc := cmd_at pl 0 in
    match run_builtin os fuel sc s with
    | (None, s1) => (None, s1)
    | (Some b, s1) =>
      if negb (b =? -1) && (redir_count sc =? 0) then (Some b, s1)
      else let '(r, s2) := run_pipeline os pl s1 in (Some r, s2)
    end
  else if is_background then
    let '(_, s1) := run_pipeline_async os pl segment s in (Some last_status, s1)
  else
    let '(r, s1) := run_pipeline os pl s in (Some r, s1).

(** ** Sequences of calls to the job table *)

(** The calls jobs.c offers to the rest of the shell. *)
Inductive job_op :=
| OpSetForeground (pgid : Z) (ps : list Z) (cnt : Z) (name : option string)
| OpClearForeground
| OpMoveForeground
| OpAddBackground (ps : list Z) (cnt : Z) (names : option (list (option string)))
| OpPoll
| OpFg (fuel : nat) (jobnum : Z)
| OpBg (jobnum : Z).

(** One call: the job number it issued, if it registered a job, the state
    it leaves, and whether it returned ([fg] may still be waiting). *)
Definition job_op_step (os : OS) (op : job_op) (s : shell) : option Z * shell * bool :=
  match op with
  | OpSetForeground pgid ps cnt name => (None, jobs_set_foreground pgid ps cnt name s, true)
  | OpClearForeground => (None, jobs_clear_foreground s, true)
  | OpMoveForeground =>
    let '(r, s') := jobs_move_foreground_to_background_stopped s in
    (if r =? -1 then None else Some r, s', true)
  | OpAddBackground ps cnt names =>
    let '(r, _, s') := jobs_add_background ps cnt names s in
    (if r =? -1 then None else Some r, s', true)
  | OpPoll => (None, jobs_poll os s, true)
  | OpFg fuel jobnum =>
    let '(r, s') := jobs_cmd_fg os fuel jobnum s in
    (None, s', match r with Some _ => true | None => false end)
  | OpBg jobnum => (None, snd (jobs_cmd_bg jobnum s), true)
  end.

(** A sequence of calls, one after the other, as long as they return: the
    job numbers issued, in order, and the final state. *)
Fixpoint run_job_ops (os : OS) (ops : list job_op) (s : shell) : list Z * shell :=
  match ops with
  | [] => ([], s)
  | op :: rest =>
    let '(issued, s', returned) := job_op_step os op s in
    if returned then
      let '(more, s'') := run_job_ops os rest s' in
      (match issued with Some n => n :: more | None => more end, s'')
    else (match issued with Some n => [n] | None => [] end, s')
  end.

(** ** Reading a trace *)

Definition stdout_lines (tr : list event) : list string :=
  omap (fun e => match e with EvStdout l => Some l | _ => None end) tr.

(** The process group that owns the terminal after the trace: the one of
    the last [tcsetpgrp]. *)
Definition terminal_owner (tr : list event) : option Z :=
  last (omap (fun e => match e with EvTcsetpgrp g => Some g | _ => None end) tr).

Definition is_wait (e : event) : bool :=
  match e with EvWaitpid _ _ => true | _ => false end.

Definition is_sleep (e : event) : bool :=
  match e with EvNanosleep _ => true | _ => false end.

Definition is_kill (e : event) : bool :=
  match e with EvKill _ _ => true | _ => false end.

(** A non-blocking status check. *)
Definition is_poll (e : event) : bool :=
  match e with EvWaitpid _ options => nonblocking options | _ => false end.

(** A blocking wait with stop detection: [WUNTRACED] and nothing else. *)
Definition is_blocking_wait (e : event) : bool :=
  match e with EvWaitpid _ options => options =? WUNTRACED | _ => false end.

(** Passes of non-blocking checks with one sleep of [nap_nsec] between
    two passes. *)
Inductive polling_passes : list event -> Prop :=
| passes_last ws :
    Forall (fun e => is_poll e = true) ws -> polling_passes ws
| passes_more ws rest :
    Forall (fun e => is_poll e = true) ws -> polling_passes rest ->
    polling_passes (ws ++ EvNanosleep nap_nsec :: rest).

(** One pass of the wait loop of [fg] over a job with the pids [ps] and
    [n] stages: one non-blocking check [waitpid(ps[j], &st, fg_options)]
    for each of some stages [j], in stage order, no stage twice. *)
Definition stage_pass (ps : list Z) (n : nat) (ws : list event) : Prop :=
  exists stages : list nat,
    StronglySorted Nat.lt stages /\ Forall (fun j => (j < n)%nat) stages /\
    ws = map (fun j => EvWaitpid (rdZ ps j) fg_options) stages.

(** Passes of that kind, each making at least one check, with exactly one
    sleep of [nap_nsec] between two consecutive passes and none before the
    first or after the last. *)
Inductive spaced_passes (ps : list Z) (n : nat) : list event -> Prop :=
| spaced_last ws :
    stage_pass ps n ws -> ws <> [] -> spaced_passes ps n ws
| spaced_more ws rest :
    stage_pass ps n ws -> ws <> [] -> spaced_passes ps n rest ->
    spaced_passes ps n (ws ++ EvNanosleep nap_nsec :: rest).

(** [s'] differs from [s] in its trace by events that all satisfy [P]. *)
Definition extends_by (P : event -> Prop) (s s' : shell) : Prop :=
  exists tr, trace s' = trace s ++ tr /\ Forall P tr.

(** An event a foreground launch may produce: no non-blocking check, no
    sleep, no builtin body; every wait is the blocking
    [waitpid(pid, &st, WUNTRACED)]. *)
Definition is_foreground_event (e : event) : bool :=
  match e with
  | EvWaitpid _ options => options =? WUNTRACED
  | EvNanosleep _ => false
  | EvBuiltin _ => false
  | _ => true
  end.

(** An event a background launch may produce: pipes, forks and the line
    that announces the job. *)
Definition is_background_event (e : event) : bool :=
  match e with
  | EvPipe _ _ | EvFork _ _ | EvStdout _ => true
  | _ => false
  end.

(** An event that is neither a wait nor a sleep. *)
Definition is_other_event (e : event) : bool := negb (is_wait e) && negb (is_sleep e).

(** An event of the fork loop. *)
Definition is_launch_event (e : event) : bool :=
  match e with EvPipe _ _ | EvFork _ _ => true | _ => false end.

(** ** A foreground run seen from outside *)

(** From state [s] the system lets all [n] stages of a pipeline start:
    the pipes can be made and every fork succeeds. *)
Definition launches_all (os : OS) (n : nat) (s : shell) : Prop :=
  forall i, (i < n)%nat ->
    ((S i < n)%nat -> os_pipe os (nfork s + i) = true) /\
    os_fork os (nfork s + i) <> None.

(** The pid the system gives to stage [i] of a pipeline launched from [s]. *)
Definition stage_pid (os : OS) (s : shell) (i : nat) : Z :=
  match os_fork os (nfork s + i) with Some p => Z.pos p | None => -1 end.

(** What the blocking wait for stage [i] returns. *)
Definition stage_answer (os : OS) (s : shell) (i : nat) : wait_ret :=
  os_waitpid os (nwait s + i) (stage_pid os s i) WUNTRACED.

(** [WIFEXITED(st) ? WEXITSTATUS(st) : 1] for the status a wait returned. *)
Definition exit_status_of (r : wait_ret) : Z :=
  match r with
  | WaitPid st => if WIFEXITED st then WEXITSTATUS st else 1
  | _ => 0
  end.

Definition is_stop (r : wait_ret) : bool :=
  match r with WaitPid st => WIFSTOPPED st | _ => false end.

(** The stage has ended: it exited or a signal killed it. *)
Definition is_termination (r : wait_ret) : bool :=
  match r with WaitPid (Exited _) | WaitPid (Signaled _) => true | _ => false end.

(** The display name of a foreground pipeline. *)
Definition display_name (pl : Pipeline) : string :=
  name_or_qm (strncpy_buf 128 (first_name pl)).

(** The table entry of a foreground pipeline of [n] stages launched from
    [s] and then stopped: all its stages, every one marked stopped. *)
Definition demoted_job (os : OS) (pl : Pipeline) (s : shell) : BgJob :=
  let n := length (cmds pl) in
  mkBgJob (next_job_number s) (count pl) (map (stage_pid os s) (seq 0 n))
          (replicate n false) (replicate n true)
          (display_name pl) (replicate n (display_name pl)) 0.

(** ** The redirections named by the specification *)

(** The last input redirection of a stage, in source order. *)
Definition last_input (rs : list Redir) : option string :=
  last (omap (fun r => match r_type r with R_IN => Some (r_path r) | _ => None end) rs).

(** The last output redirection of a stage, in source order, and whether
    it appends. *)
Definition last_output (rs : list Redir) : option (string * bool) :=
  last (omap (fun r => match r_type r with
                       | R_IN => None
                       | R_OUT_TRUNC => Some (r_path r, false)
                       | R_OUT_APPEND => Some (r_path r, true)
                       end) rs).

(** ** executor.c: the tokenizer *)

Definition is_ws (c : ascii) : bool :=
  (c =? " ")%char || (c =? "009")%char || (c =? "010")%char || (c =? "013")%char.

(** The characters that end a name besides white space: [|<>&;]. *)
Definition is_special (c : ascii) : bool :=
  (c =? "|")%char || (c =? "<")%char || (c =? ">")%char || (c =? "&")%char || (c =? ";")%char.

Fixpoint skip_ws (p : string) : string :=
  match p with
  | String c q => if is_ws c then skip_ws q else p
  | EmptyString => p
  end.

(** [read_name(&p)]: the token and the text after it; the empty token
    stands for the [NULL] returned when no character can be read. *)
Fixpoint read_name (p : string) : string * string :=
  match p with
  | String c q =>
    if is_ws c || is_special c then (EmptyString, p)
    else let '(tok, rest) := read_name q in (String c tok, rest)
  | EmptyString => (EmptyString, p)
  end.

Definition is_empty (t : string) : bool :=
  match t with EmptyString => true | _ => false end.

(** The [for(;;)] loop of [parse_segment]; an iteration either leaves the
    loop or consumes a character, so a fuel of the length of the text (plus
    one) is never spent. *)
Fixpoint parse_segment_loop (fuel : nat) (p : string) (av : list string)
    (rs : list Redir) : option SimpleCmd :=
  match fuel with
  | O => None
  | S fuel' =>
    match skip_ws p with
    | EmptyString => Some (mkCmd av rs)
    | String c q =>
      if (c =? "|")%char then Some (mkCmd av rs)
      else if (c =? "<")%char || (c =? ">")%char then
        let is_in := (c =? "<")%char in
        let '(is_append, q1) :=
          match q with
          | String c' q' => if negb is_in && (c' =? ">")%char then (true, q') else (false, q)
          | EmptyString => (false, q)
          end in
        (* attached or spaced form: both read the name at the same place *)
        let '(fname, q2) := read_name (skip_ws q1) in
        if is_empty fname then None
        else if Z.of_nat (length rs) >=? MAX_REDIRS then None
        else
          let ty := if is_in then R_IN else if is_append then R_OUT_APPEND else R_OUT_TRUNC in
          parse_segment_loop fuel' q2 av (rs ++ [mkRedir ty fname])
      else
        let '(tok, q1) := read_name (String c q) in
        if is_empty tok then Some (mkCmd av rs)
        else if Z.of_nat (length av) <? MAX_ARGS - 1
             then parse_segment_loop fuel' q1 (av ++ [tok]) rs
             else None
    end
  end.

Definition parse_segment (seg : string) : option SimpleCmd :=
  let '(tok, p) := read_name (skip_ws seg) in
  if is_empty tok then None
  else parse_segment_loop (S (String.length seg)) p [tok] [].

(** The text up to the next [|] and the text from there on. *)
Fixpoint upto_bar (p : string) : string * string :=
  match p with
  | String c q =>
    if (c =? "|")%char then (EmptyString, p)
    else let '(seg, rest) := upto_bar q in (String c seg, rest)
  | EmptyString => (EmptyString, p)
  end.

(** White space removed at the end of a text. *)
Fixpoint rtrim (t : string) : string :=
  match t with
  | String c q =>
    match rtrim q with
    | EmptyString => if is_ws c then EmptyString else String c EmptyString
    | r => String c r
    end
  | EmptyString => EmptyString
  end.

Definition trim (t : string) : string := rtrim (skip_ws t).

Fixpoint parse_pipeline_loop (fuel : nat) (p : string) (acc : list SimpleCmd)
    : option (list SimpleCmd) :=
  match fuel with
  | O => None
  | S fuel' =>
    match p with
    | EmptyString => Some acc
    | _ =>
      let '(raw, rest) := upto_bar p in
      let seg := trim raw in
      if is_empty seg then None
      else if Z.of_nat (length acc) >=? MAX_CMDS then None
      else
        match parse_segment seg with
        | None => None
        | Some c =>
          match rest with
          | String _ q =>                       (* [*p == '|'] *)
            if is_empty (skip_ws q) then None
            else parse_pipeline_loop fuel' q (acc ++ [c])
          | EmptyString => parse_pipeline_loop fuel' rest (acc ++ [c])
          end
        end
    end
  end.

Definition parse_pipeline (first : string) : option Pipeline :=
  match parse_pipeline_loop (S (String.length first)) first [] with
  | Some (c :: cs) => Some (mkPipeline (c :: cs))
  | _ => None
  end.

(** ** executor.c: execute_first_cmd_group *)

(** The delimiter found by the scan: [;], a single [&], [&&] (the source
    writes ['A']) or the end of the line. *)
Inductive delim := DSemi | DAmp | DAnd | DEnd.

(** The scan to the next delimiter: its offset from [p] and its kind. *)
Fixpoint scan_delim (p : string) : nat * delim :=
  match p with
  | String c q =>
    if (c =? ";")%char then (O, DSemi)
    else if (c =? "&")%char then
      (O, match q with
          | String c' _ => if (c' =? "&")%char then DAnd else DAmp
          | EmptyString => DAmp
          end)
    else let '(n, d) := scan_delim q in (S n, d)
  | EmptyString => (O, DEnd)
  end.

(** [p + n]. *)
Fixpoint advance (n : nat) (p : string) : string :=
  match n, p with
  | S n', String _ q => advance n' q
  | _, _ => p
  end.

(** The number of white space characters at the start of [t]. *)
Fixpoint leading_ws (t : string) : nat :=
  match t with
  | String c q => if is_ws c then S (leading_ws q) else O
  | EmptyString => O
  end.

(** The skip made after a failed left side of [&&]. *)
Fixpoint skip_after_and (p : string) : string :=
  match p with
  | String c q =>
    if (c =? ";")%char then p
    else if (c =? "&")%char then
      match q with
      | String c' q' => if (c' =? "&")%char then skip_after_and q' else p
      | EmptyString => p
      end
    else skip_after_and q
  | EmptyString => p
  end.

Definition skip_semi (p : string) : string :=
  match p with
  | String c q => if (c =? ";")%char then q else p
  | EmptyString => p
  end.

(** The main loop of [execute_first_cmd_group] over the line.  [k] bounds the
    number of iterations (each one moves [p] forward); [fuel] is the fuel
    of every [fg] run on the way.  [start] and [end] of the source are the
    offsets [a] and [e] from [p]; note that [p] is advanced from the
    trimmed [end]. *)
Fixpoint exec_loop (os : OS) (fuel k : nat) (p : string) (last_status : Z)
    (s : shell) : option Z * shell :=
  match k with
  | O => (Some last_status, s)
  | S k' =>
    match p with
    | EmptyString => (Some last_status, s)
    | _ =>
      let '(n, d) := scan_delim p in
      let raw := String.substring 0 n p in
      let a := leading_ws raw in
      let seg := trim raw in
      let e := (a + String.length seg)%nat in
      if is_empty seg then exec_loop os fuel k' (advance 1 p) last_status s
      else
        let '(r, s1) :=
          match parse_pipeline seg with
          | Some pl =>
            execute_group os fuel pl seg (match d with DAmp => true | _ => false end)
                          last_status s
          | None => (Some last_status, emit (EvStdout "Invalid Syntax!") s)
          end in
        match r with
        | None => (None, s1)
        | Some st =>
          let p1 := match d with
                    | DSemi | DAmp => advance (e + 1) p
                    | DAnd => advance (e + 2) p
                    | DEnd => advance e p
                    end in
          let p2 := match d with
                    | DAnd => if negb (st =? 0) then skip_semi (skip_after_and p1) else p1
                    | _ => p1
                    end in
          exec_loop os fuel k' p2 st s1
        end
    end
  end.

Definition execute_first_cmd_group (os : OS) (fuel : nat) (line : string) (s : shell)
    : option Z * shell :=
  exec_loop os fuel (S (String.length line)) line 0 s.

(** ** main.c: the read-execute loop *)

(** [executor_recent_stop]: reads and resets the flag. *)
Definition executor_recent_stop (s : shell) : Z * shell :=
  (g_recent_stop s, set_recent_stop 0 s).

(** One turn of the loop of [main] for an input line that the syntax
    check accepts: the table is polled before the prompt (with a pause of
    50 ms after a stop) and again once the line is read, then the line is
    executed. *)
Definition main_iteration (os : OS) (fuel : nat) (line : string) (s : shell)
    : option Z * shell :=
  let s1 := jobs_poll os s in
  let '(v, s2) := executor_recent_stop s1 in
  let s3 := if v =? 0 then s2 else emit (EvNanosleep (50 * 1000 * 1000)) s2 in
  execute_first_cmd_group os fuel line (jobs_poll os s3).

(** The turns for a list of lines, as long as every command returns. *)
Fixpoint main_loop (os : OS) (fuel : nat) (lines : list string) (s : shell) : shell :=
  match lines with
  | [] => s
  | line :: rest =>
    match main_iteration os fuel line s with
    | (Some _, s') => main_loop os fuel rest s'
    | (None, s') => s'
    end
  end.

(** ** jobs.c: the rest of the interface *)

(** [jobs_get_foreground(&pgid, pids, max, name_buf, name_sz)] with all its
    output pointers given: the value returned and, unless no foreground
    pipeline is recorded, what is stored through the pointers (the group,
    the first [min(fg_count, max)] pids, and the name cut to the buffer;
    with [name_sz = 0] the name buffer is left alone). *)
Definition jobs_get_foreground (max : Z) (name_sz : nat) (s : shell)
    : Z * option (Z * list Z * option string) :=
  if fg_pgid s =? -1 then (0, None)
  else
    let n := if fg_count s <? max then fg_count s else max in
    (fg_count s,
     Some (fg_pgid s, resize (Z.to_nat n) 0 (fg_pids s),
           match name_sz with
           | O => None
           | S _ => Some (strncpy_buf name_sz (fg_name s))
           end)).

(** What identifies a job for the user: its number, its stages and its
    name. *)
Definition job_identity (job : BgJob) : Z * Z * list Z * string :=
  (job_num job, npids job, pids job, cmd_name job).

(** The numbers of the jobs in the table are in increasing order, without
    repetition, and below the counter. *)
Definition table_ordered (s : shell) : Prop :=
  StronglySorted Z.lt (job_num <$> bg_jobs s) /\
  Forall (fun n => 1 <= n < next_job_number s) (job_num <$> bg_jobs s).

(** ** Concrete states and oracles used by the examples *)

(** A job with one running stage, as [sleep 100 &] registers it. *)
Definition sleep_job (n : nat) : BgJob :=
  mkBgJob (Z.of_nat n) 1 [1000 + Z.of_nat n] [false] [false] "sleep 100 &" ["sleep 100 &"%string] 0.

(** The shell with 64 jobs in its table and a foreground pipeline recorded. *)
Definition full_shell : shell :=
  mkShell (map sleep_job (seq 1 64)) 65 2000 [2000] 1 "cat" "cat" 0 [] 0 0.

(** An operating system in which nothing ever changes state: every
    non-blocking check reports no change, every call succeeds, the k-th
    child gets the pid [100 + k] and the shell is in process group 7. *)
Definition os_quiet : OS :=
  mkOS (fun _ _ _ => WaitNone) (fun _ => true)
       (fun k => Some (Pos.of_nat (100 + k))) 7 (fun _ => 0%N) (fun _ => 0) (fun _ => None).

(** The shell after [sleep 100 &] was entered three times and the second
    job was removed: jobs 1 and 3 are running. *)
Definition two_jobs_shell : shell :=
  mkShell [sleep_job 1; sleep_job 3] 4 (-1) [] 0 "" "" 0 [] 0 0.

(** An operating system in which the process 102 has exited with status
    0 and no other process changes state. *)
Definition os_102_exited : OS :=
  mkOS (fun _ pid _ => if pid =? 102 then WaitPid (Exited 0) else WaitNone)
       (fun _ => true) (fun k => Some (Pos.of_nat (100 + k))) 7 (fun _ => 0%N) (fun _ => 0) (fun _ => None).

(** Three registrations, a poll that removes the second job, and a fourth
    registration. *)
Definition register_remove_register : list job_op :=
  [OpAddBackground [101] 1 (Some [Some "sleep 100 &"%string]);
   OpAddBackground [102] 1 (Some [Some "sleep 1 &"%string]);
   OpAddBackground [103] 1 (Some [Some "sleep 100 &"%string]);
   OpPoll;
   OpAddBackground [104] 1 (Some [Some "sleep 100 &"%string])].

(** An operating system in which every process exits with status 0 as
    soon as it is waited for. *)
Definition os_exit0 : OS :=
  mkOS (fun _ _ _ => WaitPid (Exited 0)) (fun _ => true)
       (fun k => Some (Pos.of_nat (100 + k))) 7 (fun _ => 0%N) (fun _ => 0) (fun _ => None).

(** The pipeline of the command line [sleep 1]. *)
Definition sleep_pipeline : Pipeline := mkPipeline [mkCmd ["sleep"; "1"]%string []].

(** The shell with 64 running jobs in its table and no foreground
    pipeline, as 64 entries of [sleep 100 &] leave it. *)
Definition crowded_shell : shell :=
  mkShell (map sleep_job (seq 1 64)) 65 (-1) [] 0 "" "" 0 [] 0 0.

Definition sixty_four_registrations : list job_op :=
  map (fun k => OpAddBackground [1000 + Z.of_nat k] 1 (Some [Some "sleep 100 &"%string]))
      (seq 1 64).

(** An operating system in which every process waited for has been
    stopped by SIGTSTP (signal 20). *)
Definition os_stop : OS :=
  mkOS (fun _ _ _ => WaitPid (Stopped 20)) (fun _ => true)
       (fun k => Some (Pos.of_nat (100 + k))) 7 (fun _ => 0%N) (fun _ => 0) (fun _ => None).

(** An operating system in which every process waited for has exited
    with status 148. *)
Definition os_exit148 : OS :=
  mkOS (fun _ _ _ => WaitPid (Exited 148)) (fun _ => true)
       (fun k => Some (Pos.of_nat (100 + k))) 7 (fun _ => 0%N) (fun _ => 0) (fun _ => None).

(** The pipeline of [false | true | false] and a system in which [false]
    (pids 100 and 102) exits with status 1 and [true] (pid 101) with 0. *)
Definition false_true_false : Pipeline :=
  mkPipeline [mkCmd ["false"%string] []; mkCmd ["true"%string] []; mkCmd ["false"%string] []].

Definition os_false_true_false : OS :=
  mkOS (fun _ pid _ => WaitPid (Exited (if pid =? 101 then 0 else 1))) (fun _ => true)
       (fun k => Some (Pos.of_nat (100 + k))) 7 (fun _ => 0%N) (fun _ => 0) (fun _ => None).

(** The pipelines of [echo hi > f.txt > g.txt] and [echo hi >> f.txt]. *)
Definition echo_two_outputs : Pipeline :=
  mkPipeline [mkCmd ["echo"; "hi"]%string
                    [mkRedir R_OUT_TRUNC "f.txt"; mkRedir R_OUT_TRUNC "g.txt"]].

Definition echo_append : Pipeline :=
  mkPipeline [mkCmd ["echo"; "hi"]%string [mkRedir R_OUT_APPEND "f.txt"]].

(** A file system in which only [/dev/null] exists and every path can be
    written. *)
Definition fs_empty : filesys := mkFs {[ dev_null := ""%string ]} ∅.

(** The pipelines of [hop .. > out.txt] and [cat > out.txt]. *)
Definition hop_redirected : Pipeline :=
  mkPipeline [mkCmd ["hop"; ".."]%string [mkRedir R_OUT_TRUNC "out.txt"]].

Definition cat_redirected : Pipeline :=
  mkPipeline [mkCmd ["cat"%string] [mkRedir R_OUT_TRUNC "out.txt"]].

(** A system that answers the successive [waitpid] calls of the shell
    from a script, with "no change" once the script is used up. *)
Definition os_scripted (script : list wait_ret) : OS :=
  mkOS (fun k _ _ => nth k script WaitNone) (fun _ => true)
       (fun k => Some (Pos.of_nat (100 + k))) 7 (fun _ => 0%N) (fun _ => 0) (fun _ => None).

(** The session [sleep 100 | timeout 2 sleep 50 &], [fg], Ctrl-Z, [bg].
    While the job is in the foreground its last stage (pid 101) exits with
    status 124 (sixth wait), then the first stage (pid 100) is stopped
    (seventh wait).  After [bg] the first stage exits with status 0 (tenth
    wait). *)
Definition fg_session_script : list wait_ret :=
  [WaitNone; WaitNone; WaitNone; WaitNone;
   WaitNone; WaitPid (Exited 124); WaitPid (Stopped 20);
   WaitNone; WaitNone; WaitPid (Exited 0)].

Definition fg_session : shell :=
  jobs_poll (os_scripted fg_session_script)
    (main_loop (os_scripted fg_session_script) 10
       ["sleep 100 | timeout 2 sleep 50 &"; "fg"; "bg"]%string shell_init).

(** The session [sleep 100 | false], Ctrl-Z, [bg].  The blocking wait of
    the foreground run sees the first stage (pid 100) stopped and the last
    stage (pid 101) exited with status 1.  The later checks on pid 101 fail
    (it has been reaped); after [bg] the first stage exits with status 0. *)
Definition ctrl_z_session_script : list wait_ret :=
  [WaitPid (Stopped 20); WaitPid (Exited 1);
   WaitNone; WaitError; WaitNone; WaitError;
   WaitPid (Exited 0); WaitError].

Definition ctrl_z_session : shell :=
  jobs_poll (os_scripted ctrl_z_session_script)
    (main_loop (os_scripted ctrl_z_session_script) 10
       ["sleep 100 | false"; "bg"]%string shell_init).

(** The session [sleep 1 | doesnotexist | sleep 1 &] of the specification:
    the middle stage (pid 101) exits with status 127, the first (pid 100)
    is killed by a signal and the last (pid 102) exits with status 0; the
    table is polled twice before the next command and once after. *)
Definition three_stage_script : list wait_ret :=
  [WaitNone; WaitPid (Exited 127); WaitNone;
   WaitPid (Signaled 13); WaitNone;
   WaitPid (Exited 0)].

Definition three_stage_session : shell :=
  jobs_poll (os_scripted three_stage_script)
    (main_loop (os_scripted three_stage_script) 10
       ["sleep 1 | doesnotexist | sleep 1 &"; "hop ."]%string shell_init).

(** ** Names, as the tokenizer reads them *)

(** Every character of [t] satisfies [f]. *)
Fixpoint all_chars (f : ascii -> bool) (t : string) : bool :=
  match t with
  | String c q => f c && all_chars f q
  | EmptyString => true
  end.

(** A character that [read_name] takes into a token. *)
Definition is_name_char (c : ascii) : bool := negb (is_ws c || is_special c).

(** A token of [read_name]: at least one character, none of them white
    space or one of [|<>&;]. *)
Definition is_name (t : string) : bool := negb (is_empty t) && all_chars is_name_char t.

(** The sizes of a parsed command fit the arrays of [SimpleCmd], the
    program name is there, and every argument and file name is a token. *)
Definition cmd_within_bounds (c : SimpleCmd) : Prop :=
  1 <= Z.of_nat (length (argv c)) <= MAX_ARGS - 1 /\
  redir_count c <= MAX_REDIRS /\
  Forall (fun a => is_name a = true) (argv c) /\
  Forall (fun r => is_name (r_path r) = true) (redirs c).

(** The words of a command, each preceded by a blank. *)
Fixpoint spaced (ws : list string) : string :=
  match ws with
  | [] => ""
  | w :: rest => " " +:+ w +:+ spaced rest
  end.

(** The text that follows a word: nothing, or something that [read_name]
    stops at. *)
Definition ends_name (tail : string) : Prop :=
  match tail with
  | String c _ => is_name_char c = false
  | EmptyString => True
  end.

(** ** Command groups, as [execute_first_cmd_group] scans them *)

(** Neither [;] nor [&]: a character that the scan for a delimiter
    passes over. *)
Definition is_plain_char (c : ascii) : bool := negb ((c =? ";")%char || (c =? "&")%char).

(** The text does not start with [&]. *)
Definition no_amp_first (t : string) : bool :=
  match t with
  | String c _ => negb (c =? "&")%char
  | EmptyString => true
  end.

(** ** hop.c: the builtins [hop] and [cd] *)

Module Hop.

Definition PATH_MAX : nat := 4096.

(** The directories as the builtins see them.  [prompt_home] is the home
    of the shell ([None] for [NULL]); [os_chdir d target] is the directory
    in which a process that is in [d] finds itself after [chdir(target)],
    or [None] when the call fails; [os_getcwd_ok d] tells whether the
    system can name the directory [d].  A directory is identified with the
    path that [getcwd] gives for it. *)
Record Dirs := mkDirs {
  prompt_home : option string;
  os_chdir : string -> string -> option string;
  os_getcwd_ok : string -> bool
}.

(** The working directory of the process, the static variables
    [prev_cwd] and [prev_cwd_set], and the lines printed. *)
Record state := mkState {
  cwd : string;
  prev_cwd : string;
  prev_cwd_set : bool;
  out : list string
}.

Definition puts (line : string) (st : state) : state :=
  mkState (cwd st) (prev_cwd st) (prev_cwd_set st) (out st ++ [line]).

(** [getcwd(cwd, sizeof(cwd))] with a buffer of [PATH_MAX] bytes. *)
Definition getcwd (D : Dirs) (st : state) : option string :=
  if os_getcwd_ok D (cwd st) && (String.length (cwd st) <? PATH_MAX)%nat
  then Some (cwd st) else None.

Definition change_dir_to (D : Dirs) (target : string) (record_prev : bool) (st : state)
    : Z * state :=
  let cw := default ""%string (getcwd D st) in
  match os_chdir D (cwd st) target with
  | None => (0, puts "No such directory!" st)
  | Some d =>
    (1, if record_prev && negb (is_empty cw)
        then mkState d (strncpy_buf PATH_MAX cw) true (out st)
        else mkState d (prev_cwd st) (prev_cwd_set st) (out st))
  end.

(** [if (home && *home) change_dir_to(home, 1);] *)
Definition go_home (D : Dirs) (st : state) : state :=
  match prompt_home D with
  | Some h => if is_empty h then st else snd (change_dir_to D h true st)
  | None => st
  end.

(** [prev_cwd_set && prev_cwd[0] != 0]. *)
Definition hop_prev_cwd_available (st : state) : bool :=
  prev_cwd_set st && negb (is_empty (prev_cwd st)).

Definition hop_get_prev_cwd (st : state) : option string :=
  if hop_prev_cwd_available st then Some (prev_cwd st) else None.

(** The exchange made for [-] when a previous directory is recorded. *)
Definition swap_prev (D : Dirs) (st : state) : state :=
  match getcwd D st with
  | Some cw =>
    match os_chdir D (cwd st) (prev_cwd st) with
    | Some d => mkState d (strncpy_buf PATH_MAX cw) (prev_cwd_set st) (out st)
    | None => st
    end
  | None => st
  end.

Definition hop_one (D : Dirs) (arg : option string) (st : state) : state :=
  match arg with
  | None => go_home D st
  | Some a =>
    if (a =? "~")%string then go_home D st
    else if (a =? ".")%string then st
    else if (a =? "..")%string then snd (change_dir_to D ".." true st)
    else if (a =? "-")%string then
      if hop_prev_cwd_available st then swap_prev D st else st
    else snd (change_dir_to D a true st)
  end.

(** [argv] holds [argv[0]] to [argv[argc-1]]. *)
Definition run_hop_argv (D : Dirs) (argv : list string) (st : state) : Z * state :=
  match argv with
  | [] => (1, st)
  | [_] => (0, go_home D st)
  | _ :: args => (0, fold_left (fun s a => hop_one D (Some a) s) args st)
  end.

Definition run_cd_argv (D : Dirs) (argv : list string) (st : state) : Z * state :=
  match argv with
  | [] => (1, st)
  | [_] => (0, go_home D st)
  | [_; arg] =>
    if (arg =? "~")%string then (0, go_home D st)
    else if (arg =? ".")%string then (0, st)
    else if (arg =? "..")%string then (0, snd (change_dir_to D ".." true st))
    else if (arg =? "-")%string then
      if hop_prev_cwd_available st then (0, swap_prev D st)
      else (1, puts "No such directory!" st)
    else (0, snd (change_dir_to D arg true st))
  | _ => (1, puts "cd: too many arguments" st)
  end.

End Hop.

(** A small world for the examples: the directories [/], [/home],
    [/home/u] (the home of the shell) and [/tmp]. *)
Definition small_world : Hop.Dirs :=
  Hop.mkDirs (Some "/home/u"%string)
    (fun d t =>
       if (t =? "/tmp")%string then Some "/tmp"%string
       else if (t =? "/home/u")%string then Some "/home/u"%string
       else if (t =? "..")%string then
         if (d =? "/home/u")%string then Some "/home"%string else Some "/"%string
       else None)
    (fun _ => true).

Definition at_home : Hop.state := Hop.mkState "/home/u" "" false [].

(** ** ping.c *)

Module Ping.

(** The text after the longest run of decimal digits at the start of [s]. *)
Fixpoint after_digits (s : string) : string :=
  match s with
  | String c r => if isdigit c then after_digits r else s
  | EmptyString => s
  end.

(** [strtol(s, &end, 10)] in full: the value, whether a number was read
    ([end != s]), the text at [end], and whether [errno] is set to
    [ERANGE]. *)
Record strtol_result := mkStrtol {
  value : Z;
  converted : bool;
  at_end : string;
  erange : bool
}.

(** The conversion proper, once white space and sign are read: [u] is the
    text after them and [s] the whole text. *)
Definition convert (neg : bool) (u s : string) : strtol_result :=
  match u with
  | String c _ =>
    if isdigit c then
      let v := if neg then - digits_value u 0 else digits_value u 0 in
      mkStrtol (clamp_long v) true (after_digits u)
               (negb ((- LONG_MAX - 1 <=? v) && (v <=? LONG_MAX)))
    else mkStrtol 0 false s false
  | EmptyString => mkStrtol 0 false s false
  end.

Definition strtol (s : string) : strtol_result :=
  match skip_spaces s with
  | String c r =>
    if (c =? "-")%char then convert true r s
    else if (c =? "+")%char then convert false r s
    else convert false (String c r) s
  | EmptyString => convert false EmptyString s
  end.

(** [parse_int(s, &out)]: the number stored through [out] when the
    function returns 1. *)
Definition parse_int (s : option string) : option Z :=
  match s with
  | None => None
  | Some EmptyString => None
  | Some s =>
    let r := strtol s in
    if erange r then None
    else if negb (converted r) || negb (is_empty (at_end r)) then None
    else Some (value r)
  end.

(** What [kill] answers: success, [ESRCH], or another error with the
    text that [perror] prints for it. *)
Inductive kill_ret := KillOk | KillNoProcess | KillFailed (msg : string).

(** [sig_l % 32] in C: the remainder has the sign of [sig_l]. *)
Definition actual_signal (sig_l : Z) : Z := wrap_int (Z.rem sig_l 32).

Definition run_ping_argv (kill : Z -> Z -> kill_ret) (argv : list string)
    : Z * list event :=
  match argv with
  | [_; a1; a2] =>
    match parse_int (Some a1) with
    | None => (1, [EvStdout "No such process found"])
    | Some pid_l =>
      if pid_l <=? 0 then (1, [EvStdout "No such process found"])
      else
        match parse_int (Some a2) with
        | None => (1, [EvStdout "ping: Invalid Syntax!"])
        | Some sig_l =>
          let actual := actual_signal sig_l in
          let target := wrap_int pid_l in      (* (pid_t)pid_l *)
          match kill target actual with
          | KillOk =>
            (0, [EvKill target actual;
                 EvStdout ("Sent signal " +:+ fmt_d sig_l +:+ " to process with pid "
                           +:+ fmt_d pid_l)])
          | KillNoProcess => (1, [EvKill target actual; EvStdout "No such process found"])
          | KillFailed msg => (1, [EvKill target actual; EvStderr ("kill: " +:+ msg)])
          end
        end
    end
  | _ => (1, [EvStdout "ping: Invalid Syntax!"])
  end.

(** An optional sign followed by one or more decimal digits and nothing
    else. *)
Definition is_numeral (t : string) : bool :=
  match t with
  | String c r =>
    if (c =? "-")%char || (c =? "+")%char
    then negb (is_empty r) && all_chars isdigit r
    else all_chars isdigit t
  | EmptyString => false
  end.

End Ping.

(** ** log.c: the history *)

Module Log.

Definition LOG_MAX : Z := 15.

(** The static variables [entries], [count] and [head], the content of
    the history file ([None] when it cannot be opened for reading) and
    whether it can be opened for writing. *)
Record state := mkState {
  entries : list (option string);
  count : Z;
  head : Z;
  file : option string;
  writable : bool
}.

(** [entries[i]]. *)
Definition rd (es : list (option string)) (i : Z) : option string :=
  default None (es !! Z.to_nat i).

(** The slots [(head + i) % LOG_MAX] for [i] from 0 to [count - 1]. *)
Definition ring_positions (st : state) : list Z :=
  map (fun i => Z.rem (head st + Z.of_nat i) LOG_MAX) (seq 0 (Z.to_nat (count st))).

(** The entries from the oldest to the newest, as [print_list] prints
    them and [save_to_disk] writes them: an empty slot is passed over. *)
Definition ring_lines (st : state) : list string :=
  omap (rd (entries st)) (ring_positions st).

Definition newline : string := String "010" EmptyString.

(** The lines, each closed by a newline. *)
Definition concat_lines (ls : list string) : string :=
  fold_right (fun l acc => l +:+ newline +:+ acc) EmptyString ls.

Definition save_to_disk (st : state) : state :=
  if writable st
  then mkState (entries st) (count st) (head st) (Some (concat_lines (ring_lines st)))
               (writable st)
  else st.

Definition free_all (st : state) : state :=
  mkState (replicate (Z.to_nat LOG_MAX) None) 0 0 (file st) (writable st).

(** The lines that successive calls of [getline] return, each with its
    newline (the last one may lack it). *)
Fixpoint getlines (content : string) : list string :=
  match content with
  | EmptyString => []
  | String c r =>
    if (c =? "010")%char then String c EmptyString :: getlines r
    else match getlines r with
         | [] => [String c EmptyString]
         | l :: ls => String c l :: ls
         end
  end.

Definition is_eol (c : ascii) : bool := (c =? "010")%char || (c =? "013")%char.

(** The newlines and carriage returns at the end of a line removed. *)
Fixpoint strip_eol (t : string) : string :=
  match t with
  | String c q =>
    match strip_eol q with
    | EmptyString => if is_eol c then EmptyString else String c EmptyString
    | r => String c r
    end
  | EmptyString => EmptyString
  end.

(** One more line in the temporary array of [load_from_disk]: appended,
    or shifted in once the array is full. *)
Definition tmp_push (tmp : list string) (dup : string) : list string :=
  if Z.of_nat (length tmp) <? LOG_MAX then tmp ++ [dup] else drop 1 tmp ++ [dup].

Definition load_from_disk (st : state) : state :=
  match file st with
  | None => st
  | Some content =>
    let tmp := fold_left tmp_push (map strip_eol (getlines content)) [] in
    mkState ((Some <$> tmp) ++ drop (length tmp) (entries st))
            (Z.of_nat (length tmp)) 0 (file st) (writable st)
  end.

Definition log_init (st : state) : state := load_from_disk (free_all st).

Definition ring_last_index (st : state) : Z :=
  if count st =? 0 then -1 else Z.rem (head st + count st - 1) LOG_MAX.

Definition ring_push (s : string) (st : state) : state :=
  let last := ring_last_index st in
  if negb (last =? -1) &&
     match rd (entries st) last with Some e => (e =? s)%string | None => false end
  then st
  else
    save_to_disk
      (if count st <? LOG_MAX then
         let pos := Z.rem (head st + count st) LOG_MAX in
         mkState (<[Z.to_nat pos := Some s]> (entries st)) (count st + 1) (head st)
                 (file st) (writable st)
       else
         mkState (<[Z.to_nat (head st) := Some s]> (entries st)) (count st)
                 (Z.rem (head st + 1) LOG_MAX) (file st) (writable st)).

(** The skip over the arguments and redirections of one command in
    [contains_log_command_name], up to [|], [;], [&] or the end. *)
Fixpoint skip_atomic (fuel : nat) (p : string) : string :=
  match fuel with
  | O => p
  | S fuel' =>
    match skip_ws p with
    | EmptyString => EmptyString
    | String c q =>
      if (c =? "|")%char || (c =? ";")%char || (c =? "&")%char then String c q
      else if (c =? "<")%char || (c =? ">")%char then
        let q1 := match q with
                  | String c' q' => if (c' =? ">")%char then q' else q
                  | EmptyString => q
                  end in
        skip_atomic fuel' (snd (read_name (skip_ws q1)))
      else skip_atomic fuel' (snd (read_name (String c q)))
    end
  end.

(** The outer loop of [contains_log_command_name]; every turn consumes a
    character, so a fuel above the length of the line is never spent. *)
Fixpoint contains_log_loop (fuel : nat) (p : string) : bool :=
  match fuel with
  | O => false
  | S fuel' =>
    match p with
    | EmptyString => false
    | _ =>
      let '(name, p1) := read_name (skip_ws p) in
      if is_empty name then false
      else if (name =? "log")%string then true
      else
        match skip_atomic (S (String.length p1)) p1 with
        | String _ q => contains_log_loop fuel' q
        | EmptyString => false
        end
    end
  end.

Definition contains_log_command_name (line : string) : bool :=
  contains_log_loop (S (String.length line)) line.

Definition log_maybe_store_shell_cmd (line : string) (st : state) : state :=
  if contains_log_command_name line then st else ring_push (strip_eol line) st.

(** What the builtin does besides changing the history: a line printed,
    or a command handed to [system]. *)
Inductive action := Print (line : string) | System (cmd : string).

Definition purge (st : state) : state := save_to_disk (free_all st).

(** The walk of [exec_index] from the newest slot back. *)
Fixpoint walk_back (steps : nat) (pos : Z) : Z :=
  match steps with
  | O => pos
  | S n => walk_back n (Z.rem (pos - 1 + LOG_MAX) LOG_MAX)
  end.

(** [exec_index(index)]; [system cmd] is [None] when [system] returns -1
    and the wait status of the command otherwise. *)
Definition exec_index (system : string -> option wstatus) (index : Z) (st : state)
    : Z * list action :=
  if (index <=? 0) || (index >? count st) then (1, [])
  else
    let newest_pos := Z.rem (head st + count st - 1) LOG_MAX in
    let pos := walk_back (Z.to_nat (index - 1)) newest_pos in
    match rd (entries st) pos with
    | None => (1, [])
    | Some cmd =>
      (match system cmd with
       | None => 1
       | Some rc => if WIFEXITED rc then WEXITSTATUS rc else 1
       end, [System cmd])
    end.

Definition run_log_argv (system : string -> option wstatus) (argv : list string)
    (st : state) : Z * list action * state :=
  match argv with
  | [_] => (0, map Print (ring_lines st), st)
  | [_; a1] =>
    if (a1 =? "purge")%string then (0, [], purge st)
    else (1, [Print "log: Invalid Syntax!"], st)
  | [_; a1; a2] =>
    if (a1 =? "execute")%string then
      let r := Ping.strtol a2 in
      if negb (is_empty (Ping.at_end r)) then (1, [Print "log: Invalid Syntax!"], st)
      else (exec_index system (wrap_int (Ping.value r)) st, st)
    else (1, [Print "log: Invalid Syntax!"], st)
  | _ => (1, [Print "log: Invalid Syntax!"], st)
  end.

(** The last [n] elements of a list. *)
Definition keep_last {A} (n : nat) (l : list A) : list A := drop (length l - n) l.

(** The ring is in order: the indices are within the array and the
    [count] slots from [head] on are filled. *)
Definition ring_ok (st : state) : Prop :=
  length (entries st) = Z.to_nat LOG_MAX /\
  0 <= head st < LOG_MAX /\ 0 <= count st <= LOG_MAX /\
  Forall (fun pos => rd (entries st) pos <> None) (ring_positions st).

End Log.

(** The history of a shell that has just started without a history
    file, and a line as it is kept in the history: no newline in it and
    no carriage return at its end. *)
Definition empty_history : Log.state := Log.free_all (Log.mkState [] 0 0 None true).

Definition clean_line (l : string) : Prop :=
  all_chars (fun c => negb (c =? "010")%char) l = true /\ Log.strip_eol l = l.

(** ** activities.c *)

Module Activities.

(** [Act]: what [collect_cb] keeps of one unfinished stage. *)
Record Act := mkAct { pid : Z; name : string; act_stopped : bool }.

(** [cmp>0 || (cmp==0 && acts[i].pid > acts[j].pid)] with
    [cmp = strcmp(acts[i].name, acts[j].name)]: the test that makes the
    sort exchange two entries. *)
Definition out_of_order (a b : Act) : bool :=
  match String.compare (name a) (name b) with
  | Gt => true
  | Eq => pid a >? pid b
  | Lt => false
  end.

(** The inner loop of the sort for one [i]: [x] is [acts[i]] and [rest]
    the entries behind it; whenever the current [acts[i]] is out of order
    with [acts[j]] the two are exchanged.  The result is the final
    [acts[i]] and the entries left behind it. *)
Fixpoint inner_loop (x : Act) (rest : list Act) : Act * list Act :=
  match rest with
  | [] => (x, [])
  | y :: r =>
    if out_of_order x y
    then let '(m, r') := inner_loop y r in (m, x :: r')
    else let '(m, r') := inner_loop x r in (m, y :: r')
  end.

(** The outer loop: [n] entries remain to be placed. *)
Fixpoint outer_loop (n : nat) (acts : list Act) : list Act :=
  match n, acts with
  | S n', x :: rest => let '(m, rest') := inner_loop x rest in m :: outer_loop n' rest'
  | _, _ => acts
  end.

Definition act_line (a : Act) : string :=
  "[" +:+ fmt_d (pid a) +:+ "] : " +:+ name a +:+ " - " +:+
  (if act_stopped a then "Stopped" else "Running").

(** [run_activities_argv]: the status and the lines printed, for the
    table of the shell [s]. *)
Definition run_activities_argv (s : shell) : Z * list string :=
  let acts := map (fun '(p, nm, st) => mkAct p nm st) (jobs_for_each_activity s) in
  (0, map act_line (outer_loop (length acts) acts)).

(** The order of the listing: by name as [strcmp] orders them, then by
    pid. *)
Definition in_order (a b : Act) : Prop := out_of_order a b = false.

End Activities.

(** ** prompt.c *)

Module Prompt.

(** The path that [print_prompt_from_cwd] shows between [:] and [>].
    [shell_home] and [cwd] are [None] for [NULL]. *)
Definition prompt_path (shell_home cwd : option string) : string :=
  match shell_home, cwd with
  | Some h, Some c =>
    if (h =? "/")%string && match c with String "/" _ => true | _ => false end then
      match c with
      | String _ EmptyString => "~"
      | _ => "~/" +:+ advance 1 c
      end
    else if String.prefix h c then
      match String.get (String.length h) c with
      | None => "~"
      | Some ch => if (ch =? "/")%char then "~" +:+ advance (String.length h) c else c
      end
    else c
  | _, Some c => c
  | _, None => "?"
  end.

(** [print_prompt_from_cwd]: every branch prints [<user@host:path>]. *)
Definition print_prompt_from_cwd (username hostname : string)
    (shell_home cwd : option string) : string :=
  "<" +:+ username +:+ "@" +:+ hostname +:+ ":" +:+ prompt_path shell_home cwd +:+ ">".

(** [prompt_print]: the prompt followed by a blank. *)
Definition prompt_print (username hostname : string) (shell_home cwd : option string)
    : string :=
  print_prompt_from_cwd username hostname shell_home cwd +:+ " ".

(** An absolute path, as [getcwd] returns them. *)
Definition absolute (c : string) : bool :=
  match c with String "/" _ => true | _ => false end.

End Prompt.

(** ** reveal.c *)

Module Reveal.

(** [qsort] with [cmp_ascii]: the names in the order of [strcmp]. *)
Fixpoint insert_sorted (x : string) (l : list string) : list string :=
  match l with
  | [] => [x]
  | y :: r => if (x <=? y)%string then x :: l else y :: insert_sorted x r
  end.

Definition qsort (l : list string) : list string := fold_right insert_sorted [] l.

(** [name[0] == '.']. *)
Definition hidden (name : string) : bool :=
  match name with String c _ => (c =? ".")%char | EmptyString => false end.

(** [list_dir(path, show_all, line_by_line)].  [readdir path] gives the
    names that [readdir] returns for the directory, or [None] when
    [opendir] fails.  The result is the value returned and the lines
    printed. *)
Definition list_dir (readdir : string -> option (list string)) (path : string)
    (show_all line_by_line : bool) : Z * list string :=
  match readdir path with
  | None => (0, ["No such directory!"%string])
  | Some names =>
    let v := qsort (filter (fun name => show_all || negb (hidden name)) names) in
    (1, if line_by_line then v
        else match v with [] => [] | _ => [join_argv v] end)
  end.

(** The letters of one flag word, after its [-]. *)
Fixpoint flag_letters (letters : string) (show_all line_by_line : bool)
    : option (bool * bool) :=
  match letters with
  | EmptyString => Some (show_all, line_by_line)
  | String c r =>
    if (c =? "a")%char then flag_letters r true line_by_line
    else if (c =? "l")%char then flag_letters r show_all true
    else None
  end.

(** [a[0] == '-' && a[1] != '\0']. *)
Definition is_flag_word (a : string) : bool :=
  match a with
  | String c (String _ _) => (c =? "-")%char
  | _ => false
  end.

(** The loop of [run_reveal_argv] over [argv[1]] to [argv[argc-1]]: the
    status and line of an early return, or the flags and the target
    ([None] for [NULL]) once all arguments are read. *)
Fixpoint args_loop (D : Hop.Dirs) (hst : Hop.state) (args : list string)
    (show_all line_by_line : bool) (target : option string) (positional_count : Z)
    : (Z * list string) + (bool * bool * option string) :=
  match args with
  | [] => inr (show_all, line_by_line, target)
  | a :: rest =>
    if is_flag_word a then
      match flag_letters (advance 1 a) show_all line_by_line with
      | None => inl (1, ["reveal: Invalid Syntax!"%string])
      | Some (sa, ll) => args_loop D hst rest sa ll target positional_count
      end
    else
      let pc := positional_count + 1 in
      if pc >? 1 then inl (1, ["reveal: Invalid Syntax!"%string])
      else if (a =? "~")%string then
        args_loop D hst rest show_all line_by_line (Hop.prompt_home D) pc
      else if (a =? ".")%string then
        args_loop D hst rest show_all line_by_line (Some "."%string) pc
      else if (a =? "..")%string then
        args_loop D hst rest show_all line_by_line (Some ".."%string) pc
      else if (a =? "-")%string then
        if Hop.hop_prev_cwd_available hst
        then args_loop D hst rest show_all line_by_line (Hop.hop_get_prev_cwd hst) pc
        else inl (1, ["No such directory!"%string])
      else args_loop D hst rest show_all line_by_line (Some a) pc
  end.

(** [run_reveal_argv]: the status, the lines printed and the directories
    handed to [opendir]. *)
Definition run_reveal_argv (D : Hop.Dirs) (readdir : string -> option (list string))
    (hst : Hop.state) (argv : list string) : Z * list string * list string :=
  match argv with
  | [] => (1, [], [])
  | _ :: args =>
    match args_loop D hst args false false (Some "."%string) 0 with
    | inl (st, lines) => (st, lines, [])
    | inr (show_all, line_by_line, None) => (1, ["No such directory!"%string], [])
    | inr (show_all, line_by_line, Some target) =>
      (0, snd (list_dir readdir target show_all line_by_line), [target])
    end
  end.

End Reveal.

(** ** The arguments of [reveal], read as a whole *)

(** The letters of the flag word [a] are all [a] or [l]. *)
Definition good_flag (a : string) : bool :=
  all_chars (fun c => (c =? "a")%char || (c =? "l")%char) (advance 1 a).

(** The character [c] occurs in [t]. *)
Fixpoint has_char (c : ascii) (t : string) : bool :=
  match t with
  | String d r => (d =? c)%char || has_char c r
  | EmptyString => false
  end.

(** The flag words and the other words of an argument list, in order. *)
Definition flag_words (args : list string) : list string :=
  List.filter Reveal.is_flag_word args.

Definition path_words (args : list string) : list string :=
  List.filter (fun a => negb (Reveal.is_flag_word a)) args.

(** The directory that the path word [p] names: the home for [~], the
    previous directory for [-], and otherwise [p] itself ([None] for
    [NULL]). *)
Definition reveal_target (D : Hop.Dirs) (hst : Hop.state) (p : string) : option string :=
  if (p =? "~")%string then Hop.prompt_home D
  else if (p =? "-")%string then Hop.hop_get_prev_cwd hst
  else Some p.

(** The three redirection operators as they are written, and the type
    each one stands for. *)
Definition redir_operator (ty : RedirType) : string :=
  match ty with
  | R_IN => "<"
  | R_OUT_TRUNC => ">"
  | R_OUT_APPEND => ">>"
  end.

(** * Properties *)

(** ** Registration failures (jobs.c) *)

Section Registration.

Variable s : shell.

Lemma jobs_add_background_bad_count ps cnt names :
  cnt <= 0 -> jobs_add_background ps cnt names s = (-1, None, s).
Proof.
  intros H. unfold jobs_add_background.
  destruct (Z.leb_spec cnt 0); [reflexivity | lia].
Qed.

Lemma jobs_add_background_full ps cnt names :
  MAX_BG_JOBS <= bg_job_count s -> jobs_add_background ps cnt names s = (-1, None, s).
Proof.
  intros H. unfold jobs_add_background.
  destruct (cnt <=? 0); [reflexivity |].
  destruct (Z.geb_spec (bg_job_count s) MAX_BG_JOBS); [reflexivity | lia].
Qed.

Lemma jobs_move_foreground_refused :
  fg_pgid s = -1 \/ fg_count s = 0 \/ MAX_BG_JOBS <= bg_job_count s ->
  jobs_move_foreground_to_background_stopped s = (-1, s).
Proof.
  intros H. unfold jobs_move_foreground_to_background_stopped.
  destruct (Z.eqb_spec (fg_pgid s) (-1)); [reflexivity |].
  destruct (Z.eqb_spec (fg_count s) 0); [reflexivity |]. simpl.
  destruct (Z.geb_spec (bg_job_count s) MAX_BG_JOBS); [reflexivity | lia].
Qed.

Lemma jobs_move_foreground_done :
  fg_pgid s <> -1 -> fg_count s <> 0 -> bg_job_count s < MAX_BG_JOBS ->
  jobs_move_foreground_to_background_stopped s
  = (next_job_number s,
     jobs_clear_foreground
       (set_bg_jobs
          (bg_jobs s ++
           [mkBgJob (next_job_number s) (fg_count s)
                    (resize (Z.to_nat (fg_count s)) 0 (fg_pids s))
                    (replicate (Z.to_nat (fg_count s)) false)
                    (replicate (Z.to_nat (fg_count s)) true)
                    (name_or_qm (fg_name s))
                    (replicate (Z.to_nat (fg_count s)) (name_or_qm (fg_name s))) 0])
          (set_next_job_number (wrap_int (next_job_number s + 1)) s))).
Proof.
  intros Hp Hc Hroom. unfold jobs_move_foreground_to_background_stopped.
  destruct (Z.eqb_spec (fg_pgid s) (-1)); [contradiction |].
  destruct (Z.eqb_spec (fg_count s) 0); [contradiction |]. simpl.
  destruct (Z.geb_spec (bg_job_count s) MAX_BG_JOBS); [lia | reflexivity].
Qed.

End Registration.

(** C9.  A registration that cannot be made changes nothing.
    [jobs_add_background] called with a stage count that is not positive,
    or while the table holds 64 jobs, returns -1, stores nothing through
    [last_pid_out] and leaves the whole shell state (the table, the job
    count, the next job number) as it was; so does
    [jobs_move_foreground_to_background_stopped] when no foreground job is
    recorded or the table holds 64 jobs. *)
Theorem registration_failure_is_atomic (s : shell) :
  (forall ps cnt names,
      cnt <= 0 \/ MAX_BG_JOBS <= bg_job_count s ->
      jobs_add_background ps cnt names s = (-1, None, s)) /\
  (fg_pgid s = -1 \/ fg_count s = 0 \/ MAX_BG_JOBS <= bg_job_count s ->
   jobs_move_foreground_to_background_stopped s = (-1, s)).
Proof.
  split.
  - intros ps cnt names [H | H].
    + now apply jobs_add_background_bad_count.
    + now apply jobs_add_background_full.
  - apply jobs_move_foreground_refused.
Qed.

Lemma registration_failure_is_atomic_witness :
  jobs_add_background [3000] 1 None full_shell = (-1, None, full_shell) /\
  jobs_add_background [] 0 None shell_init = (-1, None, shell_init) /\
  jobs_move_foreground_to_background_stopped full_shell = (-1, full_shell) /\
  jobs_move_foreground_to_background_stopped shell_init = (-1, shell_init).
Proof.
  split; [| split; [| split]].
  - apply (proj1 (registration_failure_is_atomic full_shell)).
    right. vm_compute. discriminate.
  - apply (proj1 (registration_failure_is_atomic shell_init)).
    left. lia.
  - apply (proj2 (registration_failure_is_atomic full_shell)).
    right. right. vm_compute. discriminate.
  - apply (proj2 (registration_failure_is_atomic shell_init)).
    left. reflexivity.
Defined.

(** ** Job lookup (jobs.c) *)

Lemma find_job_from_absent jobs i jobnum :
  (forall job, In job jobs -> job_num job <> jobnum) ->
  find_job_from jobs i jobnum = -1.
Proof.
  revert i. induction jobs as [| job rest IH]; intros i H; simpl.
  - reflexivity.
  - destruct (Z.eqb_spec (job_num job) jobnum) as [E | _].
    + exfalso. apply (H job); [now left | exact E].
    + apply IH. intros j Hj. apply H. now right.
Qed.

Lemma find_job_from_range jobs i jobnum :
  find_job_from jobs i jobnum = -1 \/
  i <= find_job_from jobs i jobnum < i + Z.of_nat (length jobs).
Proof.
  revert i. induction jobs as [| job rest IH]; intros i; simpl.
  - now left.
  - destruct (job_num job =? jobnum).
    + right. lia.
    + destruct (IH (i + 1)) as [E | R]; [now left | right; lia].
Qed.

Lemma select_unknown_job jobnum s :
  jobnum <> 0 ->
  (forall job, In job (bg_jobs s) -> job_num job <> jobnum) ->
  select_job_index jobnum s = -1.
Proof.
  intros Hnz Habs. unfold select_job_index.
  destruct (Z.eqb_spec jobnum 0); [contradiction |].
  now apply find_job_from_absent.
Qed.

Lemma select_empty_table s :
  bg_jobs s = [] -> select_job_index 0 s = -1.
Proof.
  intros E. unfold select_job_index, most_recent_job_index, bg_job_count.
  now rewrite E.
Qed.

Lemma existsb_false_on {A} (f : A -> bool) (l : list A) :
  (forall x, In x l -> f x = false) -> existsb f l = false.
Proof.
  induction l as [| x l IH]; intros H; simpl; [reflexivity |].
  rewrite (H x) by now left. apply IH. intros y Hy. apply H. now right.
Qed.

(** C8.  A failed job lookup only prints its message.  [fg] and [bg] on a
    job number that no job of the table carries (or without a number when
    the table is empty) return status 1, whatever the fuel, and the state
    they leave is the old one with the line [No such job] added to the
    output: the table is as before and no signal was sent.  [bg] on a job
    of the table none of whose unfinished stages is stopped returns 1 and
    leaves the old state with the line [Job already running] added: no
    [kill], no change to the table. *)
Theorem job_lookup_failures_only_print (os : OS) (fuel : nat) (jobnum : Z) (s : shell) :
  (jobnum <> 0 ->
   (forall job, In job (bg_jobs s) -> job_num job <> jobnum) ->
   jobs_cmd_fg os fuel jobnum s = (Some 1, emit (EvStdout "No such job") s) /\
   jobs_cmd_bg jobnum s = (1, emit (EvStdout "No such job") s)) /\
  (bg_jobs s = [] ->
   jobs_cmd_fg os fuel 0 s = (Some 1, emit (EvStdout "No such job") s) /\
   jobs_cmd_bg 0 s = (1, emit (EvStdout "No such job") s)) /\
  (0 <= select_job_index jobnum s ->
   (forall i, In i (stage_indices (job_at s (select_job_index jobnum s))) ->
              rdB (finished (job_at s (select_job_index jobnum s))) i = false ->
              rdB (stopped (job_at s (select_job_index jobnum s))) i = false) ->
   jobs_cmd_bg jobnum s = (1, emit (EvStdout "Job already running") s)).
Proof.
  split; [| split].
  - intros Hnz Habs. unfold jobs_cmd_fg, jobs_cmd_bg.
    rewrite (select_unknown_job jobnum s Hnz Habs). simpl. now split.
  - intros E. unfold jobs_cmd_fg, jobs_cmd_bg.
    rewrite (select_empty_table s E). simpl. now split.
  - intros Hidx Hrun. unfold jobs_cmd_bg.
    destruct (Z.ltb_spec (select_job_index jobnum s) 0); [lia |].
    rewrite existsb_false_on; [reflexivity |].
    intros i Hi. specialize (Hrun i Hi).
    destruct (rdB (finished _) i); simpl; [reflexivity | now apply Hrun].
Qed.

(** The lines a call added to the output, the signals it sent and the
    table it left, for a state reached by printing one line. *)
Lemma emit_stdout_effects line s :
  bg_jobs (emit (EvStdout line) s) = bg_jobs s /\
  next_job_number (emit (EvStdout line) s) = next_job_number s /\
  trace (emit (EvStdout line) s) = trace s ++ [EvStdout line] /\
  filter (fun e => is_kill e) (trace (emit (EvStdout line) s)) =
  filter (fun e => is_kill e) (trace s).
Proof.
  repeat split. simpl. rewrite filter_app. simpl. apply app_nil_r.
Qed.

Lemma job_lookup_failures_only_print_witness :
  (jobs_cmd_fg os_quiet 0 7 two_jobs_shell
   = (Some 1, emit (EvStdout "No such job") two_jobs_shell) /\
   jobs_cmd_bg 7 two_jobs_shell = (1, emit (EvStdout "No such job") two_jobs_shell)) /\
  (jobs_cmd_fg os_quiet 0 0 shell_init = (Some 1, emit (EvStdout "No such job") shell_init) /\
   jobs_cmd_bg 0 shell_init = (1, emit (EvStdout "No such job") shell_init)) /\
  jobs_cmd_bg 3 two_jobs_shell = (1, emit (EvStdout "Job already running") two_jobs_shell).
Proof.
  split; [| split].
  - apply (proj1 (job_lookup_failures_only_print os_quiet 0 7 two_jobs_shell)).
    + lia.
    + intros job [<- | [<- | []]]; vm_compute; discriminate.
  - apply (proj1 (proj2 (job_lookup_failures_only_print os_quiet 0 0 shell_init))).
    reflexivity.
  - apply (proj2 (proj2 (job_lookup_failures_only_print os_quiet 0 3 two_jobs_shell))).
    + vm_compute. discriminate.
    + intros i Hi _. vm_compute in Hi. destruct Hi as [<- | []]. reflexivity.
Defined.

(** ** [fg] and [bg] with an argument that reads as zero *)

Lemma most_recent_is_last s js job :
  bg_jobs s = js ++ [job] ->
  most_recent_job_index s = Z.of_nat (length js) /\
  job_at s (most_recent_job_index s) = job.
Proof.
  intros E. unfold most_recent_job_index, bg_job_count, job_at. rewrite E.
  rewrite length_app. simpl length.
  destruct (Z.eqb_spec (Z.of_nat (length js + 1)) 0); [lia |].
  replace (Z.of_nat (length js + 1) - 1) with (Z.of_nat (length js)) by lia.
  split; [reflexivity |].
  rewrite Nat2Z.id. rewrite lookup_app_r by lia.
  now rewrite Nat.sub_diag.
Qed.

(** On whole command lines: [fg abc] and [fg 0] do what [fg] does, and
    so for [bg]. *)
Lemma fg_abc_line os fuel s :
  execute_first_cmd_group os fuel "fg abc" s = execute_first_cmd_group os fuel "fg" s /\
  execute_first_cmd_group os fuel "fg 0" s = execute_first_cmd_group os fuel "fg" s /\
  execute_first_cmd_group os fuel "bg abc" s = execute_first_cmd_group os fuel "bg" s /\
  execute_first_cmd_group os fuel "bg 0" s = execute_first_cmd_group os fuel "bg" s.
Proof. repeat split. Qed.

(** ** What the calls leave alone *)

Lemma memory_emit e s : memory (emit e s) = memory s.
Proof. reflexivity. Qed.

Lemma memory_waitpid os pid options s : memory (snd (waitpid os pid options s)) = memory s.
Proof. reflexivity. Qed.

Lemma poll_stages_memory os k : forall j job all_done s,
  memory (snd (poll_stages os k j job all_done s)) = memory s.
Proof.
  induction k as [| k IH]; intros j job all_done s; simpl; [reflexivity |].
  destruct (rdB (finished job) j); [apply IH |].
  destruct (os_waitpid os (nwait s) (rdZ (pids job) j) poll_options) as [| | st];
    try (rewrite IH; reflexivity).
  destruct (WIFSTOPPED st); [rewrite IH; reflexivity |].
  destruct (WIFCONTINUED st); rewrite IH; reflexivity.
Qed.

Lemma poll_jobs_memory os jobs : forall s,
  memory (snd (poll_jobs os jobs s)) = memory s.
Proof.
  induction jobs as [| job rest IH]; intros s; simpl; [reflexivity |].
  pose proof (poll_stages_memory os (Z.to_nat (npids job)) 0 job true s) as Hm.
  destruct (poll_stages os (Z.to_nat (npids job)) 0 job true s) as [[job' all_done] s1].
  simpl in Hm. destruct all_done.
  - rewrite IH. rewrite memory_emit. exact Hm.
  - specialize (IH s1). destruct (poll_jobs os rest s1) as [rest' s2].
    simpl in *. congruence.
Qed.

Lemma jobs_poll_next_job_number os s :
  next_job_number (jobs_poll os s) = next_job_number s.
Proof.
  unfold jobs_poll. pose proof (poll_jobs_memory os (bg_jobs s) s) as Hm.
  destruct (poll_jobs os (bg_jobs s) s) as [js s']. simpl in *.
  unfold memory in Hm. congruence.
Qed.

Lemma fg_stages_memory os k : forall i job all_done stopped_ sc s,
  memory (snd (fg_stages os k i job all_done stopped_ sc s)) = memory s.
Proof.
  induction k as [| k IH]; intros i job all_done stopped_ sc s; simpl; [reflexivity |].
  destruct (rdB (finished job) i); [apply IH |].
  destruct (os_waitpid os (nwait s) (rdZ (pids job) i) fg_options) as [| | st];
    try (rewrite IH; reflexivity).
  destruct (WIFSTOPPED st); [rewrite IH; reflexivity |].
  destruct (WIFCONTINUED st); rewrite IH; reflexivity.
Qed.

Lemma fg_loop_next_job_number os fuel : forall idx sc s,
  next_job_number (snd (fg_loop os fuel idx sc s)) = next_job_number s.
Proof.
  induction fuel as [| fuel IH]; intros idx sc s; simpl; [reflexivity |].
  pose proof (fg_stages_memory os (Z.to_nat (npids (job_at s (Z.of_nat idx)))) 0
                (job_at s (Z.of_nat idx)) true false sc s) as Hm.
  destruct (fg_stages os _ 0 _ true false sc s) as [[[[job' all_done] stopped_] sc'] s1].
  simpl in Hm. unfold memory in Hm.
  destruct stopped_; [simpl; congruence |].
  destruct all_done; [simpl; congruence |].
  rewrite IH. simpl. congruence.
Qed.

Lemma jobs_cmd_fg_next_job_number os fuel jobnum s :
  next_job_number (snd (jobs_cmd_fg os fuel jobnum s)) = next_job_number s.
Proof.
  unfold jobs_cmd_fg.
  destruct (select_job_index jobnum s <? 0); [reflexivity |].
  destruct (rdZ _ 0 <=? 0); [reflexivity |].
  rewrite fg_loop_next_job_number.
  destruct (existsb _ _); reflexivity.
Qed.

Lemma jobs_cmd_bg_next_job_number jobnum s :
  next_job_number (snd (jobs_cmd_bg jobnum s)) = next_job_number s.
Proof.
  unfold jobs_cmd_bg.
  destruct (select_job_index jobnum s <? 0); [reflexivity |].
  destruct (negb _); [reflexivity |].
  simpl. destruct (rdZ _ 0 >? 0); reflexivity.
Qed.

(** ** Job numbers *)

(** A call either issues no number and keeps the counter, or issues the
    value of the counter and increments it. *)
Lemma job_op_step_number os op s :
  1 <= next_job_number s ->
  let '(issued, s', _) := job_op_step os op s in
  (issued = None /\ next_job_number s' = next_job_number s) \/
  (issued = Some (next_job_number s) /\
   next_job_number s' = wrap_int (next_job_number s + 1)).
Proof.
  intros Hpos.
  destruct op as [pgid ps cnt name | | | ps cnt names | | fuel jobnum | jobnum]; simpl.
  - left. now split.
  - left. now split.
  - unfold jobs_move_foreground_to_background_stopped.
    destruct ((fg_pgid s =? -1) || (fg_count s =? 0)); [left; now split |].
    destruct (bg_job_count s >=? MAX_BG_JOBS); [left; now split |].
    simpl. destruct (Z.eqb_spec (next_job_number s) (-1)); [lia | right; now split].
  - unfold jobs_add_background.
    destruct (cnt <=? 0); [left; now split |].
    destruct (bg_job_count s >=? MAX_BG_JOBS); [left; now split |].
    simpl. destruct (Z.eqb_spec (next_job_number s) (-1)); [lia | right; now split].
  - left. split; [reflexivity | apply jobs_poll_next_job_number].
  - pose proof (jobs_cmd_fg_next_job_number os fuel jobnum s) as H.
    destruct (jobs_cmd_fg os fuel jobnum s) as [r s']. left. now split.
  - left. split; [reflexivity | apply jobs_cmd_bg_next_job_number].
Qed.

Lemma wrap_int_small z : - INT_MAX - 1 <= z <= INT_MAX -> wrap_int z = z.
Proof.
  unfold wrap_int, INT_MAX. intros H.
  rewrite Z.mod_small by lia. lia.
Qed.

(** From a state whose counter is [c], a sequence of calls short enough
    not to exhaust the range of [int] issues [c], [c+1], ... in this
    order. *)
Lemma run_job_ops_issued os ops : forall s,
  1 <= next_job_number s ->
  next_job_number s + Z.of_nat (length ops) <= INT_MAX ->
  let '(issued, s') := run_job_ops os ops s in
  issued = map (fun k => next_job_number s + Z.of_nat k) (seq 0 (length issued)) /\
  next_job_number s' = next_job_number s + Z.of_nat (length issued) /\
  (length issued <= length ops)%nat.
Proof.
  induction ops as [| op rest IH]; intros s Hpos Hfit; simpl.
  - repeat split; simpl; lia.
  - pose proof (job_op_step_number os op s Hpos) as Hstep.
    destruct (job_op_step os op s) as [[issued s1] returned].
    simpl length in Hfit.
    destruct Hstep as [[-> Hn] | [-> Hn]].
    + destruct returned.
      * specialize (IH s1). rewrite Hn in IH.
        specialize (IH Hpos ltac:(lia)).
        destruct (run_job_ops os rest s1) as [more s2].
        destruct IH as (Hm & Hc & Hl). repeat split; [exact Hm | exact Hc | lia].
      * repeat split; simpl; lia.
    + rewrite wrap_int_small in Hn by (unfold INT_MAX in *; lia).
      destruct returned.
      * specialize (IH s1). rewrite Hn in IH.
        specialize (IH ltac:(lia) ltac:(lia)).
        destruct (run_job_ops os rest s1) as [more s2].
        destruct IH as (Hm & Hc & Hl). simpl length.
        split; [| split; [lia | lia]].
        simpl. f_equal; [lia |].
        rewrite <- seq_shift, map_map. rewrite Hm at 1.
        apply map_ext. intros k. lia.
      * simpl. repeat split; try lia. f_equal. lia.
Qed.

(** C4.  Job numbers come from a counter that starts at 1 and only grows.
    Whatever sequence of calls is made to the job table from the start of
    the shell (registrations by [jobs_add_background] or by the demotion of
    a stopped foreground pipeline, removals by [jobs_poll] or [fg], and
    every other call), as long as fewer than [INT_MAX] calls are made, the
    k-th job number issued is k: the numbers issued are 1, 2, 3, ... in
    this order, each greater than all issued before, so a number freed by
    a removal is never issued again. *)
Theorem job_numbers_are_never_reused (os : OS) (ops : list job_op) :
  Z.of_nat (length ops) < INT_MAX ->
  fst (run_job_ops os ops shell_init)
  = map Z.of_nat (seq 1 (length (fst (run_job_ops os ops shell_init)))) /\
  (forall i j a b,
      (i < j)%nat ->
      fst (run_job_ops os ops shell_init) !! i = Some a ->
      fst (run_job_ops os ops shell_init) !! j = Some b ->
      1 <= a < b).
Proof.
  intros Hlen.
  pose proof (run_job_ops_issued os ops shell_init) as H. simpl in H.
  specialize (H ltac:(lia) ltac:(lia)).
  destruct (run_job_ops os ops shell_init) as [issued s']. simpl.
  destruct H as (Hm & _ & _).
  assert (Hclosed : issued = map Z.of_nat (seq 1 (length issued))).
  { rewrite Hm at 1. rewrite <- seq_shift, map_map. apply map_ext. intros k. lia. }
  split; [exact Hclosed |].
  intros i j a b Hij Ha Hb.
  rewrite Hclosed in Ha, Hb.
  rewrite list_lookup_fmap in Ha, Hb.
  destruct (seq 1 (length issued) !! i) as [x |] eqn:Ex; [| discriminate].
  destruct (seq 1 (length issued) !! j) as [y |] eqn:Ey; [| discriminate].
  apply lookup_seq in Ex, Ey. simpl in Ha, Hb.
  injection Ha as <-. injection Hb as <-. lia.
Qed.

(** Register three jobs, let the poll remove the second, register a
    fourth: it gets the number 4, not the freed 2, and the table then
    holds the jobs 1, 3 and 4. *)
Lemma job_numbers_are_never_reused_witness :
  Z.of_nat (length register_remove_register) < INT_MAX /\
  fst (run_job_ops os_102_exited register_remove_register shell_init) = [1; 2; 3; 4] /\
  map job_num (bg_jobs (snd (run_job_ops os_102_exited register_remove_register shell_init)))
  = [1; 3; 4].
Proof.
  split; [reflexivity | split].
  - rewrite (proj1 (job_numbers_are_never_reused os_102_exited register_remove_register
                      eq_refl)).
    reflexivity.
  - reflexivity.
Defined.

(** ** Traces *)

Lemma extends_by_refl P s : extends_by P s s.
Proof. exists []. split; [now rewrite app_nil_r | constructor]. Qed.

Lemma extends_by_trans P s1 s2 s3 :
  extends_by P s1 s2 -> extends_by P s2 s3 -> extends_by P s1 s3.
Proof.
  intros (t1 & E1 & F1) (t2 & E2 & F2). exists (t1 ++ t2). split.
  - rewrite E2, E1. now rewrite app_assoc.
  - apply Forall_app. now split.
Qed.

Lemma extends_by_emit (P : event -> Prop) e s : P e -> extends_by P s (emit e s).
Proof. intros H. exists [e]. split; [reflexivity | now constructor]. Qed.

Lemma extends_by_same_trace P s s' : trace s' = trace s -> extends_by P s s'.
Proof. intros E. exists []. split; [now rewrite app_nil_r | constructor]. Qed.

Lemma extends_by_weaken (P Q : event -> Prop) s s' :
  (forall e, P e -> Q e) -> extends_by P s s' -> extends_by Q s s'.
Proof.
  intros H (tr & E & F). exists tr. split; [exact E |].
  eapply Forall_impl; [exact F | exact H].
Qed.

Create HintDb trace.
#[local] Hint Resolve extends_by_refl extends_by_emit extends_by_same_trace : trace.

(** ** The wait loops *)

(** The fork loop: pipes and forks, nothing else. *)
Lemma launch_extends os k : forall i n ps pgid s,
  extends_by (fun e => is_launch_event e = true) s (snd (launch os k i n ps pgid s)).
Proof.
  induction k as [| k IH]; intros i n ps pgid s; simpl; [auto with trace |].
  destruct ((S i <? n)%nat && negb (os_pipe os (nfork s))).
  - simpl. now apply extends_by_emit.
  - set (s1 := if (S i <? n)%nat then emit (EvPipe i true) s else s).
    assert (H1 : extends_by (fun e => is_launch_event e = true) s s1).
    { subst s1. destruct (S i <? n)%nat; [now apply extends_by_emit | auto with trace]. }
    unfold fork. destruct (os_fork os (nfork s1)) as [p |]; simpl.
    + eapply extends_by_trans; [exact H1 |].
      eapply extends_by_trans; [| apply IH].
      exists [EvFork i (Z.pos p)]. split; [reflexivity | repeat constructor].
    + eapply extends_by_trans; [exact H1 |].
      exists [EvFork i (-1)]. split; [reflexivity | repeat constructor].
Qed.

(** The wait of [run_pipeline]: every call is the blocking
    [waitpid(pid, &st, WUNTRACED)]. *)
Lemma wait_stages_extends os k : forall i cnt ps stopped_ sc s,
  extends_by (fun e => is_blocking_wait e = true) s
             (snd (wait_stages os k i cnt ps stopped_ sc s)).
Proof.
  induction k as [| k IH]; intros i cnt ps stopped_ sc s; simpl; [auto with trace |].
  destruct (rdZ ps i >? 0); [| apply IH].
  assert (H1 : extends_by (fun e => is_blocking_wait e = true) s
                          (snd (waitpid os (rdZ ps i) WUNTRACED s))).
  { exists [EvWaitpid (rdZ ps i) WUNTRACED]. split; [reflexivity |].
    constructor; [reflexivity | constructor]. }
  unfold waitpid in *. simpl in H1.
  destruct (os_waitpid os (nwait s) (rdZ ps i) WUNTRACED) as [| | st];
    try (eapply extends_by_trans; [exact H1 | apply IH]).
  destruct (WIFSTOPPED st); [eapply extends_by_trans; [exact H1 | apply IH] |].
  destruct (Z.of_nat i =? cnt - 1); eapply extends_by_trans; try exact H1; apply IH.
Qed.

Lemma move_foreground_trace s :
  trace (snd (jobs_move_foreground_to_background_stopped s)) = trace s.
Proof.
  unfold jobs_move_foreground_to_background_stopped.
  destruct ((fg_pgid s =? -1) || (fg_count s =? 0)); [reflexivity |].
  destruct (bg_job_count s >=? MAX_BG_JOBS); reflexivity.
Qed.

(** Everything [run_pipeline] asks of the system: the only waits are
    blocking ones and it never sleeps. *)
Lemma run_pipeline_wait_extends os pl ps pgid forked s1 :
  extends_by (fun e => is_foreground_event e = true) s1
             (snd (run_pipeline_wait os pl ps pgid forked s1)).
Proof.
  unfold run_pipeline_wait.
  set (n := length (cmds pl)).
  remember (emit (EvTcsetpgrp pgid)
              (set_last_fg_name (strncpy_buf 128 (first_name pl))
                 (jobs_set_foreground pgid ps (count pl) (Some (first_name pl)) s1)))
    as s4 eqn:E4.
  assert (H4 : extends_by (fun e => is_foreground_event e = true) s1 s4).
  { subst s4. exists [EvTcsetpgrp pgid]. split; [reflexivity | repeat constructor]. }
  pose proof (wait_stages_extends os n 0 (count pl) ps false
                (if (forked <? n)%nat then 1 else 0) s4) as HW.
  destruct (wait_stages os n 0 (count pl) ps false _ s4) as [[stopped_ sc] s5].
  simpl in HW.
  assert (H5 : extends_by (fun e => is_foreground_event e = true) s1 s5).
  { eapply extends_by_trans; [exact H4 |].
    eapply extends_by_weaken; [| exact HW].
    intros [] H; simpl in *; try discriminate; exact H. }
  destruct stopped_.
  - pose proof (move_foreground_trace (set_recent_stop 1 s5)) as HM.
    destruct (jobs_move_foreground_to_background_stopped (set_recent_stop 1 s5))
      as [jobnum s7]. simpl in HM.
    eapply extends_by_trans; [exact H5 |].
    destruct (jobnum =? -1).
    + exists [EvTcsetpgrp (os_getpgrp os)]. simpl. rewrite HM.
      split; [reflexivity | repeat constructor].
    + exists [EvStdout (stopped_line jobnum (name_or_qm (last_fg_name s7)));
              EvTcsetpgrp (os_getpgrp os)].
      simpl. rewrite HM. split; [now rewrite <- app_assoc | repeat constructor].
  - eapply extends_by_trans; [exact H5 |]. simpl.
    exists [EvTcsetpgrp (os_getpgrp os)]. split; [reflexivity | repeat constructor].
Qed.

(** Everything [run_pipeline] asks of the system: the only waits are
    blocking ones and it never sleeps. *)
Lemma run_pipeline_extends os pl s :
  extends_by (fun e => is_foreground_event e = true) s (snd (run_pipeline os pl s)).
Proof.
  unfold run_pipeline.
  destruct (count pl <=? 0); [auto with trace |].
  set (n := length (cmds pl)).
  pose proof (launch_extends os n 0 n (replicate n (-1)) (-1) s) as HL.
  destruct (launch os n 0 n (replicate n (-1)) (-1) s) as [[[ps pgid] forked] s1].
  simpl in HL.
  eapply extends_by_trans; [| apply run_pipeline_wait_extends].
  eapply extends_by_weaken; [| exact HL].
  intros [] H; simpl in *; try discriminate; reflexivity.
Qed.

(** One pass of [fg]: non-blocking checks only. *)
Lemma fg_stages_extends os k : forall i job all_done stopped_ sc s,
  extends_by (fun e => is_poll e = true) s
             (snd (fg_stages os k i job all_done stopped_ sc s)).
Proof.
  induction k as [| k IH]; intros i job all_done stopped_ sc s; simpl; [auto with trace |].
  destruct (rdB (finished job) i); [apply IH |].
  assert (H1 : extends_by (fun e => is_poll e = true) s
                          (snd (waitpid os (rdZ (pids job) i) fg_options s))).
  { exists [EvWaitpid (rdZ (pids job) i) fg_options]. split; [reflexivity |].
    constructor; [reflexivity | constructor]. }
  unfold waitpid in *. simpl in H1.
  destruct (os_waitpid os (nwait s) (rdZ (pids job) i) fg_options) as [| | st];
    try (eapply extends_by_trans; [exact H1 | apply IH]).
  destruct (WIFSTOPPED st); [eapply extends_by_trans; [exact H1 | apply IH] |].
  destruct (WIFCONTINUED st); eapply extends_by_trans; try exact H1; apply IH.
Qed.

(** The loop of [fg]: passes of non-blocking checks, a sleep of 30 ms
    between two passes, then the hand-back of the terminal. *)
Lemma fg_loop_trace os fuel : forall idx sc s,
  exists passes post,
    trace (snd (fg_loop os fuel idx sc s)) = trace s ++ passes ++ post /\
    polling_passes passes /\
    Forall (fun e => is_other_event e = true) post.
Proof.
  induction fuel as [| fuel IH]; intros idx sc s; simpl.
  - exists [], []. split; [now rewrite app_nil_r |]. split; constructor. constructor.
  - pose proof (fg_stages_extends os (Z.to_nat (npids (job_at s (Z.of_nat idx)))) 0
                  (job_at s (Z.of_nat idx)) true false sc s) as (ws & Ews & Fws).
    destruct (fg_stages os _ 0 _ true false sc s) as [[[[job' all_done] stopped_] sc'] s1].
    simpl in Ews.
    destruct stopped_; [| destruct all_done].
    + exists ws, [EvTcsetpgrp (os_getpgrp os);
                  EvStdout ("[" +:+ fmt_d (job_num job') +:+ "] Stopped " +:+ cmd_name job')].
      simpl. rewrite Ews. split; [now rewrite <- !app_assoc |].
      split; [now constructor | repeat constructor].
    + exists ws, [EvTcsetpgrp (os_getpgrp os)].
      simpl. rewrite Ews. split; [now rewrite <- !app_assoc |].
      split; [now constructor | repeat constructor].
    + destruct (IH idx sc' (emit (EvNanosleep nap_nsec)
                              (set_bg_jobs (<[idx:=job']> (bg_jobs s1)) s1)))
        as (passes & post & E & Hp & Fp).
      exists (ws ++ EvNanosleep nap_nsec :: passes), post.
      rewrite E. simpl. rewrite Ews. split.
      * rewrite <- !app_assoc. reflexivity.
      * split; [now constructor | exact Fp].
Qed.

Lemma jobs_cmd_fg_trace os fuel jobnum s :
  exists pre passes post,
    trace (snd (jobs_cmd_fg os fuel jobnum s)) = trace s ++ pre ++ passes ++ post /\
    Forall (fun e => is_other_event e = true) pre /\
    polling_passes passes /\
    Forall (fun e => is_other_event e = true) post.
Proof.
  unfold jobs_cmd_fg.
  destruct (select_job_index jobnum s <? 0).
  { exists [EvStdout "No such job"], [], []. simpl.
    split; [reflexivity |]. repeat constructor. }
  destruct (rdZ _ 0 <=? 0).
  { exists [EvStdout "No such job"], [], []. simpl.
    split; [reflexivity |]. repeat constructor. }
  set (job := job_at s (select_job_index jobnum s)).
  set (pgid := rdZ (pids job) 0).
  destruct (existsb _ _).
  - destruct (fg_loop_trace os fuel (Z.to_nat (select_job_index jobnum s)) 0
                (emit (EvKill (- pgid) SIGCONT)
                   (emit (EvTcsetpgrp pgid) (emit (EvStdout (cmd_name job)) s))))
      as (passes & post & E & Hp & Fp).
    exists [EvStdout (cmd_name job); EvTcsetpgrp pgid; EvKill (- pgid) SIGCONT], passes, post.
    rewrite E. simpl. split; [now rewrite <- !app_assoc |].
    split; [repeat constructor | now split].
  - destruct (fg_loop_trace os fuel (Z.to_nat (select_job_index jobnum s)) 0
                (emit (EvTcsetpgrp pgid) (emit (EvStdout (cmd_name job)) s)))
      as (passes & post & E & Hp & Fp).
    exists [EvStdout (cmd_name job); EvTcsetpgrp pgid], passes, post.
    rewrite E. simpl. split; [now rewrite <- !app_assoc |].
    split; [repeat constructor | now split].
Qed.


(** ** The foreground run *)

Lemma stdout_lines_app t1 t2 : stdout_lines (t1 ++ t2) = stdout_lines t1 ++ stdout_lines t2.
Proof. unfold stdout_lines. apply omap_app. Qed.

Lemma stdout_lines_quiet tr :
  Forall (fun e => match e with EvStdout _ => False | _ => True end) tr ->
  stdout_lines tr = [].
Proof.
  induction 1 as [| e tr He _ IH]; [reflexivity |].
  destruct e; simpl in *; try exact IH. contradiction.
Qed.

Lemma extends_by_stdout (P : event -> Prop) s s' :
  (forall e, P e -> match e with EvStdout _ => False | _ => True end) ->
  extends_by P s s' -> stdout_lines (trace s') = stdout_lines (trace s).
Proof.
  intros HP (tr & E & F). rewrite E, stdout_lines_app.
  rewrite (stdout_lines_quiet tr); [apply app_nil_r |].
  eapply Forall_impl; [exact F | exact HP].
Qed.

Lemma terminal_owner_snoc tr g : terminal_owner (tr ++ [EvTcsetpgrp g]) = Some g.
Proof.
  unfold terminal_owner. rewrite omap_app. simpl. apply last_snoc.
Qed.

(** When the system lets every stage start, the fork loop forks them all:
    the pid array is filled from slot [i] on, the process group is the pid
    of the first stage forked, and only the trace and the fork counter of
    the shell change. *)
Lemma launch_all os n f0 :
  (forall j, (j < n)%nat ->
     ((S j < n)%nat -> os_pipe os (f0 + j) = true) /\ os_fork os (f0 + j) <> None) ->
  forall k i ps pgid s,
    (i + k = n)%nat -> nfork s = (f0 + i)%nat -> length ps = n ->
    exists ps' s',
      launch os k i n ps pgid s
      = (ps',
         if (0 <? k)%nat && (pgid =? -1)
         then match os_fork os (f0 + i) with Some p => Z.pos p | None => -1 end
         else pgid,
         n, s') /\
      length ps' = n /\
      (forall j, (j < i)%nat -> ps' !! j = ps !! j) /\
      (forall j, (i <= j < n)%nat ->
         ps' !! j = Some (match os_fork os (f0 + j) with Some p => Z.pos p | None => -1 end)) /\
      memory s' = memory s /\ nwait s' = nwait s /\ nfork s' = (f0 + n)%nat.
Proof.
  intros Hall. induction k as [| k IH]; intros i ps pgid s Hik Hf Hlen.
  - exists ps, s. simpl. replace i with n by lia.
    split; [reflexivity |]. split; [exact Hlen |]. split; [reflexivity |].
    split; [intros j Hj; lia |]. split; [reflexivity |]. split; [reflexivity | lia].
  - destruct (Hall i ltac:(lia)) as [Hpipe Hfork].
    destruct (os_fork os (f0 + i)) as [p |] eqn:Ep; [| contradiction].
    assert (Hpre : exists s1, memory s1 = memory s /\ nwait s1 = nwait s /\
                              nfork s1 = S (f0 + i) /\
              launch os (S k) i n ps pgid s
              = launch os k (S i) n (<[i := Z.pos p]> ps)
                       (if pgid =? -1 then Z.pos p else pgid) s1).
    { simpl. rewrite Hf.
      destruct (Nat.ltb_spec (S i) n) as [Hlt | Hge]; simpl.
      - rewrite (Hpipe Hlt). simpl. unfold fork. simpl. rewrite Hf, Ep. simpl.
        eexists. split; [| split; [| split; [| reflexivity]]]; simpl;
          try rewrite Hf; reflexivity.
      - unfold fork. rewrite Hf, Ep. simpl.
        eexists. split; [| split; [| split; [| reflexivity]]]; simpl;
          try rewrite Hf; reflexivity. }
    destruct Hpre as (s1 & Hm1 & Hw1 & Hn1 & ->).
    destruct (IH (S i) (<[i := Z.pos p]> ps) (if pgid =? -1 then Z.pos p else pgid) s1)
      as (ps' & s' & EL & Hl' & Hlow & Hhigh & Hm & Hw & Hn);
      [lia | rewrite Hn1; lia | now rewrite length_insert |].
    rewrite EL. exists ps', s'. split.
    { f_equal. f_equal. f_equal. simpl.
      destruct (Z.eqb_spec pgid (-1)) as [-> | Hne]; simpl.
      - rewrite andb_false_r. reflexivity.
      - destruct (Z.eqb_spec pgid (-1)); [contradiction |].
        now rewrite andb_false_r. }
    split; [exact Hl' |]. split.
    { intros j Hj. rewrite Hlow by lia. apply list_lookup_insert_ne. lia. }
    split.
    { intros j Hj. destruct (Nat.eq_dec j i) as [-> | Hne].
      - rewrite Hlow by lia. rewrite Ep. apply list_lookup_insert_eq. lia.
      - apply Hhigh. lia. }
    split; [congruence |]. split; [congruence | exact Hn].
Qed.

Lemma wait_stages_frame os k : forall i cnt ps stopped_ sc s,
  memory (snd (wait_stages os k i cnt ps stopped_ sc s)) = memory s /\
  nfork (snd (wait_stages os k i cnt ps stopped_ sc s)) = nfork s.
Proof.
  induction k as [| k IH]; intros i cnt ps stopped_ sc s; simpl; [now split |].
  destruct (rdZ ps i >? 0); [| apply IH].
  destruct (os_waitpid os (nwait s) (rdZ ps i) WUNTRACED) as [| | st];
    try (edestruct IH as [-> ->]; now split).
  destruct (WIFSTOPPED st); [edestruct IH as [-> ->]; now split |].
  destruct (Z.of_nat i =? cnt - 1); edestruct IH as [-> ->]; now split.
Qed.

(** When every stage ends (exits or is killed), the blocking wait reports
    no stop and the status is that of the last stage. *)
Lemma wait_stages_terminated os n cnt ps w0 :
  cnt = Z.of_nat n ->
  (forall j, (j < n)%nat -> 0 < rdZ ps j) ->
  (forall j, (j < n)%nat ->
     is_termination (os_waitpid os (w0 + j) (rdZ ps j) WUNTRACED) = true) ->
  forall k i stopped_ sc s,
    (i + k = n)%nat -> nwait s = (w0 + i)%nat ->
    fst (wait_stages os k i cnt ps stopped_ sc s)
    = (stopped_,
       if (0 <? k)%nat
       then exit_status_of (os_waitpid os (w0 + (n - 1)) (rdZ ps (n - 1)) WUNTRACED)
       else sc).
Proof.
  intros -> Hpid Hterm. induction k as [| k IH]; intros i stopped_ sc s Hik Hw.
  - reflexivity.
  - simpl. specialize (Hpid i ltac:(lia)). specialize (Hterm i ltac:(lia)).
    destruct (Z.gtb_spec (rdZ ps i) 0) as [_ | Hle]; [| lia].
    rewrite Hw. destruct (os_waitpid os (w0 + i) (rdZ ps i) WUNTRACED) as [| | st] eqn:Ew;
      try discriminate.
    assert (Hns : WIFSTOPPED st = false) by (destruct st; simpl in *; congruence).
    rewrite Hns.
    destruct (Z.eqb_spec (Z.of_nat i) (Z.of_nat n - 1)) as [Elast | Hnot].
    + assert (k = 0)%nat as -> by lia. simpl.
      replace (n - 1)%nat with i by lia. rewrite Ew. reflexivity.
    + rewrite IH by (simpl; lia).
      destruct k; [lia | reflexivity].
Qed.

(** When some stage reports a stop, the blocking wait says so. *)
Lemma wait_stages_stopped os n cnt ps w0 :
  (forall j, (j < n)%nat -> 0 < rdZ ps j) ->
  forall k i stopped_ sc s,
    (i + k = n)%nat -> nwait s = (w0 + i)%nat ->
    (stopped_ = true \/
     exists j, (i <= j < n)%nat /\
               is_stop (os_waitpid os (w0 + j) (rdZ ps j) WUNTRACED) = true) ->
    fst (fst (wait_stages os k i cnt ps stopped_ sc s)) = true.
Proof.
  intros Hpid. induction k as [| k IH]; intros i stopped_ sc s Hik Hw Hstop.
  - simpl. destruct Hstop as [-> | (j & Hj & _)]; [reflexivity | lia].
  - simpl. specialize (Hpid i ltac:(lia)).
    destruct (Z.gtb_spec (rdZ ps i) 0) as [_ | Hle]; [| lia].
    rewrite Hw.
    assert (Hrest : forall b, b = true \/ stopped_ = b ->
       (b = true \/ exists j, (S i <= j < n)%nat /\
               is_stop (os_waitpid os (w0 + j) (rdZ ps j) WUNTRACED) = true) \/
       is_stop (os_waitpid os (w0 + i) (rdZ ps i) WUNTRACED) = true).
    { intros b Hb. destruct Hstop as [-> | (j & Hj & Hs)].
      - left. left. destruct Hb; congruence.
      - destruct (Nat.eq_dec j i) as [-> | Hne]; [now right |].
        left. right. exists j. split; [lia | exact Hs]. }
    destruct (os_waitpid os (w0 + i) (rdZ ps i) WUNTRACED) as [| | st] eqn:Ew.
    + apply IH; [lia | simpl; lia |].
      destruct (Hrest stopped_ (or_intror eq_refl)) as [H | H]; [exact H | discriminate].
    + apply IH; [lia | simpl; lia |].
      destruct (Hrest stopped_ (or_intror eq_refl)) as [H | H]; [exact H | discriminate].
    + destruct (WIFSTOPPED st) eqn:Es.
      * apply IH; [lia | simpl; lia | now left].
      * destruct (Hrest stopped_ (or_intror eq_refl)) as [H | H];
          [| simpl in H; congruence].
        destruct (Z.of_nat i =? cnt - 1); (apply IH; [lia | simpl; lia | exact H]).
Qed.

Lemma blocking_wait_not_stdout e :
  is_blocking_wait e = true -> match e with EvStdout _ => False | _ => True end.
Proof. destruct e; simpl; intros H; try exact I. discriminate H. Qed.

Lemma launch_event_not_stdout e :
  is_launch_event e = true -> match e with EvStdout _ => False | _ => True end.
Proof. destruct e; simpl; intros H; try exact I. discriminate H. Qed.

(** The second half of [run_pipeline] when every stage was forked. *)
Lemma run_pipeline_wait_outcome os pl ps pgid s1 :
  (0 < length (cmds pl))%nat -> count pl <= MAX_CMDS -> 1 <= next_job_number s1 ->
  length ps = length (cmds pl) ->
  (forall j, (j < length (cmds pl))%nat -> 0 < rdZ ps j) ->
  pgid <> -1 ->
  let answer j := os_waitpid os (nwait s1 + j) (rdZ ps j) WUNTRACED in
  let r := fst (run_pipeline_wait os pl ps pgid (length (cmds pl)) s1) in
  let s' := snd (run_pipeline_wait os pl ps pgid (length (cmds pl)) s1) in
  (fg_pgid s' = -1 /\ fg_count s' = 0 /\ fg_name s' = ""%string /\
   terminal_owner (trace s') = Some (os_getpgrp os)) /\
  ((forall j, (j < length (cmds pl))%nat -> is_termination (answer j) = true) ->
   r = exit_status_of (answer (length (cmds pl) - 1)%nat) /\
   bg_jobs s' = bg_jobs s1 /\ next_job_number s' = next_job_number s1 /\
   stdout_lines (trace s') = stdout_lines (trace s1)) /\
  ((exists j, (j < length (cmds pl))%nat /\ is_stop (answer j) = true) ->
   r = 148 /\
   if bg_job_count s1 <? MAX_BG_JOBS
   then bg_jobs s' = bg_jobs s1 ++
          [mkBgJob (next_job_number s1) (count pl) ps
                   (replicate (length (cmds pl)) false) (replicate (length (cmds pl)) true)
                   (display_name pl) (replicate (length (cmds pl)) (display_name pl)) 0] /\
        stdout_lines (trace s') = stdout_lines (trace s1) ++
          [stopped_line (next_job_number s1) (display_name pl)]
   else bg_jobs s' = bg_jobs s1 /\ stdout_lines (trace s') = stdout_lines (trace s1)).
Proof.
  intros Hn Hmax Hnext Hlen Hpid Hpgid answer r s'. subst r s'.
  unfold run_pipeline_wait. rewrite Nat.ltb_irrefl.
  set (n := length (cmds pl)) in *.
  assert (Hcnt : count pl = Z.of_nat n) by reflexivity.
  remember (emit (EvTcsetpgrp pgid)
              (set_last_fg_name (strncpy_buf 128 (first_name pl))
                 (jobs_set_foreground pgid ps (count pl) (Some (first_name pl)) s1)))
    as s4 eqn:E4.
  assert (Hw4 : nwait s4 = (nwait s1 + 0)%nat) by (subst s4; simpl; lia).
  pose proof (wait_stages_frame os n 0 (count pl) ps false 0 s4) as [Hmem Hnf].
  pose proof (wait_stages_extends os n 0 (count pl) ps false 0 s4) as Hext.
  pose proof (wait_stages_terminated os n (count pl) ps (nwait s1) Hcnt Hpid) as Hterm.
  pose proof (wait_stages_stopped os n (count pl) ps (nwait s1) Hpid n 0 false 0 s4
                eq_refl Hw4) as Hstop.
  destruct (wait_stages os n 0 (count pl) ps false 0 s4) as [[stopped_ sc] s5] eqn:Ewait.
  simpl in Hmem, Hnf, Hext, Hstop.
  assert (Hclamp : (if count pl >? MAX_CMDS then MAX_CMDS else count pl) = count pl).
  { destruct (Z.gtb_spec (count pl) MAX_CMDS); [lia | reflexivity]. }
  assert (Hfields :
    bg_jobs s5 = bg_jobs s1 /\ next_job_number s5 = next_job_number s1 /\
    fg_pgid s5 = pgid /\ fg_pids s5 = ps /\ fg_count s5 = count pl /\
    fg_name s5 = strncpy_buf 128 (first_name pl) /\
    last_fg_name s5 = strncpy_buf 128 (first_name pl)).
  { subst s4. unfold memory in Hmem. simpl in Hmem. rewrite Hclamp in Hmem.
    injection Hmem as E1 E2 E3 E4 E5 E6 E7 E8.
    rewrite E1, E2, E3, E4, E5, E6, E7.
    repeat split. rewrite Hcnt, Nat2Z.id. apply resize_all_alt. now symmetry. }
  destruct Hfields as (Fj & Fn & Fpg & Fps & Fc & Fnm & Flast).
  assert (Hout5 : stdout_lines (trace s5) = stdout_lines (trace s1)).
  { rewrite (extends_by_stdout _ s4 s5 blocking_wait_not_stdout Hext).
    subst s4. simpl. rewrite stdout_lines_app. simpl. apply app_nil_r. }
  split; [| split].
  - destruct stopped_.
    + destruct (jobs_move_foreground_to_background_stopped (set_recent_stop 1 s5))
        as [jobnum s7].
      simpl. repeat split. apply terminal_owner_snoc.
    + simpl. repeat split. apply terminal_owner_snoc.
  - intros Hall. specialize (Hterm Hall n 0%nat false 0 s4 eq_refl Hw4).
    rewrite Ewait in Hterm. simpl in Hterm.
    destruct (Nat.ltb_spec 0 n) as [_ | ?]; [| lia].
    injection Hterm as -> ->. simpl.
    repeat split; try assumption.
    rewrite stdout_lines_app. simpl. rewrite app_nil_r. exact Hout5.
  - intros Hsome. rewrite Hstop by (right; destruct Hsome as (j & Hj & Hs);
                                   exists j; split; [lia | exact Hs]).
    assert (Hcount6 : bg_job_count (set_recent_stop 1 s5) = bg_job_count s1).
    { unfold bg_job_count. simpl. now rewrite Fj. }
    destruct (Z.ltb_spec (bg_job_count s1) MAX_BG_JOBS) as [Hroom | Hfull].
    + rewrite (jobs_move_foreground_done (set_recent_stop 1 s5))
        by (simpl; rewrite ?Fpg, ?Fc, ?Hcount6; lia || assumption).
      simpl. rewrite Fn, Fc, Fj, Fps, Fnm, Flast.
      destruct (Z.eqb_spec (next_job_number s1) (-1)) as [? | _]; [lia |].
      split; [reflexivity |]. simpl. fold (display_name pl).
      rewrite Hcnt, Nat2Z.id. rewrite resize_all_alt by now symmetry.
      split; [reflexivity |].
      rewrite !stdout_lines_app. simpl. rewrite app_nil_r, Hout5. reflexivity.
    + rewrite (jobs_move_foreground_refused (set_recent_stop 1 s5))
        by (right; right; rewrite Hcount6; lia).
      simpl. split; [reflexivity |]. split; [exact Fj |].
      rewrite stdout_lines_app. simpl. rewrite app_nil_r. exact Hout5.
Qed.

(** C2, amended.  A synchronous pipeline of at most 16 stages all of which
    start.  In every case the foreground record is cleared and the shell
    takes the terminal back.  If every stage ends, the run returns the
    status of the last stage alone (its exit code if it exited, 1 if a
    signal killed it), prints nothing and leaves the job table alone.  If
    some stage reports a stop, the run returns 148; when the table holds
    fewer than 64 jobs the whole pipeline is appended to it as one job
    with the next job number and every stage marked stopped, and the line
    [[job_number] Stopped <display_name>] is printed once; when the table
    is full nothing is registered and nothing is printed. *)
Theorem foreground_run_outcome (os : OS) (pl : Pipeline) (s : shell) :
  (0 < length (cmds pl))%nat -> count pl <= MAX_CMDS -> 1 <= next_job_number s ->
  launches_all os (length (cmds pl)) s ->
  (fg_pgid (snd (run_pipeline os pl s)) = -1 /\
   fg_count (snd (run_pipeline os pl s)) = 0 /\
   fg_name (snd (run_pipeline os pl s)) = ""%string /\
   terminal_owner (trace (snd (run_pipeline os pl s))) = Some (os_getpgrp os)) /\
  ((forall j, (j < length (cmds pl))%nat -> is_termination (stage_answer os s j) = true) ->
   fst (run_pipeline os pl s) = exit_status_of (stage_answer os s (length (cmds pl) - 1)) /\
   bg_jobs (snd (run_pipeline os pl s)) = bg_jobs s /\
   next_job_number (snd (run_pipeline os pl s)) = next_job_number s /\
   stdout_lines (trace (snd (run_pipeline os pl s))) = stdout_lines (trace s)) /\
  ((exists j, (j < length (cmds pl))%nat /\ is_stop (stage_answer os s j) = true) ->
   fst (run_pipeline os pl s) = 148 /\
   if bg_job_count s <? MAX_BG_JOBS
   then bg_jobs (snd (run_pipeline os pl s)) = bg_jobs s ++ [demoted_job os pl s] /\
        stdout_lines (trace (snd (run_pipeline os pl s)))
        = stdout_lines (trace s) ++ [stopped_line (next_job_number s) (display_name pl)]
   else bg_jobs (snd (run_pipeline os pl s)) = bg_jobs s /\
        stdout_lines (trace (snd (run_pipeline os pl s))) = stdout_lines (trace s)).
Proof.
  intros Hn Hmax Hnext Hall.
  set (n := length (cmds pl)) in *.
  unfold run_pipeline. fold n.
  destruct (Z.leb_spec (count pl) 0) as [Hbad | _]; [unfold count in Hbad; lia |].
  destruct (launch_all os n (nfork s) Hall n 0%nat (replicate n (-1)) (-1) s)
    as (ps & s1 & EL & Hlen & _ & Hps & Hmem & Hw & _);
    [reflexivity | lia | apply length_replicate |].
  pose proof (launch_extends os n 0 n (replicate n (-1)) (-1) s) as Hext.
  rewrite EL in *. simpl in Hext.
  destruct (Nat.ltb_spec 0 n) as [_ | ?]; [| lia]. simpl.
  assert (Hpid : forall j, (j < n)%nat -> rdZ ps j = stage_pid os s j).
  { intros j Hj. unfold rdZ, stage_pid. now rewrite (Hps j) by lia. }
  assert (Hpos : forall j, (j < n)%nat -> 0 < rdZ ps j).
  { intros j Hj. rewrite (Hpid j Hj). unfold stage_pid.
    destruct (Hall j Hj) as [_ Hf].
    destruct (os_fork os (nfork s + j)); [lia | contradiction]. }
  assert (Hps_eq : ps = map (stage_pid os s) (seq 0 n)).
  { apply list_eq. intros j. rewrite list_lookup_fmap.
    destruct (Nat.lt_ge_cases j n) as [Hj | Hj].
    - rewrite (Hps j) by lia. rewrite lookup_seq_lt by exact Hj. reflexivity.
    - rewrite lookup_ge_None_2 by lia. rewrite lookup_seq_ge by exact Hj. reflexivity. }
  unfold memory in Hmem. injection Hmem as Mj Mn _ _ _ _ _ _.
  assert (Hout : stdout_lines (trace s1) = stdout_lines (trace s)).
  { exact (extends_by_stdout _ s s1 launch_event_not_stdout Hext). }
  assert (Hans : forall j, (j < n)%nat ->
            os_waitpid os (nwait s1 + j) (rdZ ps j) WUNTRACED = stage_answer os s j).
  { intros j Hj. unfold stage_answer. now rewrite Hw, (Hpid j Hj). }
  assert (Hpg : stage_pid os s 0 <> -1).
  { rewrite <- (Hpid 0%nat Hn). specialize (Hpos 0%nat Hn). lia. }
  replace (match os_fork os (nfork s + 0) with
           | Some p => Z.pos p
           | None => -1
           end) with (stage_pid os s 0) by reflexivity.
  destruct (run_pipeline_wait_outcome os pl ps (stage_pid os s 0) s1 Hn Hmax
              ltac:(lia) Hlen Hpos Hpg) as (Ha & Hb & Hc).
  fold n in Ha, Hb, Hc.
  split; [exact Ha |]. split.
  - intros Hterm. rewrite <- Mj, <- Mn, <- Hout.
    rewrite <- (Hans (n - 1)%nat) by lia.
    apply Hb. intros j Hj. rewrite (Hans j Hj). now apply Hterm.
  - intros (j & Hj & Hstop).
    unfold demoted_job. fold n. rewrite <- Hps_eq, <- Mn, <- Hout, <- Mj.
    replace (bg_job_count s) with (bg_job_count s1)
      by (unfold bg_job_count; now rewrite Mj).
    apply Hc. exists j. split; [exact Hj |]. now rewrite (Hans j Hj).
Qed.

Lemma crowded_shell_reachable :
  snd (run_job_ops os_quiet sixty_four_registrations shell_init) = crowded_shell.
Proof. vm_compute. reflexivity. Qed.

Lemma launches_all_when_forks_succeed os n s :
  (forall k, os_pipe os k = true) -> (forall k, os_fork os k <> None) ->
  launches_all os n s.
Proof. intros Hp Hf i _. split; [intros _; apply Hp | apply Hf]. Qed.

(** [false | true | false] returns the status 1 of its last stage; a
    stopped [sleep 1] entered while jobs 1 and 3 are in the table becomes
    job 4 and [[4] Stopped sleep] is printed once. *)
Lemma foreground_run_outcome_witness :
  fst (run_pipeline os_false_true_false false_true_false shell_init) = 1 /\
  fst (run_pipeline os_stop sleep_pipeline two_jobs_shell) = 148 /\
  map job_num (bg_jobs (snd (run_pipeline os_stop sleep_pipeline two_jobs_shell)))
  = [1; 3; 4] /\
  stdout_lines (trace (snd (run_pipeline os_stop sleep_pipeline two_jobs_shell)))
  = ["[4] Stopped sleep"%string].
Proof.
  assert (H1 : launches_all os_false_true_false 3 shell_init).
  { apply launches_all_when_forks_succeed; [reflexivity | discriminate]. }
  assert (H2 : launches_all os_stop 1 two_jobs_shell).
  { apply launches_all_when_forks_succeed; [reflexivity | discriminate]. }
  destruct (foreground_run_outcome os_false_true_false false_true_false shell_init
              ltac:(simpl; lia) ltac:(vm_compute; discriminate) ltac:(simpl; lia) H1)
    as (_ & Hterm & _).
  destruct (foreground_run_outcome os_stop sleep_pipeline two_jobs_shell
              ltac:(simpl; lia) ltac:(vm_compute; discriminate) ltac:(simpl; lia) H2)
    as (_ & _ & Hstop).
  split.
  - rewrite (proj1 (Hterm ltac:(intros j _; reflexivity))). reflexivity.
  - destruct (Hstop ltac:(exists 0%nat; split; [simpl; lia | reflexivity]))
      as (Hr & Hj & Ho).
    split; [exact Hr |]. split.
    + rewrite Hj. reflexivity.
    + rewrite Ho. reflexivity.
Defined.

(** C2, as the specification states it, fails in two places.  With 64 jobs
    in the table a stopped foreground pipeline is not registered and no
    line is printed; and the status 148 is not set apart from exit codes,
    since a pipeline whose last stage exits with status 148, no stage
    having stopped, returns 148 as well. *)
Lemma stop_with_full_table_registers_nothing :
  ~ (forall os pl s,
        (0 < length (cmds pl))%nat -> count pl <= MAX_CMDS -> 1 <= next_job_number s ->
        launches_all os (length (cmds pl)) s ->
        (exists j, (j < length (cmds pl))%nat /\ is_stop (stage_answer os s j) = true) ->
        bg_jobs (snd (run_pipeline os pl s)) = bg_jobs s ++ [demoted_job os pl s] /\
        stdout_lines (trace (snd (run_pipeline os pl s)))
        = stdout_lines (trace s) ++ [stopped_line (next_job_number s) (display_name pl)]) /\
  (bg_jobs (snd (run_pipeline os_stop sleep_pipeline crowded_shell)) = bg_jobs crowded_shell /\
   stdout_lines (trace (snd (run_pipeline os_stop sleep_pipeline crowded_shell))) = []) /\
  (stage_answer os_exit148 shell_init 0 = WaitPid (Exited 148) /\
   fst (run_pipeline os_exit148 sleep_pipeline shell_init) = 148).
Proof.
  split; [| split; [split; vm_compute; reflexivity | split; reflexivity]].
  intros H.
  destruct (H os_stop sleep_pipeline crowded_shell) as [Hj _].
  - simpl. lia.
  - vm_compute. discriminate.
  - simpl. lia.
  - apply launches_all_when_forks_succeed; [reflexivity | discriminate].
  - exists 0%nat. split; [simpl; lia | reflexivity].
  - apply (f_equal length) in Hj. vm_compute in Hj. discriminate Hj.
Qed.

(** ** Redirections *)

Lemma append_empty_r (t : string) : (t +:+ "")%string = t.
Proof.
  induction t as [| c t IH]; [reflexivity |].
  change (String c (t +:+ "") = String c t). now rewrite IH.
Qed.

Lemma substring_empty n m : String.substring n m "" = ""%string.
Proof. destruct n, m; reflexivity. Qed.

Lemma last_input_cons r rest :
  last_input (r :: rest)
  = match last_input rest with
    | Some path => Some path
    | None => match r_type r with R_IN => Some (r_path r) | _ => None end
    end.
Proof.
  unfold last_input. simpl. destruct (r_type r); rewrite ?last_cons; now destruct (last _).
Qed.

Lemma last_output_cons r rest :
  last_output (r :: rest)
  = match last_output rest with
    | Some o => Some o
    | None => match r_type r with
              | R_IN => None
              | R_OUT_TRUNC => Some (r_path r, false)
              | R_OUT_APPEND => Some (r_path r, true)
              end
    end.
Proof.
  unfold last_output. simpl. destruct (r_type r); rewrite ?last_cons; now destruct (last _).
Qed.

(** The loop applies the redirections left to right, each one replacing
    the binding made before it: what is bound in the end is what the last
    redirection of each direction names. *)
Lemma apply_redirs_last rs : forall io fs io' fs',
  apply_redirs rs io fs = RedirOk io' fs' ->
  io_stdin io' = match last_input rs with
                 | Some path => OpenRead path
                 | None => io_stdin io
                 end /\
  io_stdout io' = match last_output rs with
                  | Some (path, append) => OpenWrite path append
                  | None => io_stdout io
                  end.
Proof.
  induction rs as [| r rest IH]; intros io fs io' fs' H.
  - simpl in H. injection H as <- _. now split.
  - rewrite last_input_cons, last_output_cons. simpl in H.
    destruct (r_type r) eqn:Ety.
    + destruct (open_rdonly fs (r_path r)); [| discriminate].
      apply IH in H. simpl in H. destruct H as [-> ->].
      split; [now destruct (last_input rest) | now destruct (last_output rest)].
    + destruct (open_wronly fs (r_path r) false) as [fs1 |]; [| discriminate].
      apply IH in H. simpl in H. destruct H as [-> ->].
      split; [now destruct (last_input rest) | now destruct (last_output rest) as [[? ?] |]].
    + destruct (open_wronly fs (r_path r) true) as [fs1 |]; [| discriminate].
      apply IH in H. simpl in H. destruct H as [-> ->].
      split; [now destruct (last_input rest) | now destruct (last_output rest) as [[? ?] |]].
Qed.

(** In the child of [run_pipeline] the redirections are applied to the
    descriptors as the pipes left them. *)
Lemma fg_child_io exec_ok pl i fs io' fs' :
  apply_redirs (redirs (cmd_at pl i)) (pipe_wiring i (length (cmds pl))) fs
  = RedirOk io' fs' ->
  ch_io (fg_child exec_ok pl i fs) = io' /\ ch_fs (fg_child exec_ok pl i fs) = fs'.
Proof.
  intros H. unfold fg_child. rewrite H. unfold child_run.
  destruct (argv (cmd_at pl i)) as [| a0 args]; [now split |].
  destruct (is_builtin a0); [now split |].
  destruct (exec_ok a0); now split.
Qed.

Lemma open_wronly_trunc fs path :
  path ∉ denied fs ->
  open_wronly fs path false
  = Some (mkFs (<[path := ""%string]> (files fs)) (denied fs)).
Proof.
  intros H. unfold open_wronly. rewrite (bool_decide_eq_false_2 _ H).
  now destruct (files fs !! path).
Qed.

Lemma open_wronly_append fs path :
  path ∉ denied fs ->
  open_wronly fs path true
  = Some (mkFs (<[path := default ""%string (files fs !! path)]> (files fs)) (denied fs)).
Proof.
  intros H. unfold open_wronly. rewrite (bool_decide_eq_false_2 _ H).
  destruct (files fs !! path) as [c |] eqn:E; simpl; [| reflexivity].
  rewrite insert_id by exact E. now destruct fs.
Qed.

(** [echo hi > f.txt > g.txt]: the output of the program is in [g.txt],
    [f.txt] is left empty and no other file changes. *)
Lemma echo_two_outputs_files exec_ok fs data :
  exec_ok "echo"%string = true ->
  "f.txt"%string ∉ denied fs -> "g.txt"%string ∉ denied fs ->
  files (stage_writes (fg_child exec_ok echo_two_outputs 0 fs) data)
  = <["g.txt"%string := data]> (<["f.txt"%string := ""%string]> (files fs)).
Proof.
  intros Hecho Hf Hg. unfold stage_writes, fg_child. simpl.
  rewrite (open_wronly_trunc fs "f.txt" Hf).
  rewrite open_wronly_trunc by exact Hg.
  unfold child_run. simpl. rewrite Hecho. simpl.
  unfold write_stdout. simpl.
  rewrite lookup_insert_eq.
  change (default ""%string (Some ""%string)) with ""%string.
  rewrite substring_empty, append_empty_r.
  apply insert_insert_eq.
Qed.

(** [echo hi >> f.txt]: the output of the program is added at the end of
    [f.txt]. *)
Lemma echo_append_files exec_ok fs data :
  exec_ok "echo"%string = true ->
  "f.txt"%string ∉ denied fs ->
  files (stage_writes (fg_child exec_ok echo_append 0 fs) data)
  = <["f.txt"%string := (default ""%string (files fs !! "f.txt"%string) +:+ data)%string]>
      (files fs) /\
  denied (stage_writes (fg_child exec_ok echo_append 0 fs) data) = denied fs.
Proof.
  intros Hecho Hf. unfold stage_writes, fg_child. simpl.
  rewrite (open_wronly_append fs "f.txt" Hf).
  unfold child_run. simpl. rewrite Hecho. simpl.
  unfold write_stdout. simpl.
  rewrite lookup_insert_eq. simpl.
  split; [apply insert_insert_eq | reflexivity].
Qed.

Lemma child_run_io exec_ok c io fs : ch_io (child_run exec_ok c io fs) = io.
Proof.
  unfold child_run. destruct (argv c) as [| a0 args]; [reflexivity |].
  destruct (is_builtin a0); [reflexivity |]. now destruct (exec_ok a0).
Qed.

(** The redirections of a background stage: as in the foreground for the
    output; for the input the last input redirection, and without one the
    pipe or the terminal when the stage has other redirections. *)
Lemma bg_child_io exec_ok pl i fs :
  redirs (cmd_at pl i) <> [] ->
  forall io' fs',
    apply_redirs (redirs (cmd_at pl i)) (pipe_wiring i (length (cmds pl))) fs
    = RedirOk io' fs' ->
    ch_io (bg_child exec_ok pl i fs)
    = mkStdio (match last_input (redirs (cmd_at pl i)) with
               | Some path => OpenRead path
               | None => io_stdin (pipe_wiring i (length (cmds pl)))
               end)
              (match last_output (redirs (cmd_at pl i)) with
               | Some (path, append) => OpenWrite path append
               | None => io_stdout (pipe_wiring i (length (cmds pl)))
               end).
Proof.
  intros Hne io' fs' H. unfold bg_child.
  assert (E : (redir_count (cmd_at pl i) =? 0) = false).
  { apply Z.eqb_neq. unfold redir_count. destruct (redirs (cmd_at pl i)); [congruence |].
    simpl. lia. }
  rewrite E, H, child_run_io.
  destruct (apply_redirs_last _ _ _ _ _ H) as [Hin Hout].
  destruct io' as [i_in i_out]. simpl in *. now rewrite Hin, Hout.
Qed.

Lemma append_assoc_string (a b c : string) : ((a +:+ b) +:+ c = a +:+ (b +:+ c))%string.
Proof.
  induction a as [| x a IH]; [reflexivity |].
  change (String x ((a +:+ b) +:+ c) = String x (a +:+ (b +:+ c))). now rewrite IH.
Qed.

(** C6.  In the child of a stage, launched in the foreground or (with the
    same redirections) in the background, the redirections are applied
    after the pipes are wired, left to right, so the descriptors end up
    bound to the files named by the last input and the last output
    redirection, and to the pipe (or the terminal) where there is none.  For
    [echo hi > f.txt > g.txt] what the program writes is in [g.txt] alone:
    [f.txt] is created empty and no other file changes.  For
    [echo hi >> f.txt] run twice, [f.txt] holds what it held before
    followed by the output of both runs. *)
Theorem last_redirection_wins (exec_ok : string -> bool) :
  (forall pl i fs io' fs',
      apply_redirs (redirs (cmd_at pl i)) (pipe_wiring i (length (cmds pl))) fs
      = RedirOk io' fs' ->
      ch_io (fg_child exec_ok pl i fs)
      = mkStdio (match last_input (redirs (cmd_at pl i)) with
                 | Some path => OpenRead path
                 | None => io_stdin (pipe_wiring i (length (cmds pl)))
                 end)
                (match last_output (redirs (cmd_at pl i)) with
                 | Some (path, append) => OpenWrite path append
                 | None => io_stdout (pipe_wiring i (length (cmds pl)))
                 end) /\
      (redirs (cmd_at pl i) <> [] ->
       ch_io (bg_child exec_ok pl i fs) = ch_io (fg_child exec_ok pl i fs))) /\
  (parse_pipeline "echo hi > f.txt > g.txt" = Some echo_two_outputs /\
   forall fs data,
     exec_ok "echo"%string = true ->
     "f.txt"%string ∉ denied fs -> "g.txt"%string ∉ denied fs ->
     files (stage_writes (fg_child exec_ok echo_two_outputs 0 fs) data) !! "g.txt"%string
     = Some data /\
     files (stage_writes (fg_child exec_ok echo_two_outputs 0 fs) data) !! "f.txt"%string
     = Some ""%string /\
     forall path, path <> "f.txt"%string -> path <> "g.txt"%string ->
       files (stage_writes (fg_child exec_ok echo_two_outputs 0 fs) data) !! path
       = files fs !! path) /\
  (parse_pipeline "echo hi >> f.txt" = Some echo_append /\
   forall fs data,
     exec_ok "echo"%string = true -> "f.txt"%string ∉ denied fs ->
     files (stage_writes
              (fg_child exec_ok echo_append 0
                 (stage_writes (fg_child exec_ok echo_append 0 fs) data)) data)
       !! "f.txt"%string
     = Some (default ""%string (files fs !! "f.txt"%string) +:+ (data +:+ data))%string).
Proof.
  split; [| split].
  - intros pl i fs io' fs' H.
    assert (Hfg : ch_io (fg_child exec_ok pl i fs)
                  = mkStdio (match last_input (redirs (cmd_at pl i)) with
                             | Some path => OpenRead path
                             | None => io_stdin (pipe_wiring i (length (cmds pl)))
                             end)
                            (match last_output (redirs (cmd_at pl i)) with
                             | Some (path, append) => OpenWrite path append
                             | None => io_stdout (pipe_wiring i (length (cmds pl)))
                             end)).
    { destruct (fg_child_io exec_ok pl i fs io' fs' H) as [-> _].
      destruct (apply_redirs_last _ _ _ _ _ H) as [Hin Hout].
      destruct io' as [i_in i_out]. simpl in *. now rewrite Hin, Hout. }
    split; [exact Hfg |].
    intros Hne. rewrite Hfg. now apply (bg_child_io exec_ok pl i fs Hne io' fs').
  - split; [reflexivity |]. intros fs data Hecho Hf Hg.
    rewrite (echo_two_outputs_files exec_ok fs data Hecho Hf Hg).
    split; [apply lookup_insert_eq |]. split.
    + rewrite lookup_insert_ne by discriminate. apply lookup_insert_eq.
    + intros path Hpf Hpg.
      rewrite lookup_insert_ne by congruence. apply lookup_insert_ne. congruence.
  - split; [reflexivity |]. intros fs data Hecho Hf.
    destruct (echo_append_files exec_ok fs data Hecho Hf) as [Hfiles Hden].
    destruct (echo_append_files exec_ok
                (stage_writes (fg_child exec_ok echo_append 0 fs) data) data Hecho)
      as [Hfiles2 _]; [now rewrite Hden |].
    rewrite Hfiles2, lookup_insert_eq, Hfiles, lookup_insert_eq.
    change (default ""%string (Some ?x)) with x. now rewrite append_assoc_string.
Qed.

Lemma last_redirection_wins_witness :
  ch_io (fg_child (fun _ => true) echo_two_outputs 0 fs_empty)
  = mkStdio Terminal (OpenWrite "g.txt" false) /\
  files (stage_writes (fg_child (fun _ => true) echo_two_outputs 0 fs_empty) "hi")
    !! "g.txt"%string = Some "hi"%string /\
  files (stage_writes (fg_child (fun _ => true) echo_two_outputs 0 fs_empty) "hi")
    !! "f.txt"%string = Some ""%string /\
  files (stage_writes
           (fg_child (fun _ => true) echo_append 0
              (stage_writes (fg_child (fun _ => true) echo_append 0 fs_empty) "hi")) "hi")
    !! "f.txt"%string = Some "hihi"%string.
Proof.
  destruct (last_redirection_wins (fun _ => true)) as (Hio & (_ & Hout) & (_ & Happ)).
  split; [| split; [| split]].
  - refine (proj1 (Hio echo_two_outputs 0%nat fs_empty
                       (mkStdio Terminal (OpenWrite "g.txt" false))
                       (mkFs (<["g.txt"%string := ""%string]>
                                (<["f.txt"%string := ""%string]> (files fs_empty))) ∅) _)).
    reflexivity.
  - apply (Hout fs_empty "hi"%string eq_refl); apply not_elem_of_empty.
  - apply (Hout fs_empty "hi"%string eq_refl); apply not_elem_of_empty.
  - apply (Happ fs_empty "hi"%string eq_refl). apply not_elem_of_empty.
Defined.

(** ** Where a builtin runs (executor.c) *)

Lemma jobs_add_background_trace ps cnt names s :
  trace (snd (jobs_add_background ps cnt names s)) = trace s.
Proof.
  unfold jobs_add_background.
  destruct (cnt <=? 0); [reflexivity |].
  destruct (bg_job_count s >=? MAX_BG_JOBS); reflexivity.
Qed.

Lemma run_pipeline_async_extends os pl seg s :
  extends_by (fun e => is_background_event e = true) s
             (snd (run_pipeline_async os pl seg s)).
Proof.
  unfold run_pipeline_async.
  destruct (count pl <=? 0); [auto with trace |].
  set (n := length (cmds pl)).
  pose proof (launch_extends os n 0 n (map (os_stack_pid os) (seq 0 n)) (-1) s) as HL.
  destruct (launch os n 0 n (map (os_stack_pid os) (seq 0 n)) (-1) s)
    as [[[ps pgid] forked] s1].
  simpl in HL.
  pose proof (jobs_add_background_trace ps (count pl)
                (Some (async_names os pl seg forked)) s1) as HA.
  destruct (jobs_add_background ps (count pl) (Some (async_names os pl seg forked)) s1)
    as [[jobnum lastpid] s2].
  simpl in HA.
  eapply extends_by_trans.
  - eapply extends_by_weaken; [| exact HL].
    intros [] H; simpl in *; try discriminate; reflexivity.
  - destruct (jobnum =? -1); simpl.
    + now apply extends_by_same_trace.
    + eexists. simpl. rewrite HA. split; [reflexivity | repeat constructor].
Qed.

(** A command group of several stages, or one sent to the background, is
    handed to [run_pipeline] or [run_pipeline_async] as it is: the shell
    process runs no builtin body, every stage runs in a forked child. *)
Lemma piped_or_background_not_in_shell os fuel pl seg is_background last_status s :
  count pl <> 1 \/ is_background = true ->
  execute_group os fuel pl seg is_background last_status s
  = (if is_background
     then (Some last_status, snd (run_pipeline_async os pl seg s))
     else (Some (fst (run_pipeline os pl s)), snd (run_pipeline os pl s))) /\
  extends_by (fun e => match e with EvBuiltin _ => False | _ => True end) s
             (snd (execute_group os fuel pl seg is_background last_status s)).
Proof.
  intros H. unfold execute_group.
  assert (E : (count pl =? 1) && negb is_background = false).
  { destruct H as [H | ->]; [| apply andb_false_r].
    destruct (Z.eqb_spec (count pl) 1); [contradiction | reflexivity]. }
  rewrite E. destruct is_background.
  - pose proof (run_pipeline_async_extends os pl seg s) as Hx.
    destruct (run_pipeline_async os pl seg s) as [r s1]. simpl in *.
    split; [reflexivity |].
    eapply extends_by_weaken; [| exact Hx]. intros [] He; simpl in *; try exact I.
    discriminate He.
  - pose proof (run_pipeline_extends os pl s) as Hx.
    destruct (run_pipeline os pl s) as [r s1]. simpl in *.
    split; [reflexivity |].
    eapply extends_by_weaken; [| exact Hx]. intros [] He; simpl in *; try exact I.
    discriminate He.
Qed.

(** The child of a stage runs the builtin body when the stage names a
    builtin and its redirections can be opened. *)
Lemma child_runs_builtin exec_ok pl i fs a0 args io' fs' :
  argv (cmd_at pl i) = a0 :: args -> is_builtin a0 = true ->
  apply_redirs (redirs (cmd_at pl i)) (pipe_wiring i (length (cmds pl))) fs
  = RedirOk io' fs' ->
  ch_end (fg_child exec_ok pl i fs) = ChildBuiltin (a0 :: args).
Proof.
  intros Ha Hb Hr. unfold fg_child. rewrite Hr. unfold child_run. now rewrite Ha, Hb.
Qed.

(** A single command that is not sent to the background and names one of
    [hop], [cd], [reveal], [ping], [log], [activities]: the shell process
    runs the body of the builtin itself, whether or not the command has
    redirections.  With redirections it then also forks a child for the
    same command. *)
Lemma external_builtin_runs_in_shell os fuel a0 args rs seg last_status s :
  is_external_builtin a0 = true ->
  exists tr,
    trace (snd (execute_group os fuel (mkPipeline [mkCmd (a0 :: args) rs]) seg false
                              last_status s))
    = trace s ++ EvBuiltin (a0 :: args) :: tr /\
    (rs = [] -> tr = []) /\
    (rs <> [] -> exists r tr', tr = EvFork 0 r :: tr').
Proof.
  intros Hb.
  set (c := mkCmd (a0 :: args) rs). set (pl := mkPipeline [c]).
  assert (Hrb : run_builtin os fuel c s
                = (Some (Z.of_N (os_builtin os (a0 :: args))), emit (EvBuiltin (a0 :: args)) s)).
  { unfold run_builtin. simpl. now rewrite Hb. }
  unfold execute_group.
  change ((count pl =? 1) && negb false) with true. cbv iota.
  change (cmd_at pl 0) with c. rewrite Hrb.
  destruct (Z.eqb_spec (Z.of_N (os_builtin os (a0 :: args))) (-1)) as [E | _]; [lia |].
  destruct rs as [| r0 rs].
  - simpl. exists []. split; [reflexivity |]. split; [reflexivity | congruence].
  - change (redir_count c =? 0) with false. simpl negb. cbv iota.
    pose proof (run_pipeline_extends os pl (emit (EvBuiltin (a0 :: args)) s))
      as (tr & Etr & _).
    assert (Hfork : exists r tr', tr = EvFork 0 r :: tr').
    { revert Etr. unfold run_pipeline.
      change (count pl <=? 0) with false. cbv iota.
      change (length (cmds pl)) with 1%nat.
      destruct (launch os 1 0 1 (replicate 1 (-1)) (-1) (emit (EvBuiltin (a0 :: args)) s))
        as [[[ps pg] fk] s1] eqn:EL.
      assert (H1 : exists r, trace s1 = (trace s ++ [EvBuiltin (a0 :: args)]) ++ [EvFork 0 r]).
      { unfold launch, fork in EL. simpl in EL.
        destruct (os_fork os (nfork s)); simpl in EL;
          injection EL as _ _ _ <-; eexists; reflexivity. }
      destruct H1 as (r & E1).
      pose proof (run_pipeline_wait_extends os pl ps pg fk s1) as (tw & Ew & _).
      destruct (run_pipeline_wait os pl ps pg fk s1) as [r' s']. simpl in *.
      rewrite Ew, E1. rewrite <- (app_assoc _ [EvFork 0 r] tw). intros H.
      apply app_inv_head in H. exists r, tw. now rewrite <- H. }
    destruct (run_pipeline os pl (emit (EvBuiltin (a0 :: args)) s)) as [r s'].
    simpl in *. exists tr. rewrite Etr, <- app_assoc.
    split; [reflexivity |]. split; [congruence | intros _; exact Hfork].
Qed.

(** C1 (the code departs from the claim).  The command line
    [hop .. > out.txt] is a single builtin with a redirection.  The shell
    process runs the body of [hop] itself, before any fork, and then forks
    a child that runs it once more behind the redirection. *)
Theorem redirected_builtin_runs_in_shell (os : OS) (fuel : nat) (s : shell) :
  parse_pipeline "hop .. > out.txt" = Some hop_redirected /\
  (exists r tr,
      trace (snd (execute_first_cmd_group os fuel "hop .. > out.txt" s))
      = trace s ++ EvBuiltin ["hop"; ".."]%string :: EvFork 0 r :: tr) /\
  (forall exec_ok fs,
      "out.txt"%string ∉ denied fs ->
      ch_end (fg_child exec_ok hop_redirected 0 fs) = ChildBuiltin ["hop"; ".."]%string).
Proof.
  split; [reflexivity | split].
  - destruct (external_builtin_runs_in_shell os fuel "hop" [".."%string]
                [mkRedir R_OUT_TRUNC "out.txt"] "hop .. > out.txt" 0 s eq_refl)
      as (tr & Etr & _ & Hfork).
    destruct (Hfork ltac:(discriminate)) as (r & tr' & ->).
    exists r, tr'. rewrite <- Etr.
    change (execute_first_cmd_group os fuel "hop .. > out.txt" s)
      with (match execute_group os fuel hop_redirected "hop .. > out.txt" false 0 s with
            | (None, s1) => (None, s1)
            | (Some st, s1) => (Some st, s1)
            end).
    now destruct (execute_group _ _ _ _ _ _ _) as [[st |] s1].
  - intros exec_ok fs Hout. unfold fg_child. simpl.
    now rewrite (open_wronly_trunc fs "out.txt" Hout).
Qed.

(** ** The standard input of a background stage (executor.c) *)

(** A background stage that has redirections, none of them for input,
    keeps the standard input the pipes left it: the terminal for the first
    stage.  It is not rebound to [/dev/null]. *)
Lemma bg_child_stdin_output_only exec_ok pl i fs :
  redirs (cmd_at pl i) <> [] ->
  last_input (redirs (cmd_at pl i)) = None ->
  io_stdin (ch_io (bg_child exec_ok pl i fs)) = io_stdin (pipe_wiring i (length (cmds pl))).
Proof.
  intros Hne Hin. unfold bg_child.
  assert (E : (redir_count (cmd_at pl i) =? 0) = false).
  { apply Z.eqb_neq. unfold redir_count. destruct (redirs (cmd_at pl i)); [congruence |].
    simpl. lia. }
  rewrite E.
  destruct (apply_redirs _ _ fs) as [io' fs' | msg fs'] eqn:Ea; [| reflexivity].
  rewrite child_run_io. apply apply_redirs_last in Ea. rewrite Hin in Ea. apply Ea.
Qed.

(** A background stage without any redirection is rebound to
    [/dev/null]. *)
Lemma bg_child_stdin_no_redirection exec_ok pl i fs :
  redirs (cmd_at pl i) = [] -> open_rdonly fs dev_null = true ->
  io_stdin (ch_io (bg_child exec_ok pl i fs)) = OpenRead dev_null.
Proof.
  intros Hnil Hopen. unfold bg_child, redir_count. rewrite Hnil, Hopen. simpl.
  now rewrite child_run_io.
Qed.

(** C7 (the code departs from the claim).  [cat > out.txt &] launches
    [cat] in the background with an output redirection and no input
    redirection.  Its child is the one [run_pipeline_async] forks, and the
    standard input of that child is still the terminal, whatever the file
    system: [/dev/null] is opened only for a stage without any
    redirection, as for [cat &]. *)
Theorem background_stage_with_output_keeps_terminal
    (exec_ok : string -> bool) (fs : filesys) :
  parse_pipeline "cat > out.txt" = Some cat_redirected /\
  (forall os fuel s,
      snd (execute_first_cmd_group os fuel "cat > out.txt &" s)
      = snd (run_pipeline_async os cat_redirected "cat > out.txt" s)) /\
  io_stdin (ch_io (bg_child exec_ok cat_redirected 0 fs)) = Terminal /\
  (open_rdonly fs dev_null = true ->
   io_stdin (ch_io (bg_child exec_ok (mkPipeline [mkCmd ["cat"%string] []]) 0 fs))
   = OpenRead dev_null).
Proof.
  split; [reflexivity | split; [| split]].
  - intros os fuel s.
    change (execute_first_cmd_group os fuel "cat > out.txt &" s)
      with (let '(r, s1) :=
              (let '(_, s1) := run_pipeline_async os cat_redirected "cat > out.txt" s in
               (Some 0, s1)) in
            match r with
            | None => (None, s1)
            | Some st => (Some st, s1)
            end).
    now destruct (run_pipeline_async _ _ _ _).
  - apply (bg_child_stdin_output_only exec_ok cat_redirected 0 fs); [discriminate | reflexivity].
  - apply (bg_child_stdin_no_redirection exec_ok (mkPipeline [mkCmd ["cat"%string] []]) 0 fs).
    reflexivity.
Qed.

(** ** The completion message of a job that has been in the foreground *)

(** In a pass of [jobs_poll] over the stages of a job, the number, the
    stage count, the pids and the name of the job stay as they are. *)
Lemma poll_stages_identity os k : forall j job all_done s,
  job_num (fst (fst (poll_stages os k j job all_done s))) = job_num job /\
  npids (fst (fst (poll_stages os k j job all_done s))) = npids job /\
  pids (fst (fst (poll_stages os k j job all_done s))) = pids job /\
  cmd_name (fst (fst (poll_stages os k j job all_done s))) = cmd_name job.
Proof.
  induction k as [| k IH]; intros j job all_done s; simpl; [now repeat split |].
  destruct (rdB (finished job) j); [apply IH |].
  destruct (os_waitpid os (nwait s) (rdZ (pids job) j) poll_options) as [| | st];
    try exact (IH _ _ _ _).
  destruct (WIFSTOPPED st); [exact (IH _ _ _ _) |].
  destruct (WIFCONTINUED st); [exact (IH _ _ _ _) |].
  destruct (Z.of_nat j =? _); exact (IH _ _ _ _).
Qed.

(** The classification kept in the job changes in a pass of [jobs_poll]
    only when the pass reaps the last stage, and then it becomes the
    classification of the status reported for the pid of the last stage:
    0 if it exited with status 0 and 1 otherwise.  What the other stages
    report has no part in it. *)
Lemma poll_stages_last_status os k : forall j job all_done s,
  (j + k <= Z.to_nat (npids job))%nat ->
  last_status (fst (fst (poll_stages os k j job all_done s))) = last_status job \/
  exists w st,
    (nwait s <= w)%nat /\
    os_waitpid os w (last_pid job) poll_options = WaitPid st /\
    WIFSTOPPED st = false /\ WIFCONTINUED st = false /\
    last_status (fst (fst (poll_stages os k j job all_done s))) = classify st.
Proof.
  induction k as [| k IH]; intros j job all_done s Hjk; simpl; [now left |].
  destruct (rdB (finished job) j); [apply IH; lia |].
  assert (Hnext : forall job1 ad,
             npids job1 = npids job -> pids job1 = pids job ->
             last_status job1 = last_status job ->
             last_status (fst (fst (poll_stages os k (S j) job1 ad
                                      (snd (waitpid os (rdZ (pids job) j) poll_options s)))))
             = last_status job \/
             exists w st,
               (nwait s <= w)%nat /\
               os_waitpid os w (last_pid job) poll_options = WaitPid st /\
               WIFSTOPPED st = false /\ WIFCONTINUED st = false /\
               last_status (fst (fst (poll_stages os k (S j) job1 ad
                                        (snd (waitpid os (rdZ (pids job) j) poll_options s)))))
               = classify st).
  { intros job1 ad Hn Hp Hl.
    destruct (IH (S j) job1 ad (snd (waitpid os (rdZ (pids job) j) poll_options s)))
      as [E | (w & st & Hw & Ha & H1 & H2 & E)]; [rewrite Hn; lia | | ].
    - left. congruence.
    - right. exists w, st. simpl in Hw. unfold last_pid in *. rewrite Hn, Hp in Ha.
      repeat split; try assumption. lia. }
  unfold waitpid in Hnext. simpl in Hnext.
  destruct (os_waitpid os (nwait s) (rdZ (pids job) j) poll_options) as [| | st] eqn:Ew;
    try (apply Hnext; reflexivity).
  destruct (WIFSTOPPED st) eqn:Es; [apply Hnext; reflexivity |].
  destruct (WIFCONTINUED st) eqn:Ec; [apply Hnext; reflexivity |].
  simpl.
  destruct (Z.eqb_spec (Z.of_nat j) (npids job - 1)) as [Elast | _];
    [| apply Hnext; reflexivity].
  assert (k = 0)%nat as -> by lia. simpl. right.
  exists (nwait s), st. split; [lia |]. split; [| now repeat split].
  unfold last_pid. rewrite <- Elast, Nat2Z.id. exact Ew.
Qed.

(** When no status check fails, a pass of [jobs_poll] finds a job done
    exactly when every stage it looked at is marked finished after the
    pass. *)
Lemma poll_stages_all_done os k :
  (forall w pid options, os_waitpid os w pid options <> WaitError) ->
  forall j job all_done s,
    (j + k <= length (finished job))%nat ->
    length (finished (fst (fst (poll_stages os k j job all_done s))))
    = length (finished job) /\
    (forall i, (i < j)%nat ->
       rdB (finished (fst (fst (poll_stages os k j job all_done s)))) i
       = rdB (finished job) i) /\
    (snd (fst (poll_stages os k j job all_done s)) = true <->
     all_done = true /\
     forall i, (j <= i < j + k)%nat ->
       rdB (finished (fst (fst (poll_stages os k j job all_done s)))) i = true).
Proof.
  intros Hok. induction k as [| k IH]; intros j job all_done s Hlen; simpl.
  - split; [reflexivity |]. split; [reflexivity |]. split.
    + intros ->. split; [reflexivity | intros i Hi; lia].
    + now intros [-> _].
  - assert (Hstep : forall job1 ad s1,
               finished job1 = finished job \/
               (finished job1 = <[j := true]> (finished job)) ->
               (ad = true <-> all_done = true /\ rdB (finished job1) j = true) ->
               length (finished (fst (fst (poll_stages os k (S j) job1 ad s1))))
               = length (finished job) /\
               (forall i, (i < j)%nat ->
                  rdB (finished (fst (fst (poll_stages os k (S j) job1 ad s1)))) i
                  = rdB (finished job) i) /\
               (snd (fst (poll_stages os k (S j) job1 ad s1)) = true <->
                all_done = true /\
                forall i, (j <= i < j + S k)%nat ->
                  rdB (finished (fst (fst (poll_stages os k (S j) job1 ad s1)))) i = true)).
    { intros job1 ad s1 Hf Had.
      assert (Hl1 : length (finished job1) = length (finished job)).
      { destruct Hf as [-> | ->]; [reflexivity | apply length_insert]. }
      destruct (IH (S j) job1 ad s1) as (Hl & Hlow & Hiff); [lia |].
      split; [congruence |]. split.
      - intros i Hi. rewrite Hlow by lia.
        destruct Hf as [-> | ->]; [reflexivity |].
        unfold rdB. rewrite list_lookup_insert_ne by lia. reflexivity.
      - rewrite Hiff, Had. split.
        + intros [[Ha Hj] Hrest]. split; [exact Ha |].
          intros i Hi. destruct (Nat.eq_dec i j) as [-> | Hne].
          * rewrite Hlow by lia. exact Hj.
          * apply Hrest. lia.
        + intros [Ha Hall]. split; [split; [exact Ha |] |].
          * rewrite <- (Hlow j) by lia. apply Hall. lia.
          * intros i Hi. apply Hall. lia. }
    destruct (rdB (finished job) j) eqn:Efj.
    + apply Hstep; [now left |]. rewrite Efj. tauto.
    + specialize (Hok (nwait s) (rdZ (pids job) j) poll_options).
      destruct (os_waitpid os (nwait s) (rdZ (pids job) j) poll_options) as [| | st];
        [| contradiction |].
      * apply Hstep; [now left |]. rewrite Efj. split; [discriminate | now intros [_ ?]].
      * destruct (WIFSTOPPED st).
        { apply Hstep; [now left |]. simpl. rewrite Efj.
          split; [discriminate | now intros [_ ?]]. }
        destruct (WIFCONTINUED st).
        { apply Hstep; [now left |]. simpl. rewrite Efj.
          split; [discriminate | now intros [_ ?]]. }
        assert (Hset : rdB (<[j := true]> (finished job)) j = true).
        { unfold rdB. rewrite list_lookup_insert_eq by lia. reflexivity. }
        simpl. destruct (Z.of_nat j =? npids job - 1);
          (apply Hstep; [now right | simpl; rewrite Hset; tauto]).
Qed.

(** The background job of [sleep 1 | doesnotexist | sleep 1 &] is reported
    as exited normally when its last stage exits with status 0, although
    the middle stage exited with status 127 and the first was killed. *)
Lemma three_stage_job_classified_by_last_stage :
  stdout_lines (trace three_stage_session)
  = ["[1] 102"; "sleep with pid 102 exited normally"]%string /\
  bg_jobs three_stage_session = [].
Proof. split; vm_compute; reflexivity. Qed.

(** C5 (the code departs from the claim).  In the session
    [sleep 100 | timeout 2 sleep 50 &], [fg], Ctrl-Z, [bg] the last stage
    (pid 101) exits with status 124 while [fg] is waiting; [fg] keeps the
    classification in a local variable and not in the job.  When the first
    stage has exited too, [jobs_poll] removes the job and reports it as
    exited normally.  The same happens in the session [sleep 100 | false],
    Ctrl-Z, [bg], where the foreground wait has reaped the last stage with
    exit status 1. *)
Theorem job_finished_in_foreground_reported_normal :
  trace fg_session
  = [EvPipe 0 true; EvFork 0 100; EvFork 1 101; EvStdout "[1] 101";
     EvWaitpid 100 poll_options; EvWaitpid 101 poll_options;
     EvWaitpid 100 poll_options; EvWaitpid 101 poll_options;
     EvStdout "sleep"; EvTcsetpgrp 100;
     EvWaitpid 100 fg_options; EvWaitpid 101 fg_options; EvNanosleep nap_nsec;
     EvWaitpid 100 fg_options; EvTcsetpgrp 7; EvStdout "[1] Stopped sleep";
     EvWaitpid 100 poll_options; EvWaitpid 100 poll_options;
     EvKill (-100) SIGCONT; EvStdout "[1] sleep &";
     EvWaitpid 100 poll_options;
     EvStdout "sleep with pid 101 exited normally"] /\
  os_waitpid (os_scripted fg_session_script) 5 101 fg_options = WaitPid (Exited 124) /\
  bg_jobs fg_session = [] /\
  stdout_lines (trace ctrl_z_session)
  = ["[1] Stopped sleep"; "[1] sleep &"; "sleep with pid 101 exited normally"]%string /\
  os_waitpid (os_scripted ctrl_z_session_script) 1 101 WUNTRACED = WaitPid (Exited 1) /\
  bg_jobs ctrl_z_session = [].
Proof. repeat split; vm_compute; reflexivity. Qed.


(** * Further properties of the job table (jobs.c) *)

Lemma StronglySorted_sublist {A} (R : A -> A -> Prop) (l1 l2 : list A) :
  l1 `sublist_of` l2 -> StronglySorted R l2 -> StronglySorted R l1.
Proof.
  induction 1 as [| x l1 l2 Hs IH | x l1 l2 Hs IH]; intros H.
  - constructor.
  - inversion H as [| ? ? Hl2 Hx]; subst. constructor; [now apply IH |].
    apply List.Forall_forall. intros y Hy.
    apply (proj1 (List.Forall_forall _ _) Hx).
    apply list_elem_of_In. eapply elem_of_sublist; [| exact Hs].
    now apply list_elem_of_In.
  - inversion H; subst. now apply IH.
Qed.

Lemma job_num_of_identity (l : list BgJob) :
  job_num <$> l = (fun x => x.1.1.1) <$> (job_identity <$> l).
Proof. rewrite <- list_fmap_compose. reflexivity. Qed.

Lemma identity_insert (l : list BgJob) (i : nat) (job job' : BgJob) :
  l !! i = Some job -> job_identity job' = job_identity job ->
  job_identity <$> <[i := job']> l = job_identity <$> l.
Proof.
  intros Hl Hid. rewrite list_fmap_insert, Hid.
  apply list_insert_id. rewrite list_lookup_fmap, Hl. reflexivity.
Qed.

Lemma poll_stages_job_identity os k j job all_done s :
  job_identity (fst (fst (poll_stages os k j job all_done s))) = job_identity job.
Proof.
  destruct (poll_stages_identity os k j job all_done s) as (H1 & H2 & H3 & H4).
  unfold job_identity. now rewrite H1, H2, H3, H4.
Qed.

(** The job loop of [jobs_poll] keeps the jobs that are not done, in their
    order and with their identity. *)
Lemma poll_jobs_sublist os jobs : forall s,
  job_identity <$> fst (poll_jobs os jobs s) `sublist_of` job_identity <$> jobs.
Proof.
  induction jobs as [| job rest IH]; intros s; simpl; [constructor |].
  pose proof (poll_stages_job_identity os (Z.to_nat (npids job)) 0 job true s) as Hid.
  destruct (poll_stages os (Z.to_nat (npids job)) 0 job true s) as [[job' all_done] s1].
  simpl in Hid. destruct all_done.
  - apply sublist_cons. apply IH.
  - specialize (IH s1). destruct (poll_jobs os rest s1) as [rest' s2]. simpl in *.
    rewrite Hid. now apply sublist_skip.
Qed.

Lemma jobs_poll_sublist os s :
  job_identity <$> bg_jobs (jobs_poll os s) `sublist_of` job_identity <$> bg_jobs s.
Proof.
  unfold jobs_poll. pose proof (poll_jobs_sublist os (bg_jobs s) s) as H.
  destruct (poll_jobs os (bg_jobs s) s) as [js s']. exact H.
Qed.

Lemma fg_stages_job_identity os k : forall i job all_done stopped_ sc s,
  job_identity (fst (fst (fst (fst (fg_stages os k i job all_done stopped_ sc s)))))
  = job_identity job /\
  bg_jobs (snd (fg_stages os k i job all_done stopped_ sc s)) = bg_jobs s.
Proof.
  induction k as [| k IH]; intros i job all_done stopped_ sc s; simpl; [now split |].
  destruct (rdB (finished job) i); [apply IH |].
  destruct (os_waitpid os (nwait s) (rdZ (pids job) i) fg_options) as [| | st];
    try exact (IH _ _ _ _ _ _).
  destruct (WIFSTOPPED st); [exact (IH _ _ _ _ _ _) |].
  destruct (WIFCONTINUED st); exact (IH _ _ _ _ _ _).
Qed.

Lemma job_at_lookup s idx job :
  bg_jobs s !! idx = Some job -> job_at s (Z.of_nat idx) = job.
Proof. intros H. unfold job_at. now rewrite Nat2Z.id, H. Qed.

(** The loop of [fg] works on one entry of the table: it keeps the
    identity of that entry or takes it out, and leaves the others. *)
Lemma fg_loop_sublist os fuel : forall idx sc s,
  job_identity <$> bg_jobs (snd (fg_loop os fuel idx sc s))
  `sublist_of` job_identity <$> bg_jobs s.
Proof.
  induction fuel as [| fuel IH]; intros idx sc s; simpl; [reflexivity |].
  pose proof (fg_stages_job_identity os (Z.to_nat (npids (job_at s (Z.of_nat idx)))) 0
                (job_at s (Z.of_nat idx)) true false sc s) as [Hid Hjobs].
  destruct (fg_stages os _ 0 _ true false sc s) as [[[[job' all_done] stopped_] sc'] s1].
  simpl in Hid, Hjobs.
  assert (Hins : job_identity <$> <[idx := job']> (bg_jobs s1) = job_identity <$> bg_jobs s).
  { rewrite Hjobs. destruct (bg_jobs s !! idx) as [job |] eqn:El.
    - apply (identity_insert _ _ job); [exact El |].
      rewrite Hid. now rewrite (job_at_lookup s idx job El).
    - rewrite list_insert_ge; [reflexivity |]. now apply lookup_ge_None. }
  destruct stopped_; [simpl; now rewrite Hins |].
  destruct all_done.
  - simpl. rewrite <- Hins. apply fmap_sublist. apply sublist_delete.
  - etransitivity; [apply IH |]. simpl. now rewrite Hins.
Qed.

Lemma jobs_cmd_fg_sublist os fuel jobnum s :
  job_identity <$> bg_jobs (snd (jobs_cmd_fg os fuel jobnum s))
  `sublist_of` job_identity <$> bg_jobs s.
Proof.
  unfold jobs_cmd_fg.
  destruct (select_job_index jobnum s <? 0); [reflexivity |].
  destruct (rdZ _ 0 <=? 0); [reflexivity |].
  etransitivity; [apply fg_loop_sublist |].
  destruct (existsb _ _); reflexivity.
Qed.

Lemma clear_stopped_identity job : job_identity (clear_stopped job) = job_identity job.
Proof.
  unfold clear_stopped. generalize (stage_indices job) as l.
  intros l. revert job. induction l as [| i l IH]; intros job; simpl; [reflexivity |].
  now rewrite IH.
Qed.

Lemma select_job_index_range jobnum s :
  select_job_index jobnum s = -1 \/ 0 <= select_job_index jobnum s < bg_job_count s.
Proof.
  unfold select_job_index, most_recent_job_index, find_job_index, bg_job_count.
  destruct (jobnum =? 0).
  - destruct (Z.eqb_spec (Z.of_nat (length (bg_jobs s))) 0); [now left | right; lia].
  - destruct (find_job_from_range (bg_jobs s) 0 jobnum) as [E | R]; [now left | right; lia].
Qed.

Lemma jobs_cmd_bg_identities jobnum s :
  job_identity <$> bg_jobs (snd (jobs_cmd_bg jobnum s)) = job_identity <$> bg_jobs s.
Proof.
  unfold jobs_cmd_bg.
  destruct (Z.ltb_spec (select_job_index jobnum s) 0) as [| Hge]; [reflexivity |].
  destruct (negb _); [reflexivity |]. simpl.
  assert (Hb : bg_jobs (if rdZ (pids (job_at s (select_job_index jobnum s))) 0 >? 0
                        then emit (EvKill (- rdZ (pids (job_at s (select_job_index jobnum s))) 0)
                                          SIGCONT) s
                        else s) = bg_jobs s) by now destruct (_ >? 0).
  rewrite Hb.
  destruct (select_job_index_range jobnum s) as [E | R]; [lia |].
  unfold bg_job_count in R.
  destruct (lookup_lt_is_Some_2 (bg_jobs s) (Z.to_nat (select_job_index jobnum s)))
    as [job Hjob]; [lia |].
  apply (identity_insert _ _ job); [exact Hjob |].
  rewrite clear_stopped_identity. unfold job_at. now rewrite Hjob.
Qed.

(** X3.  No call keeps a job while changing what identifies it, and only
    the two registrations add one: after [jobs_poll], after [fg] (however
    long it runs) and after [bg], the numbers, stages and names of the
    jobs in the table are those of before, in the same order, with some
    jobs possibly gone; [bg] removes none. *)
Theorem only_registration_adds_jobs (os : OS) (s : shell) :
  job_identity <$> bg_jobs (jobs_poll os s) `sublist_of` job_identity <$> bg_jobs s /\
  (forall fuel jobnum,
      job_identity <$> bg_jobs (snd (jobs_cmd_fg os fuel jobnum s))
      `sublist_of` job_identity <$> bg_jobs s) /\
  (forall jobnum,
      job_identity <$> bg_jobs (snd (jobs_cmd_bg jobnum s)) = job_identity <$> bg_jobs s).
Proof.
  split; [apply jobs_poll_sublist | split].
  - intros fuel jobnum. apply jobs_cmd_fg_sublist.
  - intros jobnum. apply jobs_cmd_bg_identities.
Qed.

(** ** Invariants of the job table *)

Lemma Forall_sublist_of {A} (P : A -> Prop) (l1 l2 : list A) :
  l1 `sublist_of` l2 -> Forall P l2 -> Forall P l1.
Proof.
  intros Hs H. apply List.Forall_forall. intros y Hy.
  apply (proj1 (List.Forall_forall _ _) H).
  apply list_elem_of_In. eapply elem_of_sublist; [| exact Hs]. now apply list_elem_of_In.
Qed.

Lemma numbers_sublist (l1 l2 : list BgJob) :
  job_identity <$> l1 `sublist_of` job_identity <$> l2 ->
  job_num <$> l1 `sublist_of` job_num <$> l2.
Proof. intros H. rewrite !job_num_of_identity. now apply fmap_sublist. Qed.

Lemma table_ordered_shrinks s s' :
  job_identity <$> bg_jobs s' `sublist_of` job_identity <$> bg_jobs s ->
  next_job_number s' = next_job_number s ->
  table_ordered s -> table_ordered s'.
Proof.
  intros Hsub Hn [Hs Hf]. apply numbers_sublist in Hsub. split.
  - eapply StronglySorted_sublist; eassumption.
  - rewrite Hn. eapply Forall_sublist_of; eassumption.
Qed.

Lemma StronglySorted_snoc (l : list Z) (n : Z) :
  StronglySorted Z.lt l -> Forall (fun x => x < n) l -> StronglySorted Z.lt (l ++ [n]).
Proof.
  induction 1 as [| a l Hl IH Ha]; intros Hf; simpl.
  - repeat constructor.
  - apply Forall_cons_1 in Hf as [Han Hf]. constructor; [now apply IH |].
    apply Forall_app. split; [exact Ha | constructor; [exact Han | constructor]].
Qed.

Lemma table_ordered_grows s job s' :
  bg_jobs s' = bg_jobs s ++ [job] -> job_num job = next_job_number s ->
  1 <= next_job_number s -> next_job_number s' = next_job_number s + 1 ->
  table_ordered s -> table_ordered s'.
Proof.
  intros Hj Hnum Hpos Hn [Hs Hf]. unfold table_ordered.
  rewrite Hj, Hn, fmap_app. simpl. split.
  - apply StronglySorted_snoc; [exact Hs |].
    eapply Forall_impl; [exact Hf |]. simpl. intros x Hx. lia.
  - apply Forall_app. split.
    + eapply Forall_impl; [exact Hf |]. simpl. intros x Hx. lia.
    + constructor; [lia | constructor].
Qed.

(** One call keeps the table ordered, as long as the counter has not
    reached the end of the range of [int]. *)
Lemma job_op_step_ordered os op s :
  1 <= next_job_number s < INT_MAX -> table_ordered s ->
  table_ordered (job_op_step os op s).1.2.
Proof.
  intros Hn Hord.
  destruct op as [pgid ps cnt name | | | ps cnt names | | fuel jobnum | jobnum]; simpl.
  - exact Hord.
  - exact Hord.
  - unfold jobs_move_foreground_to_background_stopped.
    destruct ((fg_pgid s =? -1) || (fg_count s =? 0)); [exact Hord |].
    destruct (bg_job_count s >=? MAX_BG_JOBS); [exact Hord |]. simpl.
    eapply (table_ordered_grows s); try eassumption; simpl; try reflexivity; try lia.
    apply wrap_int_small. unfold INT_MAX in *. lia.
  - unfold jobs_add_background.
    destruct (cnt <=? 0); [exact Hord |].
    destruct (bg_job_count s >=? MAX_BG_JOBS); [exact Hord |]. simpl.
    eapply (table_ordered_grows s); try eassumption; simpl; try reflexivity; try lia.
    apply wrap_int_small. unfold INT_MAX in *. lia.
  - apply (table_ordered_shrinks s); [apply jobs_poll_sublist | | exact Hord].
    apply jobs_poll_next_job_number.
  - pose proof (jobs_cmd_fg_sublist os fuel jobnum s) as Hs.
    pose proof (jobs_cmd_fg_next_job_number os fuel jobnum s) as Hnn.
    destruct (jobs_cmd_fg os fuel jobnum s) as [r s']. simpl in *.
    now apply (table_ordered_shrinks s).
  - apply (table_ordered_shrinks s); [| apply jobs_cmd_bg_next_job_number | exact Hord].
    rewrite jobs_cmd_bg_identities. reflexivity.
Qed.

Lemma run_job_ops_ordered os ops : forall s,
  1 <= next_job_number s ->
  next_job_number s + Z.of_nat (length ops) <= INT_MAX ->
  table_ordered s ->
  table_ordered (snd (run_job_ops os ops s)) /\
  1 <= next_job_number (snd (run_job_ops os ops s)).
Proof.
  induction ops as [| op rest IH]; intros s Hpos Hfit Hord; simpl; [now split |].
  simpl length in Hfit.
  pose proof (job_op_step_number os op s Hpos) as Hstep.
  pose proof (job_op_step_ordered os op s ltac:(lia) Hord) as Hord'.
  destruct (job_op_step os op s) as [[issued s1] returned]. simpl in Hord'.
  assert (Hn1 : next_job_number s <= next_job_number s1 <= next_job_number s + 1).
  { destruct Hstep as [[_ ->] | [_ ->]]; [lia |].
    rewrite wrap_int_small by (unfold INT_MAX in *; lia). lia. }
  destruct returned.
  - specialize (IH s1 ltac:(lia) ltac:(lia) Hord').
    destruct (run_job_ops os rest s1) as [more s2]. exact IH.
  - simpl. split; [exact Hord' | lia].
Qed.

Lemma shell_init_ordered : table_ordered shell_init.
Proof. split; constructor. Qed.

(** X1.  Whatever calls are made to the job table from the start of the
    shell (fewer than [INT_MAX] of them), the numbers of the jobs in the
    table are in strictly increasing order from the oldest entry to the
    newest, each at least 1 and below the counter: no two jobs of the
    table carry the same number, and the most recent entry carries the
    largest. *)
Theorem job_table_stays_ordered (os : OS) (ops : list job_op) :
  Z.of_nat (length ops) < INT_MAX ->
  table_ordered (snd (run_job_ops os ops shell_init)).
Proof.
  intros Hlen. apply (run_job_ops_ordered os ops shell_init); simpl; try lia.
  apply shell_init_ordered.
Qed.

Lemma job_table_stays_ordered_witness :
  Z.of_nat (length register_remove_register) < INT_MAX /\
  table_ordered (snd (run_job_ops os_102_exited register_remove_register shell_init)).
Proof.
  split; [reflexivity |].
  apply (job_table_stays_ordered os_102_exited register_remove_register). reflexivity.
Defined.

Lemma job_op_step_capacity os op s :
  bg_job_count s <= MAX_BG_JOBS -> bg_job_count (job_op_step os op s).1.2 <= MAX_BG_JOBS.
Proof.
  intros Hcap.
  assert (Hshrink : forall s', job_identity <$> bg_jobs s' `sublist_of` job_identity <$> bg_jobs s ->
                               bg_job_count s' <= MAX_BG_JOBS).
  { intros s' Hs. apply sublist_length in Hs. rewrite !length_fmap in Hs.
    unfold bg_job_count in *. lia. }
  destruct op as [pgid ps cnt name | | | ps cnt names | | fuel jobnum | jobnum]; simpl.
  - exact Hcap.
  - exact Hcap.
  - unfold jobs_move_foreground_to_background_stopped.
    destruct ((fg_pgid s =? -1) || (fg_count s =? 0)); [exact Hcap |].
    destruct (Z.geb_spec (bg_job_count s) MAX_BG_JOBS); [exact Hcap |].
    unfold bg_job_count in *. simpl. rewrite length_app. simpl. lia.
  - unfold jobs_add_background.
    destruct (cnt <=? 0); [exact Hcap |].
    destruct (Z.geb_spec (bg_job_count s) MAX_BG_JOBS); [exact Hcap |].
    unfold bg_job_count in *. simpl. rewrite length_app. simpl. lia.
  - apply Hshrink, jobs_poll_sublist.
  - pose proof (jobs_cmd_fg_sublist os fuel jobnum s) as Hs.
    destruct (jobs_cmd_fg os fuel jobnum s) as [r s']. simpl in *. now apply Hshrink.
  - apply Hshrink. rewrite jobs_cmd_bg_identities. reflexivity.
Qed.

(** X2.  The table never holds more than [MAX_BG_JOBS] = 64 jobs,
    whatever calls are made to it from the start of the shell: the static
    array [bg_jobs] is never written past its end. *)
Theorem job_table_never_overflows (os : OS) (ops : list job_op) :
  bg_job_count (snd (run_job_ops os ops shell_init)) <= MAX_BG_JOBS.
Proof.
  assert (H : forall s, bg_job_count s <= MAX_BG_JOBS ->
                        bg_job_count (snd (run_job_ops os ops s)) <= MAX_BG_JOBS).
  { induction ops as [| op rest IH]; intros s Hs; simpl; [exact Hs |].
    pose proof (job_op_step_capacity os op s Hs) as H1.
    destruct (job_op_step os op s) as [[issued s1] returned]. simpl in H1.
    destruct returned; [| exact H1].
    specialize (IH s1 H1). now destruct (run_job_ops os rest s1). }
  apply H. vm_compute. discriminate.
Qed.

(** ** Registration, lookup and [bg] *)

Lemma find_job_from_app l r : forall i jobnum,
  Forall (fun n => n <> jobnum) (job_num <$> l) ->
  find_job_from (l ++ r) i jobnum = find_job_from r (i + Z.of_nat (length l)) jobnum.
Proof.
  induction l as [| job l IH]; intros i jobnum Hf; simpl.
  - f_equal. lia.
  - rewrite fmap_cons in Hf. apply Forall_cons_1 in Hf as [Hn Hf].
    destruct (Z.eqb_spec (job_num job) jobnum) as [E | _]; [contradiction |].
    rewrite IH by exact Hf. f_equal. lia.
Qed.

Lemma rdB_replicate_false n i : rdB (replicate n false) i = false.
Proof.
  unfold rdB. destruct (replicate n false !! i) as [b |] eqn:E; [| reflexivity].
  apply lookup_replicate_1 in E as [-> _]. reflexivity.
Qed.

(** X4.  A job that [jobs_add_background] has just registered is found
    under the number it was given, in the last slot of the table, and it
    counts as running: [bg] on that number changes nothing and prints
    [Job already running]. *)
Theorem registered_job_is_found_running (ps : list Z) (cnt : Z)
    (names : option (list (option string))) (s : shell) :
  table_ordered s -> 1 <= next_job_number s ->
  0 < cnt -> bg_job_count s < MAX_BG_JOBS ->
  let '((num, _), s') := jobs_add_background ps cnt names s in
  num = next_job_number s /\
  find_job_index num s' = bg_job_count s' - 1 /\
  jobs_cmd_bg num s' = (1, emit (EvStdout "Job already running") s').
Proof.
  intros [_ Hbelow] Hpos Hcnt Hroom. unfold jobs_add_background.
  destruct (Z.leb_spec cnt 0) as [H0 | _]; [lia |].
  destruct (Z.geb_spec (bg_job_count s) MAX_BG_JOBS) as [H1 | _]; [lia |].
  cbv zeta. split; [reflexivity |].
  set (job := mkBgJob _ _ _ _ _ _ _ _).
  set (s' := set_bg_jobs _ _).
  assert (Hfind : find_job_index (job_num job) s' = bg_job_count s' - 1).
  { unfold find_job_index, bg_job_count, s'. simpl.
    rewrite find_job_from_app.
    - simpl. rewrite Z.eqb_refl, length_app. simpl. lia.
    - eapply Forall_impl; [exact Hbelow |]. simpl. intros n Hn. lia. }
  split; [exact Hfind |].
  unfold jobs_cmd_bg, select_job_index.
  destruct (Z.eqb_spec (job_num job) 0) as [E | _]; [simpl in E; lia |].
  rewrite Hfind.
  assert (Hat : job_at s' (bg_job_count s' - 1) = job).
  { unfold job_at, bg_job_count, s'. simpl. rewrite length_app. simpl.
    replace (Z.to_nat (Z.of_nat (length (bg_jobs s) + 1) - 1)) with (length (bg_jobs s)) by lia.
    rewrite lookup_app_r by lia. now rewrite Nat.sub_diag. }
  destruct (Z.ltb_spec (bg_job_count s' - 1) 0) as [Hneg | _].
  { unfold bg_job_count, s' in Hneg. simpl in Hneg. rewrite length_app in Hneg.
    simpl in Hneg. lia. }
  rewrite Hat. rewrite existsb_false_on; [reflexivity |].
  intros i _. simpl. rewrite rdB_replicate_false. apply andb_false_r.
Qed.

Lemma registered_job_is_found_running_witness :
  table_ordered two_jobs_shell /\ 1 <= next_job_number two_jobs_shell /\
  0 < 1 /\ bg_job_count two_jobs_shell < MAX_BG_JOBS /\
  let '((num, _), s') := jobs_add_background [104] 1 None two_jobs_shell in
  num = next_job_number two_jobs_shell /\
  find_job_index num s' = bg_job_count s' - 1 /\
  jobs_cmd_bg num s' = (1, emit (EvStdout "Job already running") s').
Proof.
  assert (Hord : table_ordered two_jobs_shell).
  { split; simpl; repeat constructor; try lia. }
  split; [exact Hord |]. split; [simpl; lia |]. split; [lia |].
  split; [reflexivity |].
  apply (registered_job_is_found_running [104] 1 None two_jobs_shell Hord);
    [simpl; lia | lia | reflexivity].
Defined.

Lemma rdB_insert_same l i : rdB (<[i:=false]> l) i = false.
Proof.
  unfold rdB. destruct (l !! i) as [b |] eqn:E.
  - rewrite list_lookup_insert_eq; [reflexivity |]. eapply lookup_lt_Some, E.
  - rewrite list_insert_ge; [now rewrite E |]. now apply lookup_ge_None.
Qed.

Lemma rdB_insert_false l i k : rdB l k = false -> rdB (<[i:=false]> l) k = false.
Proof.
  intros H. destruct (decide (i = k)) as [-> | Hne]; [apply rdB_insert_same |].
  unfold rdB in *. now rewrite list_lookup_insert_ne.
Qed.

Lemma fold_clear_keeps is_ : forall job k,
  rdB (stopped job) k = false ->
  rdB (stopped (fold_left (fun jb i => set_stopped i false jb) is_ job)) k = false.
Proof.
  induction is_ as [| i is_ IH]; intros job k H; simpl; [exact H |].
  apply IH. simpl. now apply rdB_insert_false.
Qed.

Lemma fold_clear_clears is_ : forall job k,
  In k is_ ->
  rdB (stopped (fold_left (fun jb i => set_stopped i false jb) is_ job)) k = false.
Proof.
  induction is_ as [| i is_ IH]; intros job k H; simpl; [destruct H |].
  destruct H as [-> | H]; [| now apply IH].
  apply fold_clear_keeps. simpl. apply rdB_insert_same.
Qed.

Lemma fold_clear_npids is_ : forall job,
  npids (fold_left (fun jb i => set_stopped i false jb) is_ job) = npids job.
Proof. induction is_ as [| i is_ IH]; intros job; simpl; [reflexivity | now rewrite IH]. Qed.

Lemma select_job_index_identities jobnum s s' :
  job_identity <$> bg_jobs s' = job_identity <$> bg_jobs s ->
  select_job_index jobnum s' = select_job_index jobnum s.
Proof.
  intros H. unfold select_job_index, most_recent_job_index, find_job_index, bg_job_count.
  assert (Hlen : length (bg_jobs s') = length (bg_jobs s)).
  { apply (f_equal length) in H. now rewrite !length_fmap in H. }
  rewrite Hlen. destruct (jobnum =? 0); [reflexivity |].
  assert (Hnum : job_num <$> bg_jobs s' = job_num <$> bg_jobs s).
  { rewrite !job_num_of_identity. now rewrite H. }
  clear H Hlen. generalize 0.
  revert Hnum. generalize (bg_jobs s). induction (bg_jobs s') as [| a l IH];
    intros [| b m] Hnum i; simpl in *; try discriminate; [reflexivity |].
  injection Hnum as Hab Hlm. rewrite Hab. destruct (job_num b =? jobnum); [reflexivity |].
  now apply IH.
Qed.

(** X5.  [bg] resumes a job once.  When [bg] succeeds (status 0) the job
    it selected has no stopped stage left, so that the same command given
    again returns 1, prints [Job already running], sends no signal and
    leaves the table alone. *)
Theorem bg_twice_reports_running (jobnum : Z) (s s' : shell) :
  jobs_cmd_bg jobnum s = (0, s') ->
  jobs_cmd_bg jobnum s' = (1, emit (EvStdout "Job already running") s').
Proof.
  intros H.
  pose proof (jobs_cmd_bg_identities jobnum s) as Hid.
  pose proof (select_job_index_range jobnum s) as Hrange.
  rewrite H in Hid. simpl in Hid.
  pose proof (select_job_index_identities jobnum s s' Hid) as Hsel.
  unfold jobs_cmd_bg in H |- *. rewrite Hsel.
  destruct (Z.ltb_spec (select_job_index jobnum s) 0) as [Hneg | Hidx];
    [discriminate |].
  destruct Hrange as [Hr | Hr]; [lia |].
  set (idx := select_job_index jobnum s) in *.
  set (job := job_at s idx) in *.
  destruct (negb (existsb _ (stage_indices job))); [discriminate |].
  injection H as <-.
  assert (Hat : job_at (emit (EvStdout ("[" +:+ fmt_d (job_num job) +:+ "] " +:+ cmd_name job +:+ " &"))
                   (set_bg_jobs
                      (<[Z.to_nat idx := clear_stopped job]>
                         (bg_jobs (if rdZ (pids job) 0 >? 0
                                   then emit (EvKill (- rdZ (pids job) 0) SIGCONT) s else s)))
                      (if rdZ (pids job) 0 >? 0
                       then emit (EvKill (- rdZ (pids job) 0) SIGCONT) s else s))) idx
                = clear_stopped job).
  { unfold job_at. simpl.
    assert (Hb : bg_jobs (if rdZ (pids job) 0 >? 0
                          then emit (EvKill (- rdZ (pids job) 0) SIGCONT) s else s) = bg_jobs s)
      by (destruct (rdZ (pids job) 0 >? 0); reflexivity).
    rewrite Hb. rewrite list_lookup_insert_eq; [reflexivity |].
    unfold bg_job_count in Hr. lia. }
  rewrite Hat.
  rewrite existsb_false_on; [reflexivity |].
  intros i Hi. unfold clear_stopped at 2.
  rewrite fold_clear_clears; [apply andb_false_r |].
  unfold stage_indices, clear_stopped in Hi. now rewrite fold_clear_npids in Hi.
Qed.

Lemma bg_twice_reports_running_witness :
  let s := snd (jobs_move_foreground_to_background_stopped
                  (jobs_set_foreground 100 [100; 101] 2 (Some "sleep 100 | cat"%string)
                     shell_init)) in
  let s' := snd (jobs_cmd_bg 1 s) in
  jobs_cmd_bg 1 s = (0, s') /\
  jobs_cmd_bg 1 s' = (1, emit (EvStdout "Job already running") s').
Proof.
  split; [reflexivity |].
  apply (bg_twice_reports_running 1
           (snd (jobs_move_foreground_to_background_stopped
                   (jobs_set_foreground 100 [100; 101] 2 (Some "sleep 100 | cat"%string)
                      shell_init)))).
  reflexivity.
Defined.

(** ** The foreground record *)

Lemma substring_substring (s : string) : forall m n,
  String.substring 0 m (String.substring 0 n s) = String.substring 0 (Nat.min m n) s.
Proof.
  induction s as [| c s IH]; intros [| m] [| n]; simpl; try reflexivity.
  now rewrite IH.
Qed.

(** X6.  What [jobs_set_foreground] records, [jobs_get_foreground] hands
    back: the group, the count cut to [MAX_CMDS], as many pids as both
    the count and the caller's array allow, and the name cut to the
    smaller of the two buffers.  After [jobs_clear_foreground], or when
    the recorded group is -1, it reports no foreground pipeline. *)
Theorem foreground_round_trip (pgid : Z) (ps : list Z) (cnt : Z) (name : string)
    (max : Z) (name_sz : nat) (s : shell) :
  pgid <> -1 ->
  jobs_get_foreground max (S name_sz) (jobs_set_foreground pgid ps cnt (Some name) s)
  = (Z.min cnt MAX_CMDS,
     Some (pgid, resize (Z.to_nat (Z.min (Z.min cnt MAX_CMDS) max)) 0 ps,
           Some (String.substring 0 (Nat.min name_sz 127) name))) /\
  jobs_get_foreground max (S name_sz) (jobs_set_foreground (-1) ps cnt (Some name) s)
  = (0, None) /\
  jobs_get_foreground max (S name_sz)
    (jobs_clear_foreground (jobs_set_foreground pgid ps cnt (Some name) s)) = (0, None).
Proof.
  intros Hp. split; [| split; reflexivity].
  unfold jobs_get_foreground, jobs_set_foreground. simpl.
  destruct (Z.eqb_spec pgid (-1)) as [E | _]; [contradiction |].
  assert (Hc : (if cnt >? MAX_CMDS then MAX_CMDS else cnt) = Z.min cnt MAX_CMDS).
  { destruct (Z.gtb_spec cnt MAX_CMDS); lia. }
  rewrite Hc.
  assert (Hn : (if Z.min cnt MAX_CMDS <? max then Z.min cnt MAX_CMDS else max)
               = Z.min (Z.min cnt MAX_CMDS) max).
  { destruct (Z.ltb_spec (Z.min cnt MAX_CMDS) max); lia. }
  rewrite Hn. rewrite resize_resize by lia.
  unfold strncpy_buf. rewrite substring_substring.
  replace (S name_sz - 1)%nat with name_sz by lia. reflexivity.
Qed.

Lemma foreground_round_trip_witness :
  100 <> -1 /\
  jobs_get_foreground 16 128 (jobs_set_foreground 100 [100; 101] 2 (Some "cat | wc"%string) shell_init)
  = (2, Some (100, [100; 101], Some "cat | wc"%string)).
Proof.
  split; [lia |].
  apply (foreground_round_trip 100 [100; 101] 2 "cat | wc" 16 127 shell_init). lia.
Defined.

(** ** [fg] *)

Lemma classify_values st : classify st = 0 \/ classify st = 1.
Proof. unfold classify. destruct (WIFEXITED st && (WEXITSTATUS st =? 0)); auto. Qed.

Lemma fg_stages_status os k : forall i job all_done stopped_ sc s,
  sc = 0 \/ sc = 1 ->
  let sc' := snd (fst (fg_stages os k i job all_done stopped_ sc s)) in
  sc' = 0 \/ sc' = 1.
Proof.
  induction k as [| k IH]; intros i job all_done stopped_ sc s Hsc; simpl; [exact Hsc |].
  destruct (rdB (finished job) i); [now apply IH |].
  destruct (os_waitpid os (nwait s) (rdZ (pids job) i) fg_options) as [| | st];
    try (now apply IH).
  destruct (WIFSTOPPED st); [now apply IH |].
  destruct (WIFCONTINUED st); [now apply IH |].
  apply IH. destruct (Z.of_nat i =? _); [apply classify_values | exact Hsc].
Qed.

Lemma terminal_owner_then_line tr g l :
  terminal_owner (tr ++ [EvTcsetpgrp g]) = Some g /\
  terminal_owner ((tr ++ [EvTcsetpgrp g]) ++ [EvStdout l]) = Some g /\
  last (stdout_lines ((tr ++ [EvTcsetpgrp g]) ++ [EvStdout l])) = Some l.
Proof.
  unfold terminal_owner, stdout_lines. rewrite !omap_app. simpl.
  rewrite app_nil_r. rewrite !last_snoc. auto.
Qed.

(** The loop of [fg] on the entry [idx]: when it returns, the terminal is
    back with the shell, and either the job was stopped again (status 148,
    the job stays, the line [[n] Stopped name] is printed last) or the job
    ended (status 0 or 1, the entry is taken out of the table). *)
Lemma fg_loop_outcome os fuel : forall idx sc s r s',
  sc = 0 \/ sc = 1 ->
  fg_loop os fuel idx sc s = (Some r, s') ->
  terminal_owner (trace s') = Some (os_getpgrp os) /\
  ((r = 148 /\
    job_identity <$> bg_jobs s' = job_identity <$> bg_jobs s /\
    last (stdout_lines (trace s'))
    = Some ("[" +:+ fmt_d (job_num (job_at s (Z.of_nat idx))) +:+ "] Stopped "
            +:+ cmd_name (job_at s (Z.of_nat idx)))) \/
   ((r = 0 \/ r = 1) /\
    job_identity <$> bg_jobs s' = delete idx (job_identity <$> bg_jobs s))).
Proof.
  induction fuel as [| fuel IH]; intros idx sc s r s' Hsc H; simpl in H; [discriminate |].
  pose proof (fg_stages_job_identity os (Z.to_nat (npids (job_at s (Z.of_nat idx)))) 0
                (job_at s (Z.of_nat idx)) true false sc s) as [Hid Hjobs].
  pose proof (fg_stages_status os (Z.to_nat (npids (job_at s (Z.of_nat idx)))) 0
                (job_at s (Z.of_nat idx)) true false sc s Hsc) as Hst.
  destruct (fg_stages os _ 0 _ true false sc s) as [[[[job' all_done] stopped_] sc'] s1].
  simpl in Hid, Hjobs, Hst.
  assert (Hins : job_identity <$> <[idx := job']> (bg_jobs s1) = job_identity <$> bg_jobs s).
  { rewrite Hjobs. destruct (bg_jobs s !! idx) as [job |] eqn:El.
    - apply (identity_insert _ _ job); [exact El |].
      rewrite Hid. now rewrite (job_at_lookup s idx job El).
    - rewrite list_insert_ge; [reflexivity |]. now apply lookup_ge_None. }
  assert (Hat : job_identity (job_at (set_bg_jobs (<[idx := job']> (bg_jobs s1)) s1) (Z.of_nat idx))
                = job_identity (job_at s (Z.of_nat idx))).
  { unfold job_at. simpl. rewrite Nat2Z.id, Hjobs.
    destruct (bg_jobs s !! idx) as [job |] eqn:El.
    - rewrite list_lookup_insert_eq by (eapply lookup_lt_Some, El). simpl.
      rewrite Hid. unfold job_at. now rewrite Nat2Z.id, El.
    - rewrite list_insert_ge by (now apply lookup_ge_None). now rewrite El. }
  destruct stopped_; [| destruct all_done].
  - injection H as <- <-. simpl.
    destruct (terminal_owner_then_line (trace s1) (os_getpgrp os)
                ("[" +:+ fmt_d (job_num job') +:+ "] Stopped " +:+ cmd_name job'))
      as (_ & Hown & Hlast).
    split; [exact Hown |]. left. split; [reflexivity |]. split; [exact Hins |].
    rewrite Hlast. unfold job_identity in Hid. injection Hid as Hnum _ _ Hname.
    now rewrite Hnum, Hname.
  - injection H as <- <-. simpl.
    split; [apply terminal_owner_snoc |]. right. split; [exact Hst |].
    rewrite list_fmap_delete. now rewrite Hins.
  - apply IH in H; [| exact Hst]. destruct H as [Hown Hcases].
    split; [exact Hown |]. simpl in Hcases.
    unfold job_identity in Hat. injection Hat as Hnum _ _ Hname.
    destruct Hcases as [(Hr & Hids & Hlast) | (Hr & Hids)].
    + left. split; [exact Hr |]. split; [now rewrite Hids |].
      rewrite Hlast. unfold job_at in *. simpl in *. now rewrite Hnum, Hname.
    + right. split; [exact Hr |]. now rewrite Hids, Hins.
Qed.

(** X7.  What [fg] can come to.  When [jobs_cmd_fg] returns, either the
    lookup failed (no such job, or a job whose first pid is not positive):
    status 1 and nothing but the line [No such job]; or the terminal is
    back with the process group of the shell and either the job was
    stopped again (status 148, the table keeps it and [[n] Stopped name]
    is the last line printed) or the job ended (status 0 or 1) and exactly
    the selected entry has left the table. *)
Theorem fg_outcome (os : OS) (fuel : nat) (jobnum : Z) (s : shell) (r : Z) (s' : shell) :
  jobs_cmd_fg os fuel jobnum s = (Some r, s') ->
  let idx := select_job_index jobnum s in
  let job := job_at s idx in
  (r = 1 /\ s' = emit (EvStdout "No such job") s /\ (idx < 0 \/ rdZ (pids job) 0 <= 0)) \/
  (0 <= idx /\ 0 < rdZ (pids job) 0 /\
   terminal_owner (trace s') = Some (os_getpgrp os) /\
   ((r = 148 /\
     job_identity <$> bg_jobs s' = job_identity <$> bg_jobs s /\
     last (stdout_lines (trace s'))
     = Some ("[" +:+ fmt_d (job_num job) +:+ "] Stopped " +:+ cmd_name job)) \/
    ((r = 0 \/ r = 1) /\
     job_identity <$> bg_jobs s' = delete (Z.to_nat idx) (job_identity <$> bg_jobs s)))).
Proof.
  intros H idx job. unfold jobs_cmd_fg in H. fold idx in H. fold job in H.
  destruct (Z.ltb_spec idx 0) as [Hneg | Hidx].
  { injection H as <- <-. left. auto. }
  destruct (Z.leb_spec (rdZ (pids job) 0) 0) as [Hp | Hp].
  { injection H as <- <-. left. auto. }
  right. split; [exact Hidx |]. split; [exact Hp |].
  apply fg_loop_outcome in H; [| now left].
  destruct H as [Hown Hcases]. split; [exact Hown |].
  assert (Hb : forall b : bool,
             bg_jobs (if b then emit (EvKill (- rdZ (pids job) 0) SIGCONT)
                                  (emit (EvTcsetpgrp (rdZ (pids job) 0))
                                     (emit (EvStdout (cmd_name job)) s))
                      else emit (EvTcsetpgrp (rdZ (pids job) 0))
                             (emit (EvStdout (cmd_name job)) s)) = bg_jobs s)
    by (intros []; reflexivity).
  unfold job_at in Hcases. rewrite !Hb in Hcases. rewrite Z2Nat.id in Hcases by exact Hidx.
  exact Hcases.
Qed.

Lemma fg_outcome_witness :
  let s' := snd (jobs_cmd_fg os_exit0 1 0 two_jobs_shell) in
  jobs_cmd_fg os_exit0 1 0 two_jobs_shell = (Some 0, s') /\
  terminal_owner (trace s') = Some 7 /\
  job_num <$> bg_jobs s' = [1].
Proof.
  split; [reflexivity |].
  destruct (fg_outcome os_exit0 1 0 two_jobs_shell 0
              (snd (jobs_cmd_fg os_exit0 1 0 two_jobs_shell)) eq_refl)
    as [(Hr & _) | (_ & _ & Hown & _)]; [discriminate Hr |].
  split; [exact Hown | reflexivity].
Defined.

(** * The wait loop of [fg], pass by pass *)

Lemma rdB_set_finished_other l i j b :
  i <> j -> rdB (<[i := b]> l) j = rdB l j.
Proof. intros H. unfold rdB. now rewrite list_lookup_insert_ne. Qed.

(** One pass of [fg] from stage [i] on: what it checks and what it leaves.
    The stages checked are exactly the unfinished ones, in order; the job
    keeps its pids; when the pass ends with [all_done] cleared and no stop
    seen, a stage is still unfinished. *)
Lemma fg_stages_pass os k : forall i job ad st sc s job' ad' st' sc' s',
  fg_stages os k i job ad st sc s = (job', ad', st', sc', s') ->
  pids job' = pids job /\ npids job' = npids job /\
  (forall j, (j < i)%nat -> rdB (finished job') j = rdB (finished job) j) /\
  (st = true -> st' = true) /\
  exists stages,
    StronglySorted Nat.lt stages /\
    Forall (fun j => (i <= j < i + k)%nat) stages /\
    trace s' = trace s ++ map (fun j => EvWaitpid (rdZ (pids job) j) fg_options) stages /\
    (forall j, (i <= j < i + k)%nat -> rdB (finished job) j = false -> In j stages) /\
    (ad' = false -> ad = false \/ stages <> []) /\
    (st' = true -> st = true \/ stages <> []) /\
    (ad' = false -> st' = false ->
     ad = false \/ exists j, (i <= j < i + k)%nat /\ rdB (finished job') j = false).
Proof.
  induction k as [| k IH]; intros i job ad st sc s job' ad' st' sc' s' H.
  - simpl in H. injection H as <- <- <- <- <-.
    repeat split; auto. exists []. simpl. rewrite app_nil_r.
    repeat split; auto; try constructor. intros j Hj. lia.
  - cbn [fg_stages] in H.
    destruct (rdB (finished job) i) eqn:Efin.
    + (* the stage is finished: no check *)
      destruct (IH _ _ _ _ _ _ _ _ _ _ _ H)
        as (Hp & Hn & Hkeep & Hst & stages & Hs & Hr & Ht & Hin & Ha & Hb & Hc).
      split; [exact Hp |]. split; [exact Hn |].
      split; [intros j Hj; apply Hkeep; lia |]. split; [exact Hst |].
      exists stages. split; [exact Hs |].
      split; [eapply Forall_impl; [exact Hr |]; simpl; intros; lia |].
      split; [exact Ht |].
      split; [| split; [exact Ha | split; [exact Hb |]]].
      * intros j Hj Hf. apply Hin; [| exact Hf].
        destruct (Nat.eq_dec j i) as [-> | Hne]; [congruence | lia].
      * intros H1 H2. destruct (Hc H1 H2) as [E | (j & Hj & Hf)]; [now left |].
        right. exists j. split; [lia | exact Hf].
    + (* the stage is checked *)
      assert (Hstep : forall job1 ad1 st1 sc1,
                 fg_stages os k (S i) job1 ad1 st1 sc1
                   (snd (waitpid os (rdZ (pids job) i) fg_options s))
                 = (job', ad', st', sc', s') ->
                 pids job1 = pids job -> npids job1 = npids job ->
                 (forall j, j <> i -> rdB (finished job1) j = rdB (finished job) j) ->
                 (st = true -> st1 = true) ->
                 (ad1 = false ->
                  ad = false \/ st1 = true \/ rdB (finished job1) i = false) ->
                 pids job' = pids job /\ npids job' = npids job /\
                 (forall j, (j < i)%nat -> rdB (finished job') j = rdB (finished job) j) /\
                 (st = true -> st' = true) /\
                 exists stages,
                   StronglySorted Nat.lt stages /\
                   Forall (fun j => (i <= j < i + S k)%nat) stages /\
                   trace s' = trace s
                              ++ map (fun j => EvWaitpid (rdZ (pids job) j) fg_options) stages /\
                   (forall j, (i <= j < i + S k)%nat ->
                              rdB (finished job) j = false -> In j stages) /\
                   (ad' = false -> ad = false \/ stages <> []) /\
                   (st' = true -> st = true \/ stages <> []) /\
                   (ad' = false -> st' = false ->
                    ad = false \/
                    exists j, (i <= j < i + S k)%nat /\ rdB (finished job') j = false)).
      { intros job1 ad1 st1 sc1 H1 Hp1 Hn1 Hf1 Hs1 Ha1.
        destruct (IH _ _ _ _ _ _ _ _ _ _ _ H1)
          as (Hp & Hn & Hkeep & Hst & stages & Hs & Hr & Ht & Hin & Ha & Hb & Hc).
        split; [congruence |]. split; [congruence |].
        split; [intros j Hj; rewrite Hkeep by lia; apply Hf1; lia |].
        split; [auto |].
        exists (i :: stages). split.
        { constructor; [exact Hs |].
          eapply Forall_impl; [exact Hr |]. simpl. intros; lia. }
        split.
        { constructor; [lia |]. eapply Forall_impl; [exact Hr |]. simpl. intros; lia. }
        split.
        { rewrite Ht. simpl. rewrite <- app_assoc. simpl. now rewrite Hp1. }
        split.
        { intros j Hj Hf. destruct (Nat.eq_dec j i) as [-> | Hne]; [now left |].
          right. apply Hin; [lia |]. rewrite Hf1 by exact Hne. exact Hf. }
        split; [intros _; right; discriminate |].
        split; [intros _; right; discriminate |].
        intros H2 H3. destruct (Hc H2 H3) as [E | (j & Hj & Hf)].
        - destruct (Ha1 E) as [E1 | [E1 | E1]]; [now left | |].
          + apply Hst in E1. congruence.
          + right. exists i. split; [lia |]. rewrite Hkeep by lia. exact E1.
        - right. exists j. split; [lia | exact Hf]. }
      unfold waitpid in Hstep. cbn [snd] in Hstep.
      unfold waitpid in H.
      destruct (os_waitpid os (nwait s) (rdZ (pids job) i) fg_options) as [| | ws].
      * apply (Hstep _ _ _ _ H); auto.
      * apply (Hstep _ _ _ _ H); auto.
      * destruct (WIFSTOPPED ws); [| destruct (WIFCONTINUED ws)].
        -- apply (Hstep _ _ _ _ H); auto.
        -- apply (Hstep _ _ _ _ H); auto.
        -- apply (Hstep _ _ _ _ H); auto.
           intros j Hj. simpl. now apply rdB_set_finished_other.
Qed.



(** The stages of the entry [idx] after a pass has been written back. *)
Lemma job_at_written s s1 idx job' :
  bg_jobs s1 = bg_jobs s ->
  pids job' = pids (job_at s (Z.of_nat idx)) ->
  npids job' = npids (job_at s (Z.of_nat idx)) ->
  let s3 := emit (EvNanosleep nap_nsec) (set_bg_jobs (<[idx := job']> (bg_jobs s1)) s1) in
  pids (job_at s3 (Z.of_nat idx)) = pids (job_at s (Z.of_nat idx)) /\
  npids (job_at s3 (Z.of_nat idx)) = npids (job_at s (Z.of_nat idx)) /\
  ((idx < length (bg_jobs s))%nat -> job_at s3 (Z.of_nat idx) = job').
Proof.
  intros Hb Hp Hn s3. unfold job_at in *. simpl. rewrite Nat2Z.id in *. rewrite Hb.
  destruct (bg_jobs s !! idx) as [job |] eqn:El.
  - rewrite list_lookup_insert_eq by (eapply lookup_lt_Some, El). simpl. auto.
  - rewrite list_insert_ge by (now apply lookup_ge_None). rewrite El. simpl.
    split; [reflexivity |]. split; [reflexivity |].
    intros Hlt. apply lookup_ge_None in El. lia.
Qed.

(** The loop of [fg] on the entry [idx]: non-empty passes over the stages
    of the job, one sleep of 30 ms between two of them, then the hand-back
    of the terminal.  No check is made at all only when every stage of the
    job is already finished; a run cut short ends on a sleep. *)
Lemma fg_loop_passes os fuel : forall idx sc s r s',
  fg_loop os fuel idx sc s = (r, s') ->
  let job := job_at s (Z.of_nat idx) in
  exists body post,
    trace s' = trace s ++ body ++ post /\
    Forall (fun e => is_other_event e = true) post /\
    match r with
    | Some _ =>
      spaced_passes (pids job) (Z.to_nat (npids job)) body \/
      (body = [] /\
       forall j, (j < Z.to_nat (npids job))%nat -> rdB (finished job) j = true)
    | None =>
      post = [] /\
      (body = [] \/
       exists b, body = b ++ [EvNanosleep nap_nsec] /\
                 spaced_passes (pids job) (Z.to_nat (npids job)) b)
    end.
Proof.
  induction fuel as [| fuel IH]; intros idx sc s r s' H job.
  - simpl in H. injection H as <- <-. exists [], []. simpl. rewrite app_nil_r. auto.
  - cbn [fg_loop] in H. fold job in H.
    destruct (fg_stages os (Z.to_nat (npids job)) 0 job true false sc s)
      as [[[[job' ad'] st'] sc'] s1] eqn:E.
    destruct (fg_stages_pass os _ _ _ _ _ _ _ _ _ _ _ _ E)
      as (Hp & Hn & _ & _ & stages & Hs & Hr & Ht & Hin & Ha & Hb & Hc).
    assert (Hpass : stage_pass (pids job) (Z.to_nat (npids job))
                      (map (fun j => EvWaitpid (rdZ (pids job) j) fg_options) stages)).
    { exists stages. split; [exact Hs |]. split; [| reflexivity].
      eapply Forall_impl; [exact Hr |]. simpl. intros; lia. }
    assert (Hne : stages <> [] ->
                  map (fun j => EvWaitpid (rdZ (pids job) j) fg_options) stages <> []).
    { destruct stages; [contradiction | discriminate]. }
    pose proof (proj2 (fg_stages_job_identity os (Z.to_nat (npids job)) 0 job true false sc s))
      as Hjobs.
    rewrite E in Hjobs. simpl in Hjobs.
    destruct st'; [| destruct ad'].
    + (* a stage was stopped *)
      injection H as <- <-.
      exists (map (fun j => EvWaitpid (rdZ (pids job) j) fg_options) stages),
        [EvTcsetpgrp (os_getpgrp os);
         EvStdout ("[" +:+ fmt_d (job_num job') +:+ "] Stopped " +:+ cmd_name job')].
      simpl. rewrite Ht. split; [now rewrite <- !app_assoc |].
      split; [repeat constructor |]. left. apply spaced_last; [exact Hpass |].
      apply Hne. destruct (Hb eq_refl) as [Hx | Hx]; [discriminate | exact Hx].
    + (* every stage is finished *)
      injection H as <- <-.
      exists (map (fun j => EvWaitpid (rdZ (pids job) j) fg_options) stages),
        [EvTcsetpgrp (os_getpgrp os)].
      simpl. rewrite Ht. split; [now rewrite <- !app_assoc |].
      split; [repeat constructor |].
      destruct stages as [| j0 stages'] eqn:Est.
      * right. split; [reflexivity |]. intros j Hj.
        destruct (rdB (finished job) j) eqn:Ef; [reflexivity |].
        exfalso. apply (Hin j); [lia | exact Ef].
      * left. apply spaced_last; [exact Hpass | discriminate].
    + (* some stage is still running: sleep, then the next pass *)
      destruct (job_at_written s s1 idx job' Hjobs Hp Hn) as (Hp3 & Hn3 & Hj3).
      fold job in Hp3, Hn3.
      set (s3 := emit (EvNanosleep nap_nsec)
                   (set_bg_jobs (<[idx := job']> (bg_jobs s1)) s1)) in *.
      destruct (Hc eq_refl eq_refl) as [Hx | (j & Hj & Hf)]; [discriminate |].
      assert (Hws : stages <> []).
      { destruct (Ha eq_refl) as [Hx | Hx]; [discriminate | exact Hx]. }
      assert (Hin_range : (idx < length (bg_jobs s))%nat).
      { destruct (Nat.lt_ge_cases idx (length (bg_jobs s))) as [Hlt | Hge]; [exact Hlt |].
        exfalso. unfold job, job_at in Hj. rewrite Nat2Z.id in Hj.
        rewrite (lookup_ge_None_2 _ _ Hge) in Hj. simpl in Hj. lia. }
      specialize (Hj3 Hin_range).
      destruct (IH idx sc' s3 r s' H) as (body & post & Htr & Hpost & Hr').
      rewrite Hp3, Hn3, Hj3 in Hr'.
      exists (map (fun j => EvWaitpid (rdZ (pids job) j) fg_options) stages
              ++ EvNanosleep nap_nsec :: body), post.
      split.
      { rewrite Htr. unfold s3. simpl. rewrite Ht. rewrite <- !app_assoc. reflexivity. }
      split; [exact Hpost |].
      destruct r as [status |].
      * left. destruct Hr' as [Hsp | [_ Hall]].
        -- apply spaced_more; auto.
        -- rewrite (Hall j) in Hf by lia. discriminate.
      * destruct Hr' as [Hpn Hr']. split; [exact Hpn |]. right.
        destruct Hr' as [-> | (b & -> & Hsp)].
        -- exists (map (fun j => EvWaitpid (rdZ (pids job) j) fg_options) stages).
           split; [reflexivity |]. apply spaced_last; auto.
        -- exists (map (fun j => EvWaitpid (rdZ (pids job) j) fg_options) stages
                   ++ EvNanosleep nap_nsec :: b).
           split; [now rewrite <- app_assoc |]. apply spaced_more; auto.
Qed.


(** [fg] on the first of two running jobs, in a system where nothing
    changes state, cut after three passes: its waits and sleeps are three
    checks of pid 1001, each followed by a sleep of 30 ms. *)
Lemma fg_three_passes :
  trace (snd (jobs_cmd_fg os_quiet 3 1 two_jobs_shell))
  = [EvStdout "sleep 100 &"; EvTcsetpgrp 1001;
     EvWaitpid 1001 fg_options; EvNanosleep nap_nsec;
     EvWaitpid 1001 fg_options; EvNanosleep nap_nsec;
     EvWaitpid 1001 fg_options; EvNanosleep nap_nsec].
Proof. reflexivity. Qed.

(** * [fg] and [bg] with an argument that reads as zero: what they do *)

Lemma insert_last_entry {A} (l : list A) (x y : A) :
  <[length l := y]> (l ++ [x]) = l ++ [y].
Proof.
  induction l as [| a l IH]; simpl; [reflexivity |]. now rewrite IH.
Qed.

Lemma delete_last_entry {A} (l : list A) (x : A) : delete (length l) (l ++ [x]) = l.
Proof.
  induction l as [| a l IH]; simpl; [reflexivity |]. now rewrite IH.
Qed.

(** [bg] without a job number on a table that ends with [job]. *)
Lemma bg_most_recent s js job :
  bg_jobs s = js ++ [job] ->
  jobs_cmd_bg 0 s
  = if existsb (fun i => negb (rdB (finished job) i) && rdB (stopped job) i)
               (stage_indices job)
    then
      (0, emit (EvStdout ("[" +:+ fmt_d (job_num job) +:+ "] " +:+ cmd_name job +:+ " &"))
               (set_bg_jobs (js ++ [clear_stopped job])
                  (if rdZ (pids job) 0 >? 0
                   then emit (EvKill (- rdZ (pids job) 0) SIGCONT) s else s)))
    else (1, emit (EvStdout "Job already running") s).
Proof.
  intros E. destruct (most_recent_is_last s js job E) as [Hidx Hjob].
  unfold jobs_cmd_bg, select_job_index. simpl (0 =? 0). cbv iota.
  rewrite Hjob, Hidx.
  destruct (Z.ltb_spec (Z.of_nat (length js)) 0) as [Hneg | _]; [lia |].
  destruct (existsb _ (stage_indices job)); simpl; [| reflexivity].
  rewrite Nat2Z.id.
  assert (Hb : bg_jobs (if rdZ (pids job) 0 >? 0
                        then emit (EvKill (- rdZ (pids job) 0) SIGCONT) s else s)
               = js ++ [job]) by (destruct (rdZ (pids job) 0 >? 0); exact E).
  rewrite Hb, insert_last_entry. reflexivity.
Qed.

(** [fg] without a job number on a table that ends with [job], a job whose
    first pid is positive. *)
Lemma fg_most_recent os fuel s js job r s' :
  bg_jobs s = js ++ [job] ->
  0 < rdZ (pids job) 0 ->
  jobs_cmd_fg os fuel 0 s = (r, s') ->
  exists body post,
    trace s' = trace s
               ++ [EvStdout (cmd_name job); EvTcsetpgrp (rdZ (pids job) 0)]
               ++ (if existsb (fun i => rdB (stopped job) i) (stage_indices job)
                   then [EvKill (- rdZ (pids job) 0) SIGCONT] else [])
               ++ body ++ post /\
    Forall (fun e => is_other_event e = true) post /\
    match r with
    | Some status =>
      (spaced_passes (pids job) (Z.to_nat (npids job)) body \/
       (body = [] /\
        forall j, (j < Z.to_nat (npids job))%nat -> rdB (finished job) j = true)) /\
      terminal_owner (trace s') = Some (os_getpgrp os) /\
      ((status = 148 /\
        job_identity <$> bg_jobs s' = job_identity <$> (js ++ [job]) /\
        last (stdout_lines (trace s'))
        = Some ("[" +:+ fmt_d (job_num job) +:+ "] Stopped " +:+ cmd_name job)) \/
       ((status = 0 \/ status = 1) /\
        job_identity <$> bg_jobs s' = job_identity <$> js))
    | None =>
      post = [] /\
      (body = [] \/
       exists b, body = b ++ [EvNanosleep nap_nsec] /\
                 spaced_passes (pids job) (Z.to_nat (npids job)) b)
    end.
Proof.
  intros E Hpid H. destruct (most_recent_is_last s js job E) as [Hidx Hjob].
  unfold jobs_cmd_fg, select_job_index in H. simpl (0 =? 0) in H. cbv iota in H.
  rewrite Hjob, Hidx in H.
  destruct (Z.ltb_spec (Z.of_nat (length js)) 0) as [Hneg | _]; [lia |].
  destruct (Z.leb_spec (rdZ (pids job) 0) 0) as [Hle | _]; [lia |].
  cbv zeta in H. rewrite Nat2Z.id in H.
  set (pgid := rdZ (pids job) 0) in *.
  set (s1 := emit (EvTcsetpgrp pgid) (emit (EvStdout (cmd_name job)) s)) in *.
  set (cont := existsb (fun i => rdB (stopped job) i) (stage_indices job)) in *.
  set (s2 := if cont then emit (EvKill (- pgid) SIGCONT) s1 else s1) in *.
  assert (Hb2 : bg_jobs s2 = js ++ [job]) by (unfold s2; destruct cont; exact E).
  assert (Ht2 : trace s2 = trace s ++ [EvStdout (cmd_name job); EvTcsetpgrp pgid]
                           ++ (if cont then [EvKill (- pgid) SIGCONT] else [])).
  { unfold s2, s1. destruct cont; simpl; rewrite <- !app_assoc; [reflexivity |].
    simpl. reflexivity. }
  assert (Hjob2 : job_at s2 (Z.of_nat (length js)) = job).
  { unfold job_at. rewrite Nat2Z.id, Hb2, lookup_app_r by lia.
    now rewrite Nat.sub_diag. }
  destruct (fg_loop_passes os fuel _ _ _ _ _ H) as (body & post & Htr & Hpost & Hr).
  rewrite Hjob2 in Hr.
  exists body, post. split; [rewrite Htr, Ht2; now rewrite <- !app_assoc |].
  split; [exact Hpost |].
  destruct r as [status |]; [| exact Hr].
  split; [exact Hr |].
  destruct (fg_loop_outcome os fuel _ _ _ _ _ (or_introl eq_refl) H) as [Hown Hcases].
  split; [exact Hown |].
  rewrite Hjob2, Hb2 in Hcases.
  destruct Hcases as [Hstop | [Hst Hdel]]; [now left | right].
  split; [exact Hst |]. rewrite Hdel, fmap_app. simpl.
  rewrite <- (length_fmap job_identity js). apply delete_last_entry.
Qed.

(** C10.  An argument of [fg] or [bg] that [atoi] reads as 0 (such as
    [0] or [abc]) is the same as no argument.  [run_builtin] gives the same
    status and the same state as for the bare [fg] or [bg], which is the
    result of [jobs_cmd_fg] or [jobs_cmd_bg] called with the job number 0;
    the job chosen is the one at the most recent index, and when the table
    is not empty that is its last entry, the job registered last among
    those present.  On that job the command then acts.  [bg] sends SIGCONT
    to its process group, clears its stopped flags, prints [[n] name &] and
    returns 0 when one of its unfinished stages is stopped, and prints
    [Job already running] and returns 1 otherwise.  [fg], when the first
    pid of the job is positive, prints its name, hands the terminal to its
    process group, sends SIGCONT there if a stage is stopped, and then
    checks the stages of that job in passes; when it returns, the terminal
    is back with the shell and either the job was stopped again (status
    148, [[n] Stopped name] printed last, the table unchanged) or the job
    ended (status 0 or 1) and the table is left with the entries before
    it. *)
Theorem zero_argument_selects_most_recent (os : OS) (fuel : nat) (a : string)
    (rest : list string) (rs : list Redir) (s : shell) :
  atoi a = 0 ->
  run_builtin os fuel (mkCmd ("fg" :: a :: rest)%string rs) s
  = run_builtin os fuel (mkCmd ["fg"%string] rs) s /\
  run_builtin os fuel (mkCmd ("bg" :: a :: rest)%string rs) s
  = run_builtin os fuel (mkCmd ["bg"%string] rs) s /\
  select_job_index (jobnum_arg (a :: rest)) s = most_recent_job_index s /\
  (forall js job, bg_jobs s = js ++ [job] ->
     select_job_index (jobnum_arg (a :: rest)) s = Z.of_nat (length js) /\
     job_at s (select_job_index (jobnum_arg (a :: rest)) s) = job) /\
  run_builtin os fuel (mkCmd ("fg" :: a :: rest)%string rs) s = jobs_cmd_fg os fuel 0 s /\
  run_builtin os fuel (mkCmd ("bg" :: a :: rest)%string rs) s
  = (Some (fst (jobs_cmd_bg 0 s)), snd (jobs_cmd_bg 0 s)) /\
  (forall js job, bg_jobs s = js ++ [job] ->
     run_builtin os fuel (mkCmd ("bg" :: a :: rest)%string rs) s
     = (if existsb (fun i => negb (rdB (finished job) i) && rdB (stopped job) i)
                   (stage_indices job)
        then
          (Some 0,
           emit (EvStdout ("[" +:+ fmt_d (job_num job) +:+ "] " +:+ cmd_name job +:+ " &"))
                (set_bg_jobs (js ++ [clear_stopped job])
                   (if rdZ (pids job) 0 >? 0
                    then emit (EvKill (- rdZ (pids job) 0) SIGCONT) s else s)))
        else (Some 1, emit (EvStdout "Job already running") s)) /\
     (0 < rdZ (pids job) 0 ->
      forall r s',
        run_builtin os fuel (mkCmd ("fg" :: a :: rest)%string rs) s = (r, s') ->
        exists body post,
          trace s' = trace s
                     ++ [EvStdout (cmd_name job); EvTcsetpgrp (rdZ (pids job) 0)]
                     ++ (if existsb (fun i => rdB (stopped job) i) (stage_indices job)
                         then [EvKill (- rdZ (pids job) 0) SIGCONT] else [])
                     ++ body ++ post /\
          Forall (fun e => is_other_event e = true) post /\
          match r with
          | Some status =>
            (spaced_passes (pids job) (Z.to_nat (npids job)) body \/
             (body = [] /\
              forall j, (j < Z.to_nat (npids job))%nat -> rdB (finished job) j = true)) /\
            terminal_owner (trace s') = Some (os_getpgrp os) /\
            ((status = 148 /\
              job_identity <$> bg_jobs s' = job_identity <$> (js ++ [job]) /\
              last (stdout_lines (trace s'))
              = Some ("[" +:+ fmt_d (job_num job) +:+ "] Stopped " +:+ cmd_name job)) \/
             ((status = 0 \/ status = 1) /\
              job_identity <$> bg_jobs s' = job_identity <$> js))
          | None =>
            post = [] /\
            (body = [] \/
             exists b, body = b ++ [EvNanosleep nap_nsec] /\
                       spaced_passes (pids job) (Z.to_nat (npids job)) b)
          end)).
Proof.
  intros Ha.
  assert (Hfg : run_builtin os fuel (mkCmd ("fg" :: a :: rest)%string rs) s
                = jobs_cmd_fg os fuel 0 s).
  { unfold run_builtin. simpl. now rewrite Ha. }
  assert (Hbg : run_builtin os fuel (mkCmd ("bg" :: a :: rest)%string rs) s
                = (Some (fst (jobs_cmd_bg 0 s)), snd (jobs_cmd_bg 0 s))).
  { unfold run_builtin. simpl. rewrite Ha. now destruct (jobs_cmd_bg 0 s). }
  split; [unfold run_builtin; simpl; now rewrite Ha |].
  split; [unfold run_builtin; simpl; now rewrite Ha |].
  split; [unfold select_job_index; simpl; now rewrite Ha |].
  split.
  { intros js job E. unfold select_job_index. simpl. rewrite Ha. simpl.
    now apply most_recent_is_last. }
  split; [exact Hfg |]. split; [exact Hbg |].
  intros js job E. split.
  - rewrite Hbg, (bg_most_recent s js job E).
    now destruct (existsb _ (stage_indices job)).
  - intros Hpid r s' H. rewrite Hfg in H.
    exact (fg_most_recent os fuel s js job r s' E Hpid H).
Qed.

Lemma zero_argument_selects_most_recent_witness :
  atoi "abc" = 0 /\ atoi "0" = 0 /\
  run_builtin os_quiet 1 (mkCmd ["fg"; "abc"]%string []) two_jobs_shell
  = run_builtin os_quiet 1 (mkCmd ["fg"%string] []) two_jobs_shell /\
  job_at two_jobs_shell (select_job_index (jobnum_arg ["0"%string]) two_jobs_shell)
  = sleep_job 3 /\
  run_builtin os_quiet 1 (mkCmd ["bg"; "0"]%string []) two_jobs_shell
  = (Some 1, emit (EvStdout "Job already running") two_jobs_shell).
Proof.
  split; [reflexivity | split; [reflexivity | split; [| split]]].
  - apply (zero_argument_selects_most_recent os_quiet 1 "abc" [] [] two_jobs_shell).
    reflexivity.
  - destruct (zero_argument_selects_most_recent os_quiet 1 "0" [] [] two_jobs_shell
                eq_refl) as (_ & _ & _ & H & _).
    apply (H [sleep_job 1] (sleep_job 3)). reflexivity.
  - destruct (zero_argument_selects_most_recent os_quiet 1 "0" [] [] two_jobs_shell
                eq_refl) as (_ & _ & _ & _ & _ & _ & H).
    exact (proj1 (H [sleep_job 1] (sleep_job 3) eq_refl)).
Defined.

(** [fg 0] on the table with the jobs 1 and 3, when every process exits
    with status 0: job 3 is the one brought to the foreground and taken
    out of the table. *)
Lemma fg_zero_takes_last_job :
  let '(r, s') := run_builtin os_exit0 1 (mkCmd ["fg"; "0"]%string []) two_jobs_shell in
  r = Some 0 /\
  trace s' = [EvStdout "sleep 100 &"; EvTcsetpgrp 1003;
              EvWaitpid 1003 fg_options; EvTcsetpgrp 7] /\
  bg_jobs s' = [sleep_job 1].
Proof. repeat split. Qed.

(** * Properties of the tokenizer (executor.c) *)

Lemma read_name_token p :
  let '(tok, rest) := read_name p in
  p = tok +:+ rest /\ all_chars is_name_char tok = true /\
  match rest with
  | String c _ => is_name_char c = false
  | EmptyString => True
  end.
Proof.
  induction p as [| c q IH]; simpl; [auto |].
  destruct (is_ws c || is_special c) eqn:E.
  - split; [reflexivity |]. split; [reflexivity |]. unfold is_name_char. now rewrite E.
  - destruct (read_name q) as [tok rest]. destruct IH as (Hq & Hall & Hrest).
    split; [simpl; now rewrite Hq |]. split; [| exact Hrest].
    simpl. unfold is_name_char at 1. now rewrite E.
Qed.

Lemma read_name_is_name p tok rest :
  read_name p = (tok, rest) -> is_empty tok = false -> is_name tok = true.
Proof.
  intros H He. pose proof (read_name_token p) as Ht. rewrite H in Ht.
  destruct Ht as (_ & Hall & _). unfold is_name. now rewrite He, Hall.
Qed.

(** The loop of [parse_segment] keeps the command within the arrays. *)
Lemma parse_segment_loop_bounds fuel : forall p av rs c,
  cmd_within_bounds (mkCmd av rs) ->
  parse_segment_loop fuel p av rs = Some c -> cmd_within_bounds c.
Proof.
  induction fuel as [| fuel IH]; intros p av rs c Hb H; simpl in H; [discriminate |].
  destruct (skip_ws p) as [| ch q]; [now injection H as <- |].
  destruct (ch =? "|")%char; [now injection H as <- |].
  destruct ((ch =? "<")%char || (ch =? ">")%char).
  - destruct (match q with
              | String c' q' => if negb (ch =? "<")%char && (c' =? ">")%char
                                then (true, q') else (false, q)
              | EmptyString => (false, q)
              end) as [is_append q1].
    destruct (read_name (skip_ws q1)) as [fname q2] eqn:Er.
    destruct (is_empty fname) eqn:Ee; [discriminate |].
    destruct (Z.geb_spec (Z.of_nat (length rs)) MAX_REDIRS) as [Hfull | Hroom];
      [discriminate |].
    apply IH in H; [exact H |].
    destruct Hb as (Ha & Hr & Hav & Hrs). unfold cmd_within_bounds, redir_count in *.
    simpl in *. rewrite length_app. simpl.
    split; [exact Ha |]. split; [lia |]. split; [exact Hav |].
    apply Forall_app. split; [exact Hrs |]. constructor; [| constructor].
    simpl. eapply read_name_is_name; eassumption.
  - change (if is_ws ch || is_special ch then (EmptyString, String ch q)
            else let '(tok, rest) := read_name q in (String ch tok, rest))
      with (read_name (String ch q)) in H.
    destruct (read_name (String ch q)) as [tok q1] eqn:Er.
    destruct (is_empty tok) eqn:Ee; [now injection H as <- |].
    destruct (Z.ltb_spec (Z.of_nat (length av)) (MAX_ARGS - 1)) as [Hroom | Hfull];
      [| discriminate].
    apply IH in H; [exact H |].
    destruct Hb as (Ha & Hr & Hav & Hrs). unfold cmd_within_bounds, redir_count in *.
    simpl in Ha, Hr, Hav, Hrs |- *. rewrite length_app. simpl.
    split; [lia |]. split; [exact Hr |]. split; [| exact Hrs].
    apply Forall_app. split; [exact Hav |]. constructor; [| constructor].
    eapply read_name_is_name; eassumption.
Qed.

Lemma parse_segment_bounds seg c :
  parse_segment seg = Some c -> cmd_within_bounds c.
Proof.
  unfold parse_segment. destruct (read_name (skip_ws seg)) as [tok p] eqn:Er.
  destruct (is_empty tok) eqn:Ee; [discriminate |].
  apply parse_segment_loop_bounds.
  unfold cmd_within_bounds, redir_count, MAX_ARGS, MAX_REDIRS. simpl.
  split; [lia |]. split; [lia |]. split; [| constructor].
  constructor; [| constructor]. eapply read_name_is_name; eassumption.
Qed.

Lemma parse_pipeline_loop_bounds fuel : forall p acc cs,
  Z.of_nat (length acc) <= MAX_CMDS -> Forall cmd_within_bounds acc ->
  parse_pipeline_loop fuel p acc = Some cs ->
  Z.of_nat (length cs) <= MAX_CMDS /\ Forall cmd_within_bounds cs.
Proof.
  induction fuel as [| fuel IH]; intros p acc cs Hlen Hacc H; simpl in H; [discriminate |].
  destruct p as [| ch p']; [injection H as <-; now split |].
  destruct (upto_bar (String ch p')) as [raw rest].
  destruct (is_empty (trim raw)); [discriminate |].
  destruct (Z.geb_spec (Z.of_nat (length acc)) MAX_CMDS) as [Hfull | Hroom]; [discriminate |].
  destruct (parse_segment (trim raw)) as [c |] eqn:Ec; [| discriminate].
  apply parse_segment_bounds in Ec.
  assert (Hlen' : Z.of_nat (length (acc ++ [c])) <= MAX_CMDS)
    by (rewrite length_app; simpl; lia).
  assert (Hacc' : Forall cmd_within_bounds (acc ++ [c]))
    by (apply Forall_app; split; [exact Hacc | constructor; [exact Ec | constructor]]).
  destruct rest as [| b q]; [now apply IH in H |].
  destruct (is_empty (skip_ws q)); [discriminate |]. now apply IH in H.
Qed.

(** X8.  A pipeline that [parse_pipeline] accepts fits the fixed arrays
    of the executor: between 1 and [MAX_CMDS] = 16 commands, each with a
    program name, at most [MAX_ARGS] - 1 = 63 words (so that the closing
    [NULL] has its slot) and at most [MAX_REDIRS] = 16 redirections; every
    word and every file name is non-empty and free of white space and of
    the characters [|<>&;]. *)
Theorem parsed_pipeline_within_bounds (first : string) (pl : Pipeline) :
  parse_pipeline first = Some pl ->
  1 <= count pl <= MAX_CMDS /\ Forall cmd_within_bounds (cmds pl).
Proof.
  unfold parse_pipeline.
  destruct (parse_pipeline_loop (S (String.length first)) first []) as [cs |] eqn:E;
    [| discriminate].
  apply parse_pipeline_loop_bounds in E; [| unfold MAX_CMDS; simpl; lia | constructor].
  destruct cs as [| c cs]; [discriminate |]. intros H. injection H as <-.
  destruct E as [Hlen Hall]. unfold count. simpl in *. split; [lia | exact Hall].
Qed.

Lemma parsed_pipeline_within_bounds_witness :
  parse_pipeline "cat < in.txt | wc -l >> out.txt"
  = Some (mkPipeline [mkCmd ["cat"%string] [mkRedir R_IN "in.txt"];
                      mkCmd ["wc"; "-l"]%string [mkRedir R_OUT_APPEND "out.txt"]]) /\
  1 <= 2 <= MAX_CMDS.
Proof.
  split; [reflexivity |].
  apply (parsed_pipeline_within_bounds "cat < in.txt | wc -l >> out.txt"
           (mkPipeline [mkCmd ["cat"%string] [mkRedir R_IN "in.txt"];
                        mkCmd ["wc"; "-l"]%string [mkRedir R_OUT_APPEND "out.txt"]])).
  reflexivity.
Defined.

(** ** Blank segments *)

Lemma append_cons c u x : String c u +:+ x = String c (u +:+ x).
Proof. reflexivity. Qed.

Lemma append_nil x : "" +:+ x = x.
Proof. reflexivity. Qed.

Lemma skip_ws_blanks blanks tail :
  all_chars is_ws blanks = true -> skip_ws (blanks +:+ tail) = skip_ws tail.
Proof.
  induction blanks as [| c b IH]; intros H; [reflexivity |].
  simpl in H. apply andb_prop in H as [Hc Hb].
  rewrite append_cons. simpl. rewrite Hc. now apply IH.
Qed.

Lemma is_ws_not_bar c : is_ws c = true -> (c =? "|")%char = false.
Proof.
  unfold is_ws. intros H.
  destruct (Ascii.eqb_spec c "|") as [-> | _]; [discriminate H | reflexivity].
Qed.

Lemma upto_bar_blanks blanks tail :
  all_chars is_ws blanks = true ->
  upto_bar (blanks +:+ String "|" tail) = (blanks, String "|" tail).
Proof.
  induction blanks as [| c b IH]; intros H; [reflexivity |].
  simpl in H. apply andb_prop in H as [Hc Hb].
  rewrite append_cons. simpl. rewrite (is_ws_not_bar c Hc). now rewrite IH.
Qed.

Lemma upto_bar_all_blanks blanks :
  all_chars is_ws blanks = true -> upto_bar blanks = (blanks, EmptyString).
Proof.
  induction blanks as [| c b IH]; intros H; [reflexivity |].
  simpl in H. apply andb_prop in H as [Hc Hb].
  simpl. rewrite (is_ws_not_bar c Hc). now rewrite IH.
Qed.

Lemma trim_blanks blanks : all_chars is_ws blanks = true -> trim blanks = EmptyString.
Proof.
  intros H. unfold trim.
  rewrite <- (append_empty_r blanks), skip_ws_blanks by exact H. reflexivity.
Qed.

Lemma upto_bar_before_bar u tail :
  exists raw rest,
    upto_bar (u +:+ String "|" tail) = (raw, String "|" rest) /\
    (rest = tail \/ exists u2, rest = u2 +:+ String "|" tail).
Proof.
  induction u as [| c u IH].
  - exists EmptyString, tail. split; [reflexivity | now left].
  - rewrite append_cons. simpl. destruct (Ascii.eqb_spec c "|") as [-> | _].
    + exists EmptyString, (u +:+ String "|" tail). split; [reflexivity |].
      right. now exists u.
    + destruct IH as (raw & rest & E & Hrest). rewrite E.
      exists (String c raw), rest. now split.
Qed.

(** The loop of [parse_pipeline] on a text that starts with a blank
    segment closed by a bar. *)
Lemma parse_pipeline_loop_blank_first fuel blanks tail acc :
  all_chars is_ws blanks = true ->
  parse_pipeline_loop fuel (blanks +:+ String "|" tail) acc = None.
Proof.
  intros Hb. destruct fuel as [| fuel]; [reflexivity |].
  pose proof (upto_bar_blanks blanks tail Hb) as Hu.
  destruct (blanks +:+ String "|" tail) as [| c p'] eqn:Ep.
  { destruct blanks; discriminate Ep. }
  cbn [parse_pipeline_loop]. rewrite Hu, (trim_blanks blanks Hb). reflexivity.
Qed.

(** The loop on a text in which a bar is followed by a blank segment. *)
Lemma parse_pipeline_loop_blank_later blanks post :
  all_chars is_ws blanks = true ->
  (post = EmptyString \/ exists v, post = String "|" v) ->
  forall fuel u acc,
    parse_pipeline_loop fuel (u +:+ String "|" (blanks +:+ post)) acc = None.
Proof.
  intros Hb Hpost. induction fuel as [| fuel IH]; intros u acc; [reflexivity |].
  destruct (upto_bar_before_bar u (blanks +:+ post)) as (raw & rest & Hu & Hrest).
  destruct (u +:+ String "|" (blanks +:+ post)) as [| c p'] eqn:Ep.
  { destruct u; discriminate Ep. }
  cbn [parse_pipeline_loop]. rewrite Hu.
  destruct (is_empty (trim raw)); [reflexivity |].
  destruct (Z.of_nat (length acc) >=? MAX_CMDS); [reflexivity |].
  destruct (parse_segment (trim raw)) as [cmd |]; [| reflexivity].
  destruct Hrest as [-> | (u2 & ->)].
  - destruct Hpost as [-> | (v & ->)].
    + rewrite skip_ws_blanks by exact Hb. reflexivity.
    + destruct (is_empty _); [reflexivity |].
      now apply parse_pipeline_loop_blank_first.
  - destruct (is_empty _); [reflexivity | apply IH].
Qed.

(** X9.  [parse_pipeline] refuses every text in which one of the segments
    between the bars is empty or blank: the empty or blank text, a text
    that starts or ends with a bar, and two bars with nothing but blanks
    in between. *)
Theorem blank_segment_rejected (pre blanks post : string) :
  all_chars is_ws blanks = true ->
  (pre = EmptyString \/ exists u, pre = u +:+ "|") ->
  (post = EmptyString \/ exists v, post = String "|" v) ->
  parse_pipeline (pre +:+ blanks +:+ post) = None.
Proof.
  intros Hb Hpre Hpost. unfold parse_pipeline.
  set (fuel := S _). clearbody fuel.
  assert (H : parse_pipeline_loop fuel (pre +:+ blanks +:+ post) [] = None
              \/ parse_pipeline_loop fuel (pre +:+ blanks +:+ post) [] = Some []).
  { destruct Hpre as [-> | (u & ->)].
    - rewrite append_nil. destruct Hpost as [-> | (v & ->)].
      + rewrite append_empty_r. destruct fuel as [| fuel]; [now left |].
        destruct blanks as [| c b] eqn:Eb; [now right |]. left.
        cbn [parse_pipeline_loop]. rewrite <- Eb in *.
        rewrite (upto_bar_all_blanks blanks Hb), (trim_blanks blanks Hb). reflexivity.
      + left. now apply parse_pipeline_loop_blank_first.
    - left. rewrite !append_assoc_string.
      change ("|" +:+ (blanks +:+ post)) with (String "|" (blanks +:+ post)).
      now apply parse_pipeline_loop_blank_later. }
  destruct H as [-> | ->]; reflexivity.
Qed.

Lemma blank_segment_rejected_witness :
  all_chars is_ws " " = true /\ parse_pipeline "ls | | wc" = None.
Proof.
  split; [reflexivity |].
  apply (blank_segment_rejected "ls |" " " "| wc");
    [reflexivity | right; now exists "ls "%string | right; now exists " wc"%string].
Defined.

(** ** Words come back as they were written *)

Lemma length_append (a b : string) :
  String.length (a +:+ b) = (String.length a + String.length b)%nat.
Proof.
  induction a as [| c a IH]; [reflexivity |].
  rewrite append_cons. simpl. now rewrite IH.
Qed.

Lemma join_argv_spaced w rest : join_argv (w :: rest) = w +:+ spaced rest.
Proof.
  revert w. induction rest as [| w' rest IH]; intros w.
  - simpl. now rewrite append_empty_r.
  - change (join_argv (w :: w' :: rest)) with (w +:+ " " +:+ join_argv (w' :: rest)).
    rewrite IH. reflexivity.
Qed.

Lemma spaced_length rest : (length rest <= String.length (spaced rest))%nat.
Proof.
  induction rest as [| w rest IH]; simpl; [lia |].
  rewrite !length_append. simpl. lia.
Qed.

Lemma read_name_word w tail :
  all_chars is_name_char w = true -> ends_name tail ->
  read_name (w +:+ tail) = (w, tail).
Proof.
  intros Hw Ht. induction w as [| c w IH].
  - rewrite append_nil. destruct tail as [| c t]; [reflexivity |].
    simpl in *. unfold is_name_char in Ht. apply negb_false_iff in Ht. now rewrite Ht.
  - simpl in Hw. apply andb_prop in Hw as [Hc Hw].
    rewrite append_cons. simpl. unfold is_name_char in Hc. apply negb_true_iff in Hc.
    rewrite Hc. now rewrite IH.
Qed.

Lemma spaced_ends_name rest : ends_name (spaced rest).
Proof. destruct rest; simpl; [exact I | reflexivity]. Qed.

Lemma skip_ws_word w tail : is_name w = true -> skip_ws (w +:+ tail) = w +:+ tail.
Proof.
  unfold is_name. destruct w as [| c w]; [discriminate |]. simpl.
  intros H. apply andb_prop in H as [Hc _]. rewrite append_cons. simpl.
  unfold is_name_char in Hc. apply negb_true_iff, orb_false_elim in Hc as [Hc _].
  now rewrite Hc.
Qed.

Lemma name_char_plain c :
  is_name_char c = true ->
  (c =? "|")%char = false /\ (c =? "<")%char = false /\ (c =? ">")%char = false.
Proof.
  unfold is_name_char, is_special. intros H.
  apply negb_true_iff, orb_false_elim in H as [_ H].
  repeat (apply orb_false_elim in H as [H ?]). auto.
Qed.

Lemma parse_segment_loop_words rest : forall fuel av,
  Forall (fun a => is_name a = true) rest ->
  (length rest < fuel)%nat ->
  Z.of_nat (length av) + Z.of_nat (length rest) <= MAX_ARGS - 1 ->
  parse_segment_loop fuel (spaced rest) av [] = Some (mkCmd (av ++ rest) []).
Proof.
  induction rest as [| w rest IH]; intros fuel av Hn Hf Hlen.
  - destruct fuel as [| fuel]; [simpl in Hf; lia |]. simpl. now rewrite app_nil_r.
  - destruct fuel as [| fuel]; [simpl in Hf; lia |].
    apply Forall_cons_1 in Hn as [Hw Hn].
    assert (Hskip : skip_ws (spaced (w :: rest)) = w +:+ spaced rest).
    { change (spaced (w :: rest)) with (String " " (w +:+ spaced rest)).
      cbn [skip_ws]. change (is_ws " ") with true. cbv iota. now apply skip_ws_word. }
    pose proof Hw as Hw'. unfold is_name in Hw'. apply andb_prop in Hw' as [Hne Hall].
    pose proof (read_name_word w (spaced rest) Hall (spaced_ends_name rest)) as Hr.
    cbn [parse_segment_loop]. rewrite Hskip.
    destruct w as [| c w]; [discriminate Hne |].
    rewrite append_cons in Hr |- *.
    simpl in Hall. apply andb_prop in Hall as [Hc _].
    destruct (name_char_plain c Hc) as (H1 & H2 & H3). rewrite H1, H2, H3.
    cbn [orb]. rewrite Hr. cbn [is_empty].
    simpl length in Hlen, Hf.
    destruct (Z.ltb_spec (Z.of_nat (length av)) (MAX_ARGS - 1)) as [_ | Hfull]; [| lia].
    rewrite IH; [now rewrite <- app_assoc | exact Hn | lia |].
    rewrite length_app. simpl. lia.
Qed.

Lemma rtrim_keeps_end (a b : string) :
  rtrim b = b -> b <> EmptyString -> rtrim (a +:+ b) = a +:+ b.
Proof.
  intros Hb Hne. induction a as [| c a IH]; [exact Hb |].
  rewrite append_cons. simpl. rewrite IH.
  destruct (a +:+ b) eqn:E; [| reflexivity].
  destruct a; [rewrite append_nil in E; contradiction | discriminate E].
Qed.

Lemma rtrim_name_chars w : forall c,
  all_chars is_name_char (String c w) = true -> rtrim (String c w) = String c w.
Proof.
  induction w as [| d w IH]; intros c H; simpl in H; apply andb_prop in H as [Hc Hw].
  - simpl. unfold is_name_char in Hc. apply negb_true_iff, orb_false_elim in Hc as [Hc _].
    now rewrite Hc.
  - change (rtrim (String c (String d w)))
      with (match rtrim (String d w) with
            | EmptyString => if is_ws c then EmptyString else String c EmptyString
            | String a r => String c (String a r)
            end).
    rewrite (IH d Hw). reflexivity.
Qed.

Lemma rtrim_name w : is_name w = true -> rtrim w = w.
Proof.
  unfold is_name. destruct w as [| c w]; [discriminate |].
  intros H. apply andb_prop in H as [_ H]. now apply rtrim_name_chars.
Qed.

Lemma rtrim_spaced w rest :
  is_name w = true -> Forall (fun a => is_name a = true) rest ->
  rtrim (w +:+ spaced rest) = w +:+ spaced rest.
Proof.
  revert w. induction rest as [| w' rest IH]; intros w Hw Hn.
  - simpl. rewrite append_empty_r. now apply rtrim_name.
  - apply Forall_cons_1 in Hn as [Hw' Hn].
    change (spaced (w' :: rest)) with (" " +:+ (w' +:+ spaced rest)).
    rewrite <- (append_assoc_string w " ").
    apply rtrim_keeps_end; [now apply IH |].
    destruct w'; [discriminate Hw' | discriminate].
Qed.

Lemma upto_bar_no_bar t :
  all_chars (fun c => negb (c =? "|")%char) t = true -> upto_bar t = (t, EmptyString).
Proof.
  induction t as [| c t IH]; intros H; [reflexivity |].
  simpl in H. apply andb_prop in H as [Hc Ht]. simpl.
  apply negb_true_iff in Hc. rewrite Hc. now rewrite IH.
Qed.

Lemma all_chars_append f a b :
  all_chars f (a +:+ b) = all_chars f a && all_chars f b.
Proof.
  induction a as [| c a IH]; [reflexivity |].
  rewrite append_cons. simpl. now rewrite IH, andb_assoc.
Qed.

Lemma all_chars_impl (f g : ascii -> bool) t :
  (forall c, f c = true -> g c = true) -> all_chars f t = true -> all_chars g t = true.
Proof.
  intros Hfg. induction t as [| c t IH]; [reflexivity |]. simpl. intros H.
  apply andb_prop in H as [Hc Ht]. now rewrite (Hfg c Hc), IH.
Qed.

Lemma spaced_no_bar rest :
  Forall (fun a => is_name a = true) rest ->
  all_chars (fun c => negb (c =? "|")%char) (spaced rest) = true.
Proof.
  induction 1 as [| w rest Hw Hn IH]; [reflexivity |]. simpl.
  rewrite !all_chars_append, IH, andb_true_r. simpl.
  unfold is_name in Hw. apply andb_prop in Hw as [_ Hall].
  eapply all_chars_impl; [| exact Hall].
  intros c Hc. destruct (name_char_plain c Hc) as [-> _]. reflexivity.
Qed.

(** X10.  Words written with single blanks between them come back as the
    argument vector.  For a non-empty list of at most [MAX_ARGS] - 1 = 63
    words, each free of white space and of the characters [|<>&;], the
    text made of the words separated by one blank is parsed into the
    pipeline of one command whose [argv] is the list of the words, with no
    redirection. *)
Theorem words_parse_back (w : string) (rest : list string) :
  Forall (fun a => is_name a = true) (w :: rest) ->
  Z.of_nat (length (w :: rest)) <= MAX_ARGS - 1 ->
  parse_pipeline (join_argv (w :: rest)) = Some (mkPipeline [mkCmd (w :: rest) []]).
Proof.
  intros Hn Hlen. pose proof Hn as Hn'. apply Forall_cons_1 in Hn' as [Hw Hrest].
  rewrite join_argv_spaced. unfold parse_pipeline.
  set (seg := w +:+ spaced rest).
  assert (Hbar : upto_bar seg = (seg, EmptyString)).
  { apply upto_bar_no_bar. unfold seg. rewrite all_chars_append.
    rewrite (spaced_no_bar rest Hrest), andb_true_r.
    unfold is_name in Hw. apply andb_prop in Hw as [_ Hall].
    eapply all_chars_impl; [| exact Hall].
    intros c Hc. destruct (name_char_plain c Hc) as [-> _]. reflexivity. }
  assert (Htrim : trim seg = seg).
  { unfold trim, seg. rewrite skip_ws_word by exact Hw. now apply rtrim_spaced. }
  assert (Hseg : parse_segment seg = Some (mkCmd (w :: rest) [])).
  { unfold parse_segment, seg. rewrite skip_ws_word by exact Hw.
    pose proof Hw as Hw'. unfold is_name in Hw'. apply andb_prop in Hw' as [Hne Hall].
    rewrite (read_name_word w (spaced rest) Hall (spaced_ends_name rest)).
    apply negb_true_iff in Hne. rewrite Hne.
    apply (parse_segment_loop_words rest _ [w]); [exact Hrest | |].
    - rewrite length_append. pose proof (spaced_length rest). lia.
    - simpl length in Hlen |- *. lia. }
  assert (Hs : exists c q, seg = String c q).
  { unfold seg. destruct w as [| c w]; [discriminate Hw |]. now exists c, (w +:+ spaced rest). }
  destruct Hs as (c & q & Es).
  assert (Hloop : parse_pipeline_loop (S (String.length seg)) seg []
                  = Some [mkCmd (w :: rest) []]).
  { rewrite Es at 1. simpl String.length. rewrite Es at 1.
    cbn [parse_pipeline_loop]. rewrite <- Es, Hbar, Htrim.
    rewrite Es at 1. cbn [is_empty]. rewrite Hseg. reflexivity. }
  now rewrite Hloop.
Qed.

Lemma words_parse_back_witness :
  Forall (fun a => is_name a = true) ["sleep"; "100"]%string /\
  parse_pipeline "sleep 100" = Some (mkPipeline [mkCmd ["sleep"; "100"]%string []]).
Proof.
  assert (H : Forall (fun a => is_name a = true) ["sleep"; "100"]%string)
    by (repeat constructor).
  split; [exact H |].
  apply (words_parse_back "sleep" ["100"%string] H). unfold MAX_ARGS. simpl. lia.
Defined.

(** * Properties of the command-group loop (executor.c) *)

Lemma advance_length n : forall p,
  String.length (advance n p) = (String.length p - n)%nat.
Proof.
  induction n as [| n IH]; intros [| c q]; simpl; try reflexivity; try lia.
  apply IH.
Qed.

Lemma skip_after_and_length p :
  (String.length (skip_after_and p) <= String.length p)%nat /\
  forall c, (String.length (skip_after_and (String c p)) <= S (String.length p))%nat.
Proof.
  induction p as [| d q [IH1 IH2]].
  - split; [simpl; lia |]. intros c. simpl.
    destruct (c =? ";")%char; [simpl; lia |]. destruct (c =? "&")%char; simpl; lia.
  - split; [apply IH2 |]. intros c.
    change (skip_after_and (String c (String d q)))
      with (if (c =? ";")%char then String c (String d q)
            else if (c =? "&")%char
                 then if (d =? "&")%char then skip_after_and q else String c (String d q)
                 else skip_after_and (String d q)).
    destruct (c =? ";")%char; [simpl; lia |].
    destruct (c =? "&")%char.
    + destruct (d =? "&")%char; [cbn [String.length]; lia | simpl; lia].
    + specialize (IH2 d). cbn [String.length]. lia.
Qed.

Lemma skip_semi_length p : (String.length (skip_semi p) <= String.length p)%nat.
Proof. destruct p as [| c q]; simpl; [lia |]. destruct (c =? ";")%char; simpl; lia. Qed.

Lemma is_empty_length t : is_empty t = false -> (1 <= String.length t)%nat.
Proof. destruct t; [discriminate | simpl; lia]. Qed.

(** Every turn of the loop of [execute_first_cmd_group] moves [p]
    forward, so the loop ends: a bound above the length of the text is
    never used up, and the result does not depend on it. *)
Lemma exec_loop_fuel os fuel : forall k1 k2 p last s,
  (String.length p < k1)%nat -> (String.length p < k2)%nat ->
  exec_loop os fuel k1 p last s = exec_loop os fuel k2 p last s.
Proof.
  induction k1 as [| k1 IH]; intros k2 p last s H1 H2; [lia |].
  destruct k2 as [| k2]; [lia |].
  destruct p as [| c q]; [reflexivity |].
  cbn [exec_loop]. destruct (scan_delim (String c q)) as [n d].
  set (raw := String.substring 0 n (String c q)).
  destruct (is_empty (trim raw)) eqn:Ee.
  - apply IH; rewrite advance_length; simpl in *; lia.
  - destruct (match parse_pipeline (trim raw) with
              | Some pl => execute_group os fuel pl (trim raw)
                             match d with DAmp => true | _ => false end last s
              | None => (Some last, emit (EvStdout "Invalid Syntax!") s)
              end) as [[st |] s1]; [| reflexivity].
    apply is_empty_length in Ee.
    set (e := (leading_ws raw + String.length (trim raw))%nat).
    assert (He : (1 <= e)%nat) by (unfold e; lia).
    assert (Hadv : forall j, (String.length (advance (e + j) (String c q))
                              < String.length (String c q))%nat).
    { intros j. rewrite advance_length. simpl. lia. }
    pose proof (Hadv 0%nat) as H0. rewrite Nat.add_0_r in H0.
    pose proof (proj1 (skip_after_and_length (advance (e + 2) (String c q)))) as Hs.
    pose proof (skip_semi_length (skip_after_and (advance (e + 2) (String c q)))) as Hs'.
    pose proof (Hadv 1%nat). pose proof (Hadv 2%nat).
    apply IH; destruct d; try destruct (negb (st =? 0)); lia.
Qed.

Lemma scan_delim_plain left tail :
  all_chars is_plain_char left = true ->
  scan_delim (left +:+ tail)
  = ((String.length left + fst (scan_delim tail))%nat, snd (scan_delim tail)).
Proof.
  induction left as [| c l IH]; intros H.
  - rewrite append_nil. simpl. now destruct (scan_delim tail).
  - simpl in H. apply andb_prop in H as [Hc Hl]. rewrite append_cons. simpl.
    unfold is_plain_char in Hc. apply negb_true_iff, orb_false_elim in Hc as [H1 H2].
    rewrite H1, H2, (IH Hl). reflexivity.
Qed.

Lemma substring_prefix (a b : string) :
  String.substring 0 (String.length a) (a +:+ b) = a.
Proof.
  induction a as [| c a IH]; [destruct b; reflexivity |].
  rewrite append_cons. simpl. now rewrite IH.
Qed.

Lemma advance_prefix (a b : string) n :
  advance (String.length a + n) (a +:+ b) = advance n b.
Proof. induction a as [| c a IH]; [reflexivity |]. rewrite append_cons. simpl. exact IH. Qed.

Lemma skip_ws_length t : (String.length (skip_ws t) <= String.length t)%nat.
Proof.
  induction t as [| c q IH]; simpl; [lia |]. destruct (is_ws c); simpl; lia.
Qed.

Lemma rtrim_length t : (String.length (rtrim t) <= String.length t)%nat.
Proof.
  induction t as [| c q IH]; simpl; [lia |].
  destruct (rtrim q) as [| d r]; [destruct (is_ws c); simpl; lia | simpl in *; lia].
Qed.

(** A text that trimming leaves alone starts and ends with something
    other than white space. *)
Lemma trimmed_text left :
  trim left = left -> is_empty left = false ->
  skip_ws left = left /\ rtrim left = left /\ leading_ws left = 0%nat.
Proof.
  intros Ht Hne. destruct left as [| c q]; [discriminate |].
  destruct (is_ws c) eqn:Ec.
  - exfalso. unfold trim in Ht. simpl in Ht. rewrite Ec in Ht.
    pose proof (rtrim_length (skip_ws q)). pose proof (skip_ws_length q).
    apply (f_equal String.length) in Ht. simpl in Ht. lia.
  - assert (Hs : skip_ws (String c q) = String c q) by (simpl; now rewrite Ec).
    unfold trim in Ht. rewrite Hs in Ht.
    split; [exact Hs |]. split; [exact Ht |]. simpl. now rewrite Ec.
Qed.

Lemma rtrim_blank_end (a : string) :
  rtrim a = a -> is_empty a = false -> rtrim (a +:+ " ") = a.
Proof.
  induction a as [| c a IH]; intros Ha Hne; [discriminate |].
  rewrite append_cons.
  destruct a as [| d a'].
  - rewrite append_nil. simpl in Ha |- *. destruct (is_ws c); [discriminate | reflexivity].
  - change (rtrim (String c (String d a' +:+ " ")))
      with (match rtrim (String d a' +:+ " ") with
            | EmptyString => if is_ws c then EmptyString else String c EmptyString
            | String x r => String c (String x r)
            end).
    assert (Hd : rtrim (String d a') = String d a').
    { change (rtrim (String c (String d a')))
        with (match rtrim (String d a') with
              | EmptyString => if is_ws c then EmptyString else String c EmptyString
              | String x r => String c (String x r)
              end) in Ha.
      destruct (rtrim (String d a')) as [| x r] eqn:E.
      - destruct (is_ws c); discriminate Ha.
      - congruence. }
    rewrite (IH Hd eq_refl). reflexivity.
Qed.

(** One turn of the loop on a group [left] followed by at most one blank
    and a delimiter: the group is run, and the scan goes on from the end of
    the trimmed group plus the width of the delimiter. *)
Lemma exec_loop_group os fuel k left (blank : bool) tail last s :
  all_chars is_plain_char left = true ->
  trim left = left -> is_empty left = false ->
  fst (scan_delim tail) = 0%nat ->
  let d := snd (scan_delim tail) in
  let rest := (if blank then String " " tail else tail) in
  exec_loop os fuel (S k) (left +:+ rest) last s
  = let '(r, s1) :=
      match parse_pipeline left with
      | Some pl => execute_group os fuel pl left
                     (match d with DAmp => true | _ => false end) last s
      | None => (Some last, emit (EvStdout "Invalid Syntax!") s)
      end in
    match r with
    | None => (None, s1)
    | Some st =>
      let p1 := advance (match d with DSemi | DAmp => 1 | DAnd => 2 | DEnd => 0 end) rest in
      let p2 := match d with
                | DAnd => if negb (st =? 0) then skip_semi (skip_after_and p1) else p1
                | _ => p1
                end in
      exec_loop os fuel k p2 st s1
    end.
Proof.
  intros Hplain Htrim Hne Hscan d rest.
  destruct (trimmed_text left Htrim Hne) as (Hskip & Hrtrim & Hlead).
  assert (Hs : scan_delim (left +:+ rest)
               = ((String.length left + (if blank then 1 else 0))%nat, d)).
  { unfold rest. destruct blank.
    - change (String " " tail) with (" " +:+ tail).
      rewrite <- append_assoc_string, scan_delim_plain.
      + rewrite Hscan, length_append. simpl. now rewrite Nat.add_0_r.
      + rewrite all_chars_append, Hplain. reflexivity.
    - rewrite scan_delim_plain by exact Hplain. rewrite Hscan. reflexivity. }
  assert (Hraw : String.substring 0 (String.length left + (if blank then 1 else 0))
                   (left +:+ rest) = if blank then left +:+ " " else left).
  { unfold rest. destruct blank.
    - change (String " " tail) with (" " +:+ tail).
      rewrite <- append_assoc_string.
      replace (String.length left + 1)%nat with (String.length (left +:+ " "))
        by (rewrite length_append; reflexivity).
      apply substring_prefix.
    - rewrite Nat.add_0_r. apply substring_prefix. }
  assert (Hseg : trim (if blank then left +:+ " " else left) = left).
  { destruct blank; [| exact Htrim]. unfold trim.
    destruct left as [| c q]; [discriminate |].
    rewrite append_cons. simpl in Hskip |- *.
    destruct (is_ws c) eqn:Ec.
    - pose proof (skip_ws_length q). apply (f_equal String.length) in Hskip.
      simpl in Hskip. lia.
    - rewrite <- append_cons. now apply rtrim_blank_end. }
  assert (Hlw : leading_ws (if blank then left +:+ " " else left) = 0%nat).
  { destruct blank; [| exact Hlead].
    destruct left as [| c q]; [discriminate |]. rewrite append_cons.
    simpl in Hlead |- *. destruct (is_ws c); [discriminate | reflexivity]. }
  assert (Ha : forall j, advance (String.length left + j) (left +:+ rest) = advance j rest)
    by (intros j; apply advance_prefix).
  assert (Ha0 : advance (0 + String.length left) (left +:+ rest) = advance 0 rest)
    by (rewrite Nat.add_comm; apply Ha).
  destruct (left +:+ rest) as [| c q] eqn:Ep.
  { destruct left; [discriminate Hne | discriminate Ep]. }
  cbn [exec_loop]. rewrite Hs, Hraw, Hseg, Hlw, Hne.
  destruct (match parse_pipeline left with
            | Some pl => execute_group os fuel pl left
                           match d with DAmp => true | _ => false end last s
            | None => (Some last, emit (EvStdout "Invalid Syntax!") s)
            end) as [[st |] s1]; [| reflexivity].
  rewrite !Ha, Ha0.
  destruct d; reflexivity.
Qed.

Lemma skip_after_and_plain right :
  all_chars is_plain_char right = true -> skip_after_and right = EmptyString.
Proof.
  induction right as [| c q IH]; intros H; [reflexivity |].
  simpl in H. apply andb_prop in H as [Hc Hq].
  unfold is_plain_char in Hc. apply negb_true_iff, orb_false_elim in Hc as [H1 H2].
  change (skip_after_and (String c q))
    with (if (c =? ";")%char then String c q
          else if (c =? "&")%char
               then match q with
                    | String c' q' => if (c' =? "&")%char then skip_after_and q' else String c q
                    | EmptyString => String c q
                    end
               else skip_after_and q).
  rewrite H1, H2. now apply IH.
Qed.

Lemma exec_loop_end os fuel k last s :
  exec_loop os fuel k EmptyString last s = (Some last, s).
Proof. destruct k; reflexivity. Qed.

(** X11.  [&&] written directly after a command short-circuits.  When the
    group [left] (no [;] or [&] in it, no white space around it) parses and
    runs to a status other than 0, nothing of the text after [&&] is run,
    as long as that text holds no [;] and no [&]: the line returns the
    status of [left] in the state that [left] leaves. *)
Theorem failed_left_side_skips_right (os : OS) (fuel : nat) (left right : string)
    (pl : Pipeline) (st : Z) (s s1 : shell) :
  all_chars is_plain_char left = true ->
  trim left = left -> is_empty left = false ->
  all_chars is_plain_char right = true ->
  parse_pipeline left = Some pl ->
  execute_group os fuel pl left false 0 s = (Some st, s1) ->
  st <> 0 ->
  execute_first_cmd_group os fuel (left +:+ "&&" +:+ right) s = (Some st, s1).
Proof.
  intros Hplain Htrim Hne Hright Hparse Hrun Hst. unfold execute_first_cmd_group.
  change (left +:+ "&&" +:+ right) with (left +:+ String "&" (String "&" right)).
  rewrite (exec_loop_group os fuel _ left false (String "&" (String "&" right)) 0 s
             Hplain Htrim Hne eq_refl).
  assert (Hsd : scan_delim (String "&" (String "&" right)) = (0%nat, DAnd)) by reflexivity.
  cbv zeta. rewrite Hsd. cbn [snd].
  rewrite Hparse, Hrun. cbn [advance].
  destruct (Z.eqb_spec st 0) as [E | _]; [contradiction |]. cbn [negb].
  rewrite (skip_after_and_plain right Hright). apply exec_loop_end.
Qed.

Lemma failed_left_side_skips_right_witness :
  let s1 := snd (execute_group os_false_true_false 1
                   (mkPipeline [mkCmd ["false"%string] []]) "false" false 0 shell_init) in
  parse_pipeline "false" = Some (mkPipeline [mkCmd ["false"%string] []]) /\
  execute_group os_false_true_false 1 (mkPipeline [mkCmd ["false"%string] []])
    "false" false 0 shell_init = (Some 1, s1) /\
  execute_first_cmd_group os_false_true_false 1 "false&&echo hi" shell_init = (Some 1, s1).
Proof.
  split; [reflexivity |]. split; [reflexivity |].
  apply (failed_left_side_skips_right os_false_true_false 1 "false" "echo hi"
           (mkPipeline [mkCmd ["false"%string] []]) 1 shell_init);
    try reflexivity. lia.
Defined.

(** X12.  [&&] written after one blank does not short-circuit: the line
    [left &&right] is executed exactly as [left;right], whatever status
    the group [left] returns.  (The scan resumes two characters after the
    end of the trimmed group, that is on the second [&], which is then
    read as an empty background group.) *)
Theorem and_after_blank_is_sequence (os : OS) (fuel : nat) (left right : string)
    (s : shell) :
  all_chars is_plain_char left = true ->
  trim left = left -> is_empty left = false ->
  no_amp_first right = true ->
  execute_first_cmd_group os fuel (left +:+ " &&" +:+ right) s
  = execute_first_cmd_group os fuel (left +:+ ";" +:+ right) s.
Proof.
  intros Hplain Htrim Hne Hright. unfold execute_first_cmd_group.
  change (left +:+ " &&" +:+ right)
    with (left +:+ String " " (String "&" (String "&" right))).
  change (left +:+ ";" +:+ right) with (left +:+ String ";" right).
  rewrite (exec_loop_group os fuel _ left true (String "&" (String "&" right)) 0 s
             Hplain Htrim Hne eq_refl).
  rewrite (exec_loop_group os fuel _ left false (String ";" right) 0 s
             Hplain Htrim Hne eq_refl).
  assert (Hsd : scan_delim (String "&" (String "&" right)) = (0%nat, DAnd)) by reflexivity.
  assert (Hsd' : scan_delim (String ";" right) = (0%nat, DSemi)) by reflexivity.
  cbv zeta. rewrite Hsd, Hsd'. cbn [snd].
  destruct (match parse_pipeline left with
            | Some pl => execute_group os fuel pl left false 0 s
            | None => (Some 0, emit (EvStdout "Invalid Syntax!") s)
            end) as [[st |] s1]; [| reflexivity].
  cbn [advance].
  assert (Hskip : skip_semi (skip_after_and (String "&" right)) = String "&" right).
  { change (skip_after_and (String "&" right))
      with (match right with
            | String c' q' => if (c' =? "&")%char then skip_after_and q' else String "&" right
            | EmptyString => String "&" right
            end).
    destruct right as [| c' q']; [reflexivity |]. simpl in Hright.
    apply negb_true_iff in Hright. now rewrite Hright. }
  assert (Hp2 : (if negb (st =? 0) then skip_semi (skip_after_and (String "&" right))
                 else String "&" right) = String "&" right)
    by (destruct (negb (st =? 0)); [exact Hskip | reflexivity]).
  rewrite Hp2.
  assert (Hblank : forall k, exec_loop os fuel (S k) (String "&" right) st s1
                             = exec_loop os fuel k right st s1).
  { intros k. cbn [exec_loop].
    destruct (scan_delim (String "&" right)) as [n d] eqn:Es.
    assert (Hn : n = 0%nat).
    { simpl in Es. destruct right as [| c' q']; [now injection Es |].
      destruct (c' =? "&")%char; now injection Es. }
    subst n. reflexivity. }
  assert (Hl1 : String.length (left +:+ String " " (String "&" (String "&" right)))
                = S (String.length left + 2 + String.length right))
    by (rewrite length_append; simpl; lia).
  assert (Hl2 : String.length (left +:+ String ";" right)
                = (String.length left + 1 + String.length right)%nat)
    by (rewrite length_append; simpl; lia).
  rewrite Hl1, Hl2, Hblank. apply is_empty_length in Hne.
  apply exec_loop_fuel; lia.
Qed.

Lemma and_after_blank_is_sequence_witness :
  trim "false" = "false"%string /\
  execute_first_cmd_group os_false_true_false 1 "false && true" shell_init
  = execute_first_cmd_group os_false_true_false 1 "false; true" shell_init.
Proof.
  split; [reflexivity |].
  apply (and_after_blank_is_sequence os_false_true_false 1 "false" " true" shell_init);
    reflexivity.
Defined.

(** * Properties of [hop] and [cd] (hop.c) *)

Lemma change_dir_to_failed D target record_prev st :
  Hop.os_chdir D (Hop.cwd st) target = None ->
  Hop.change_dir_to D target record_prev st = (0, Hop.puts "No such directory!" st).
Proof. intros H. unfold Hop.change_dir_to. now rewrite H. Qed.

Lemma go_home_cases D st :
  Hop.go_home D st = st \/
  (exists h, Hop.prompt_home D = Some h /\
             Hop.go_home D st = snd (Hop.change_dir_to D h true st)).
Proof.
  unfold Hop.go_home. destruct (Hop.prompt_home D) as [h |]; [| now left].
  destruct (is_empty h); [now left | right; now exists h].
Qed.

(** X13.  The status of [cd].  [run_cd_argv] returns 1 in exactly two
    cases besides an empty argument vector: more than one argument, and
    [cd -] when no previous directory is recorded; each prints its message
    and changes no directory.  In every other case it returns 0, also when
    the directory does not exist. *)
Theorem cd_status (D : Hop.Dirs) (name : string) (args : list string) (st : Hop.state) :
  let r := Hop.run_cd_argv D (name :: args) st in
  (fst r = 0 \/ fst r = 1) /\
  (fst r = 1 <->
   (2 <= length args)%nat \/ (args = ["-"%string] /\ Hop.hop_prev_cwd_available st = false)) /\
  (fst r = 1 ->
   Hop.cwd (snd r) = Hop.cwd st /\ Hop.prev_cwd (snd r) = Hop.prev_cwd st /\
   Hop.prev_cwd_set (snd r) = Hop.prev_cwd_set st /\
   exists line, Hop.out (snd r) = Hop.out st ++ [line]).
Proof.
  destruct args as [| arg [| arg2 rest]].
  - simpl. split; [now left |]. split.
    + split; [discriminate |]. intros [H | [H _]]; [simpl in H; lia | discriminate].
    + discriminate.
  - cbn [Hop.run_cd_argv].
    destruct (String.eqb_spec arg "~") as [-> | H1].
    { simpl. split; [now left |]. split; [| discriminate].
      split; [discriminate |]. intros [H | [H _]]; [simpl in H; lia | discriminate]. }
    destruct (String.eqb_spec arg ".") as [-> | H2].
    { simpl. split; [now left |]. split; [| discriminate].
      split; [discriminate |]. intros [H | [H _]]; [simpl in H; lia | discriminate]. }
    destruct (String.eqb_spec arg "..") as [-> | H3].
    { simpl. split; [now left |]. split; [| discriminate].
      split; [discriminate |]. intros [H | [H _]]; [simpl in H; lia | discriminate]. }
    destruct (String.eqb_spec arg "-") as [-> | H4].
    { destruct (Hop.hop_prev_cwd_available st) eqn:Ea; simpl.
      - split; [now left |]. split; [| discriminate].
        split; [discriminate |]. intros [H | [_ H]]; [simpl in H; lia | discriminate].
      - split; [now right |]. split; [split; auto |].
        intros _. repeat split. now exists "No such directory!"%string. }
    simpl. split; [now left |]. split; [| discriminate].
    split; [discriminate |]. intros [H | [H _]]; [simpl in H; lia | congruence].
  - simpl. split; [now right |]. split.
    + split; [intros _; left; lia | reflexivity].
    + intros _. repeat split. now exists "cd: too many arguments"%string.
Qed.

Lemma strncpy_buf_short n t : (String.length t < n)%nat -> strncpy_buf n t = t.
Proof.
  unfold strncpy_buf. intros H.
  assert (G : forall m, (String.length t <= m)%nat -> String.substring 0 m t = t).
  { clear. induction t as [| c t IH]; intros [| m] Hm; simpl in *; try reflexivity; try lia.
    rewrite IH by lia. reflexivity. }
  apply G. lia.
Qed.

Lemma getcwd_named D st :
  Hop.os_getcwd_ok D (Hop.cwd st) = true ->
  (String.length (Hop.cwd st) < Hop.PATH_MAX)%nat ->
  Hop.getcwd D st = Some (Hop.cwd st).
Proof.
  intros Hok Hlen. unfold Hop.getcwd. rewrite Hok.
  destruct (Nat.ltb_spec (String.length (Hop.cwd st)) Hop.PATH_MAX); [reflexivity | lia].
Qed.

(** A successful move from a directory that has a name records that
    directory as the previous one. *)
Lemma change_dir_to_moved D target d st :
  Hop.os_getcwd_ok D (Hop.cwd st) = true ->
  (String.length (Hop.cwd st) < Hop.PATH_MAX)%nat ->
  is_empty (Hop.cwd st) = false ->
  Hop.os_chdir D (Hop.cwd st) target = Some d ->
  Hop.change_dir_to D target true st = (1, Hop.mkState d (Hop.cwd st) true (Hop.out st)).
Proof.
  intros Hok Hlen Hne Hch. unfold Hop.change_dir_to.
  rewrite (getcwd_named D st Hok Hlen), Hch. simpl. rewrite Hne. simpl.
  now rewrite strncpy_buf_short.
Qed.

Lemma swap_prev_moved D st :
  Hop.os_getcwd_ok D (Hop.cwd st) = true ->
  (String.length (Hop.cwd st) < Hop.PATH_MAX)%nat ->
  Hop.os_chdir D (Hop.cwd st) (Hop.prev_cwd st) = Some (Hop.prev_cwd st) ->
  Hop.swap_prev D st
  = Hop.mkState (Hop.prev_cwd st) (Hop.cwd st) (Hop.prev_cwd_set st) (Hop.out st).
Proof.
  intros Hok Hlen Hch. unfold Hop.swap_prev.
  rewrite (getcwd_named D st Hok Hlen), Hch. now rewrite strncpy_buf_short.
Qed.

(** X14.  There and back.  [hop dir -] (a directory other than [~], [.]
    and [-], then [-]) started in a directory [d0] that the system can name
    ends in [d0] again, with the directory reached in between recorded as
    the previous one and nothing printed, provided both moves succeed. *)
Theorem hop_there_and_back (D : Hop.Dirs) (dir d1 : string) (st : Hop.state) :
  dir <> "~"%string -> dir <> "."%string -> dir <> "-"%string ->
  is_empty (Hop.cwd st) = false ->
  Hop.os_getcwd_ok D (Hop.cwd st) = true ->
  (String.length (Hop.cwd st) < Hop.PATH_MAX)%nat ->
  Hop.os_getcwd_ok D d1 = true -> (String.length d1 < Hop.PATH_MAX)%nat ->
  Hop.os_chdir D (Hop.cwd st) dir = Some d1 ->
  Hop.os_chdir D d1 (Hop.cwd st) = Some (Hop.cwd st) ->
  Hop.run_hop_argv D ["hop"; dir; "-"]%string st
  = (0, Hop.mkState (Hop.cwd st) d1 true (Hop.out st)).
Proof.
  intros H1 H2 H3 Hne Hok0 Hlen0 Hok1 Hlen1 Hgo Hback.
  cbn [Hop.run_hop_argv fold_left]. f_equal.
  assert (Hfirst : Hop.hop_one D (Some dir) st
                   = Hop.mkState d1 (Hop.cwd st) true (Hop.out st)).
  { unfold Hop.hop_one.
    destruct (String.eqb_spec dir "~") as [E | _]; [contradiction |].
    destruct (String.eqb_spec dir ".") as [E | _]; [contradiction |].
    destruct (String.eqb_spec dir "-") as [E | _]; [contradiction |].
    destruct (String.eqb_spec dir "..") as [-> | _];
      now rewrite (change_dir_to_moved D _ d1 st Hok0 Hlen0 Hne Hgo). }
  rewrite Hfirst. unfold Hop.hop_one. cbn [String.eqb Ascii.eqb Bool.eqb].
  change ("-" =? "~")%string with false. change ("-" =? ".")%string with false.
  change ("-" =? "..")%string with false. change ("-" =? "-")%string with true.
  cbv iota. unfold Hop.hop_prev_cwd_available. cbn [Hop.prev_cwd_set Hop.prev_cwd].
  rewrite Hne. cbn [andb negb].
  rewrite swap_prev_moved; [reflexivity | exact Hok1 | exact Hlen1 | exact Hback].
Qed.

Lemma hop_there_and_back_witness :
  Hop.os_chdir small_world (Hop.cwd at_home) "/tmp" = Some "/tmp"%string /\
  Hop.run_hop_argv small_world ["hop"; "/tmp"; "-"]%string at_home
  = (0, Hop.mkState "/home/u" "/tmp" true []).
Proof.
  split; [reflexivity |].
  apply (hop_there_and_back small_world "/tmp" "/tmp" at_home);
    try discriminate; try reflexivity; unfold Hop.PATH_MAX; simpl; lia.
Defined.

Lemma hop_dash_step D st :
  Hop.hop_one D (Some "-"%string) st
  = if Hop.hop_prev_cwd_available st then Hop.swap_prev D st else st.
Proof. reflexivity. Qed.

(** X15.  [hop - -] comes back to where it started: when a previous
    directory is recorded and both directories can be named and entered,
    the two exchanges leave the working directory, the recorded previous
    directory and the output as they were. *)
Theorem hop_back_twice (D : Hop.Dirs) (st : Hop.state) :
  Hop.hop_prev_cwd_available st = true ->
  is_empty (Hop.cwd st) = false ->
  Hop.os_getcwd_ok D (Hop.cwd st) = true ->
  (String.length (Hop.cwd st) < Hop.PATH_MAX)%nat ->
  Hop.os_getcwd_ok D (Hop.prev_cwd st) = true ->
  (String.length (Hop.prev_cwd st) < Hop.PATH_MAX)%nat ->
  Hop.os_chdir D (Hop.cwd st) (Hop.prev_cwd st) = Some (Hop.prev_cwd st) ->
  Hop.os_chdir D (Hop.prev_cwd st) (Hop.cwd st) = Some (Hop.cwd st) ->
  Hop.run_hop_argv D ["hop"; "-"; "-"]%string st = (0, st).
Proof.
  intros Hav Hne Hok0 Hlen0 Hok1 Hlen1 Hgo Hback.
  cbn [Hop.run_hop_argv fold_left]. rewrite !hop_dash_step. rewrite Hav.
  rewrite (swap_prev_moved D st Hok0 Hlen0 Hgo).
  unfold Hop.hop_prev_cwd_available in Hav |- *. cbn [Hop.prev_cwd_set Hop.prev_cwd].
  apply andb_prop in Hav as [Hset _]. rewrite Hset, Hne. cbn [andb negb].
  rewrite swap_prev_moved; cbn [Hop.cwd Hop.prev_cwd]; try assumption.
  destruct st as [c p b o]. simpl in *. now rewrite Hset.
Qed.

Lemma hop_back_twice_witness :
  Hop.hop_prev_cwd_available (Hop.mkState "/home/u" "/tmp" true []) = true /\
  Hop.run_hop_argv small_world ["hop"; "-"; "-"]%string (Hop.mkState "/home/u" "/tmp" true [])
  = (0, Hop.mkState "/home/u" "/tmp" true []).
Proof.
  split; [reflexivity |].
  apply (hop_back_twice small_world (Hop.mkState "/home/u" "/tmp" true []));
    try reflexivity; unfold Hop.PATH_MAX; simpl; lia.
Defined.

(** X16.  Without a recorded previous directory [hop -] is silent: any
    number of [-] arguments leaves the directory, the record and the output
    untouched and the status is 0 (where [cd -] prints [No such directory!]
    and returns 1). *)
Theorem hop_dash_without_previous (D : Hop.Dirs) (n : nat) (st : Hop.state) :
  Hop.hop_prev_cwd_available st = false ->
  Hop.run_hop_argv D ("hop"%string :: replicate (S n) "-"%string) st = (0, st) /\
  Hop.run_cd_argv D ["cd"; "-"]%string st = (1, Hop.puts "No such directory!" st).
Proof.
  intros Hav. split.
  - assert (Hfold : forall k, fold_left (fun s a => Hop.hop_one D (Some a) s)
                                (replicate k "-"%string) st = st).
    { induction k as [| k IH]; [reflexivity |].
      cbn [replicate fold_left]. rewrite hop_dash_step, Hav. exact IH. }
    change (Hop.run_hop_argv D ("hop"%string :: replicate (S n) "-"%string) st)
      with (0, fold_left (fun s a => Hop.hop_one D (Some a) s) (replicate (S n) "-"%string) st).
    now rewrite Hfold.
  - cbn [Hop.run_cd_argv]. change ("-" =? "~")%string with false.
    change ("-" =? ".")%string with false. change ("-" =? "..")%string with false.
    change ("-" =? "-")%string with true. cbv iota. now rewrite Hav.
Qed.

Lemma hop_dash_without_previous_witness :
  Hop.hop_prev_cwd_available at_home = false /\
  Hop.run_hop_argv small_world ["hop"; "-"; "-"; "-"]%string at_home = (0, at_home).
Proof.
  split; [reflexivity |].
  apply (hop_dash_without_previous small_world 2 at_home). reflexivity.
Defined.

(** X17.  [hop] takes its arguments one after the other: [hop a... b...]
    leaves the state that [hop a...] followed by [hop b...] leaves, for
    non-empty lists of arguments. *)
Theorem hop_arguments_in_sequence (D : Hop.Dirs) (name : string) (a b : list string)
    (st : Hop.state) :
  a <> [] -> b <> [] ->
  Hop.run_hop_argv D (name :: a ++ b) st
  = Hop.run_hop_argv D (name :: b) (snd (Hop.run_hop_argv D (name :: a) st)).
Proof.
  intros Ha Hb. destruct a as [| a1 a']; [contradiction |].
  destruct b as [| b1 b']; [contradiction |].
  change (Hop.run_hop_argv D (name :: (a1 :: a') ++ b1 :: b') st)
    with (0, fold_left (fun s x => Hop.hop_one D (Some x) s) ((a1 :: a') ++ b1 :: b') st).
  now rewrite fold_left_app.
Qed.

Lemma hop_arguments_in_sequence_witness :
  Hop.run_hop_argv small_world ["hop"; ".."; "/tmp"]%string at_home
  = Hop.run_hop_argv small_world ["hop"; "/tmp"]%string
      (snd (Hop.run_hop_argv small_world ["hop"; ".."]%string at_home)).
Proof.
  apply (hop_arguments_in_sequence small_world "hop" [".."%string] ["/tmp"%string] at_home);
    discriminate.
Defined.

(** * Properties of [ping] (ping.c) *)

Lemma after_digits_empty s :
  is_empty (Ping.after_digits s) = true -> all_chars isdigit s = true.
Proof.
  induction s as [| c r IH]; [reflexivity |]. simpl.
  destruct (isdigit c); [exact IH | discriminate].
Qed.

Lemma strtol10_by_sign s :
  strtol10 s
  = match skip_spaces s with
    | String c r =>
      if (c =? "-")%char then clamp_long (- digits_value r 0)
      else if (c =? "+")%char then clamp_long (digits_value r 0)
      else clamp_long (digits_value (String c r) 0)
    | EmptyString => clamp_long (digits_value EmptyString 0)
    end.
Proof.
  unfold strtol10. destruct (skip_spaces s) as [| c r]; [reflexivity |].
  destruct c as [[] [] [] [] [] [] [] []]; reflexivity.
Qed.

Lemma clamp_long_within v :
  (- LONG_MAX - 1 <=? v) && (v <=? LONG_MAX) = true ->
  clamp_long v = v /\ - LONG_MAX - 1 <= v <= LONG_MAX.
Proof.
  intros H. apply andb_prop in H as [H1 H2].
  apply Z.leb_le in H1, H2. unfold clamp_long, LONG_MAX in *. lia.
Qed.

(** What a successful conversion says about the text [u] after the
    sign. *)
Lemma convert_accepted neg u s :
  Ping.erange (Ping.convert neg u s) = false ->
  negb (Ping.converted (Ping.convert neg u s))
  || negb (is_empty (Ping.at_end (Ping.convert neg u s))) = false ->
  negb (is_empty u) && all_chars isdigit u = true /\
  - LONG_MAX - 1 <= Ping.value (Ping.convert neg u s) <= LONG_MAX /\
  Ping.value (Ping.convert neg u s)
  = clamp_long (if neg then - digits_value u 0 else digits_value u 0).
Proof.
  unfold Ping.convert. destruct u as [| c r]; [discriminate 2 |].
  destruct (isdigit c) eqn:Ed; [| discriminate 2].
  cbn [Ping.erange Ping.converted Ping.at_end Ping.value negb orb].
  intros Hr He. apply negb_false_iff in Hr, He.
  apply after_digits_empty in He.
  destruct (clamp_long_within _ Hr) as [Hc Hb].
  split; [now rewrite He |]. split; [now rewrite Hc | reflexivity].
Qed.

(** X18.  What [parse_int] accepts.  When it returns 1 the text is, after
    leading white space, an optional sign and then decimal digits up to
    its end; the number stored is within the range of [long] and is the
    value that [strtol10] gives for the text, the one [atoi] cuts to an
    [int]. *)
Theorem parse_int_accepts_numerals (s : string) (v : Z) :
  Ping.parse_int (Some s) = Some v ->
  Ping.is_numeral (skip_spaces s) = true /\
  - LONG_MAX - 1 <= v <= LONG_MAX /\
  v = strtol10 s.
Proof.
  unfold Ping.parse_int. destruct s as [| c0 s0]; [discriminate |].
  set (s := String c0 s0). rewrite strtol10_by_sign.
  unfold Ping.strtol, Ping.is_numeral.
  destruct (skip_spaces s) as [| c r].
  { discriminate. }
  destruct (c =? "-")%char eqn:Em; [| destruct (c =? "+")%char eqn:Ep].
  - destruct (Ping.erange _) eqn:Er; [discriminate |].
    destruct (negb _ || negb _) eqn:Ee; [discriminate |].
    intros H. injection H as <-.
    destruct (convert_accepted true r s Er Ee) as (H1 & H2 & H3). cbn [orb]. auto.
  - destruct (Ping.erange _) eqn:Er; [discriminate |].
    destruct (negb _ || negb _) eqn:Ee; [discriminate |].
    intros H. injection H as <-.
    destruct (convert_accepted false r s Er Ee) as (H1 & H2 & H3). cbn [orb]. auto.
  - destruct (Ping.erange _) eqn:Er; [discriminate |].
    destruct (negb _ || negb _) eqn:Ee; [discriminate |].
    intros H. injection H as <-.
    destruct (convert_accepted false (String c r) s Er Ee) as (H1 & H2 & H3). cbn [orb].
    apply andb_prop in H1 as [_ H1]. auto.
Qed.

Lemma parse_int_accepts_numerals_witness :
  Ping.parse_int (Some "-15"%string) = Some (-15) /\
  Ping.is_numeral (skip_spaces "-15") = true /\ -15 = strtol10 "-15".
Proof.
  split; [reflexivity |].
  destruct (parse_int_accepts_numerals "-15" (-15) eq_refl) as (H1 & _ & H3). now split.
Defined.

Lemma rem_32_range z : -31 <= Z.rem z 32 <= 31.
Proof.
  pose proof (Z.rem_bound_abs z 32 ltac:(lia)). lia.
Qed.

(** X19.  What [ping] does.  It calls [kill] at most once, and only for
    three arguments of which the second and third are numerals and the
    second is positive; the signal passed is the remainder of the number
    typed by 32 (between -31 and 31, negative for a negative number) and
    the process is the number typed cut to an [int].  The status is 0
    exactly when [kill] is called and succeeds, and the line printed then
    shows both numbers as they were typed.  In every other case the status
    is 1: without a call of [kill] the only output is
    [ping: Invalid Syntax!] (not three arguments, or a third that is no
    number) or [No such process found] (a second that is no number or is
    not positive); after a failed call it is [No such process found] for
    [ESRCH] and otherwise the line of [perror] on the error stream. *)
Theorem ping_outcome (kill : Z -> Z -> Ping.kill_ret) (argv : list string) :
  let '(st, tr) := Ping.run_ping_argv kill argv in
  (st = 0 \/ st = 1) /\
  ((st = 1 /\ filter is_kill tr = [] /\
    ((tr = [EvStdout "ping: Invalid Syntax!"] /\
      (length argv <> 3%nat \/
       exists a0 a1 a2 pid_l,
         argv = [a0; a1; a2] /\ Ping.parse_int (Some a1) = Some pid_l /\ 0 < pid_l /\
         Ping.parse_int (Some a2) = None)) \/
     (tr = [EvStdout "No such process found"] /\
      exists a0 a1 a2,
        argv = [a0; a1; a2] /\
        (Ping.parse_int (Some a1) = None \/
         exists pid_l, Ping.parse_int (Some a1) = Some pid_l /\ pid_l <= 0)))) \/
   exists a0 a1 a2 pid_l sig_l,
     argv = [a0; a1; a2] /\
     Ping.parse_int (Some a1) = Some pid_l /\ 0 < pid_l /\
     Ping.parse_int (Some a2) = Some sig_l /\
     filter is_kill tr = [EvKill (wrap_int pid_l) (Z.rem sig_l 32)] /\
     -31 <= Z.rem sig_l 32 <= 31 /\
     (st = 0 <-> kill (wrap_int pid_l) (Z.rem sig_l 32) = Ping.KillOk) /\
     (st = 0 ->
      stdout_lines tr = ["Sent signal " +:+ fmt_d sig_l +:+ " to process with pid "
                         +:+ fmt_d pid_l]) /\
     match kill (wrap_int pid_l) (Z.rem sig_l 32) with
     | Ping.KillOk =>
       st = 0 /\
       tr = [EvKill (wrap_int pid_l) (Z.rem sig_l 32);
             EvStdout ("Sent signal " +:+ fmt_d sig_l +:+ " to process with pid "
                       +:+ fmt_d pid_l)]
     | Ping.KillNoProcess =>
       st = 1 /\
       tr = [EvKill (wrap_int pid_l) (Z.rem sig_l 32); EvStdout "No such process found"]
     | Ping.KillFailed msg =>
       st = 1 /\
       tr = [EvKill (wrap_int pid_l) (Z.rem sig_l 32); EvStderr ("kill: " +:+ msg)]
     end).
Proof.
  unfold Ping.run_ping_argv.
  destruct argv as [| a0 [| a1 [| a2 [| a3 rest]]]];
    try (split; [now right |]; left; split; [reflexivity |]; split; [reflexivity |];
         left; split; [reflexivity |]; left; simpl; lia).
  destruct (Ping.parse_int (Some a1)) as [pid_l |] eqn:E1.
  2:{ split; [now right |]. left. split; [reflexivity |]. split; [reflexivity |].
      right. split; [reflexivity |]. exists a0, a1, a2. split; [reflexivity |].
      left. exact E1. }
  destruct (Z.leb_spec pid_l 0) as [Hp | Hp].
  { split; [now right |]. left. split; [reflexivity |]. split; [reflexivity |].
    right. split; [reflexivity |]. exists a0, a1, a2. split; [reflexivity |].
    right. exists pid_l. split; [exact E1 | exact Hp]. }
  destruct (Ping.parse_int (Some a2)) as [sig_l |] eqn:E2.
  2:{ split; [now right |]. left. split; [reflexivity |]. split; [reflexivity |].
      left. split; [reflexivity |]. right. exists a0, a1, a2, pid_l. auto. }
  pose proof (rem_32_range sig_l) as Hrange.
  assert (Hact : Ping.actual_signal sig_l = Z.rem sig_l 32).
  { unfold Ping.actual_signal. apply wrap_int_small. unfold INT_MAX. lia. }
  rewrite Hact.
  destruct (kill (wrap_int pid_l) (Z.rem sig_l 32)) eqn:Ek.
  - split; [now left |]. right. exists a0, a1, a2, pid_l, sig_l. rewrite Ek.
    repeat split; auto; lia.
  - split; [now right |]. right. exists a0, a1, a2, pid_l, sig_l. rewrite Ek.
    repeat split; auto; try lia; intros; congruence.
  - split; [now right |]. right. exists a0, a1, a2, pid_l, sig_l. rewrite Ek.
    repeat split; auto; try lia; intros; congruence.
Qed.

(** * Properties of the history (log.c) *)

Lemma omap_ext_in {A B} (f g : A -> option B) (l : list A) :
  (forall x, In x l -> f x = g x) -> omap f l = omap g l.
Proof.
  induction l as [| a l IH]; intros H; [reflexivity |].
  cbn [omap list_omap]. rewrite (H a) by now left.
  rewrite IH; [reflexivity |]. intros x Hx. apply H. now right.
Qed.

Lemma omap_all_some {A B} (f : A -> option B) (l : list A) :
  Forall (fun x => f x <> None) l -> length (omap f l) = length l.
Proof.
  induction 1 as [| a l Ha Hl IH]; [reflexivity |].
  cbn [omap list_omap]. destruct (f a); [| contradiction]. simpl. now rewrite IH.
Qed.

Lemma rd_insert_same es i s :
  (Z.to_nat i < length es)%nat -> Log.rd (<[Z.to_nat i := Some s]> es) i = Some s.
Proof. intros H. unfold Log.rd. now rewrite list_lookup_insert_eq. Qed.

Lemma rd_insert_other es i j s :
  0 <= i -> 0 <= j -> i <> j -> Log.rd (<[Z.to_nat i := Some s]> es) j = Log.rd es j.
Proof.
  intros Hi Hj Hne. unfold Log.rd. rewrite list_lookup_insert_ne; [reflexivity | lia].
Qed.

Lemma ring_positions_length st :
  length (Log.ring_positions st) = Z.to_nat (Log.count st).
Proof. unfold Log.ring_positions. now rewrite length_map, length_seq. Qed.

Lemma ring_lines_length st :
  Log.ring_ok st -> length (Log.ring_lines st) = Z.to_nat (Log.count st).
Proof.
  intros (_ & _ & _ & Hfull). unfold Log.ring_lines.
  rewrite omap_all_some by exact Hfull. apply ring_positions_length.
Qed.

Lemma ring_save st :
  Log.ring_lines (Log.save_to_disk st) = Log.ring_lines st /\
  (Log.ring_ok st -> Log.ring_ok (Log.save_to_disk st)).
Proof. unfold Log.save_to_disk. destruct (Log.writable st); split; auto. Qed.

(** The slot after the last one of a ring that is not full is none of
    the slots in use. *)
Lemma ring_positions_fresh st :
  0 <= Log.head st < Log.LOG_MAX -> 0 <= Log.count st < Log.LOG_MAX ->
  forall pos, In pos (Log.ring_positions st) ->
              0 <= pos /\ pos <> Z.rem (Log.head st + Log.count st) Log.LOG_MAX.
Proof.
  intros Hh Hc pos Hin. unfold Log.ring_positions in Hin.
  apply in_map_iff in Hin as (i & <- & Hi). apply in_seq in Hi.
  unfold Log.LOG_MAX in *.
  rewrite !Z.rem_mod_nonneg by lia.
  pose proof (Z.mod_pos_bound (Log.head st + Z.of_nat i) 15 ltac:(lia)).
  split; [lia |]. intros E.
  assert (Hd : (Log.head st + Log.count st - (Log.head st + Z.of_nat i)) mod 15 = 0).
  { rewrite Zminus_mod, E, Z.sub_diag. reflexivity. }
  replace (Log.head st + Log.count st - (Log.head st + Z.of_nat i))
    with (Log.count st - Z.of_nat i) in Hd by lia.
  rewrite Z.mod_small in Hd by lia. lia.
Qed.

Lemma ring_positions_snoc st s pos :
  0 <= Log.count st ->
  Log.ring_positions
    (Log.mkState (<[Z.to_nat pos := Some s]> (Log.entries st)) (Log.count st + 1)
       (Log.head st) (Log.file st) (Log.writable st))
  = Log.ring_positions st ++ [Z.rem (Log.head st + Log.count st) Log.LOG_MAX].
Proof.
  intros Hc. unfold Log.ring_positions. cbn [Log.count Log.head].
  replace (Z.to_nat (Log.count st + 1)) with (Z.to_nat (Log.count st) + 1)%nat by lia.
  rewrite seq_app, map_app. simpl. do 3 f_equal. lia.
Qed.

(** The newest entry, as the test for a repeated command reads it. *)
Lemma ring_last_entry st :
  Log.ring_ok st ->
  last (Log.ring_lines st)
  = if Log.count st =? 0 then None
    else Log.rd (Log.entries st) (Z.rem (Log.head st + Log.count st - 1) Log.LOG_MAX).
Proof.
  intros (Hlen & Hh & Hc & Hfull). unfold Log.ring_lines.
  destruct (Z.eqb_spec (Log.count st) 0) as [E | E].
  - unfold Log.ring_positions. now rewrite E.
  - unfold Log.ring_positions in *.
    replace (Z.to_nat (Log.count st)) with (Z.to_nat (Log.count st - 1) + 1)%nat in * by lia.
    rewrite seq_app, map_app in *. simpl in *.
    apply Forall_app in Hfull as [_ Hlast]. apply Forall_cons_1 in Hlast as [Hlast _].
    rewrite omap_app. cbn [omap list_omap].
    replace (Log.head st + Z.of_nat (Z.to_nat (Log.count st - 1)))
      with (Log.head st + Log.count st - 1) in * by lia.
    destruct (Log.rd _ _) as [e |]; [| contradiction].
    now rewrite last_snoc.
Qed.

Lemma omap_of_map_some {A B} (f : A -> option B) (l : list A) : forall l',
  map f l = Some <$> l' -> omap f l = l' /\ Forall (fun x => f x <> None) l.
Proof.
  induction l as [| a l IH]; intros [| b l'] H; try discriminate H.
  - split; [reflexivity | constructor].
  - change (Some <$> b :: l') with (Some b :: (Some <$> l')) in H.
    simpl in H. injection H as Ha Hl.
    destruct (IH l' Hl) as [E F]. cbn [omap list_omap]. rewrite Ha. simpl.
    split; [now rewrite E |]. constructor; [now rewrite Ha | exact F].
Qed.

Lemma map_some_of_omap {A B} (f : A -> option B) (l : list A) :
  Forall (fun x => f x <> None) l -> map f l = Some <$> omap f l.
Proof.
  induction 1 as [| a l Ha Hl IH]; [reflexivity |].
  cbn [omap list_omap]. simpl. destruct (f a) as [b |]; [| contradiction].
  change (Some <$> b :: omap f l) with (Some b :: (Some <$> omap f l)).
  simpl. now rewrite IH.
Qed.

Lemma mod_shift_ne h d : 0 <= h < 15 -> 0 < d < 15 -> (h + d) mod 15 <> h.
Proof.
  intros Hh Hd E.
  assert (H : (h + d - h) mod 15 = 0).
  { rewrite Zminus_mod, E, (Z.mod_small h 15) by lia. now rewrite Z.sub_diag. }
  replace (h + d - h) with d in H by lia. rewrite Z.mod_small in H by lia. lia.
Qed.

(** Pushing onto a ring that is not full: the new entry comes last. *)
Lemma ring_push_room st s :
  Log.ring_ok st -> Log.count st < Log.LOG_MAX ->
  let st' := Log.mkState
               (<[Z.to_nat (Z.rem (Log.head st + Log.count st) Log.LOG_MAX) := Some s]>
                  (Log.entries st))
               (Log.count st + 1) (Log.head st) (Log.file st) (Log.writable st) in
  Log.ring_ok st' /\ Log.ring_lines st' = Log.ring_lines st ++ [s].
Proof.
  intros (Hlen & Hh & Hc & Hfull) Hroom st'.
  set (pos := Z.rem (Log.head st + Log.count st) Log.LOG_MAX) in *.
  assert (Hpos : 0 <= pos < 15).
  { unfold pos, Log.LOG_MAX in *. rewrite Z.rem_mod_nonneg by lia.
    apply Z.mod_pos_bound. lia. }
  assert (Hmap : map (Log.rd (Log.entries st')) (Log.ring_positions st')
                 = Some <$> (Log.ring_lines st ++ [s])).
  { unfold st'. rewrite ring_positions_snoc by lia. fold pos.
    rewrite map_app, fmap_app. cbn [Log.entries]. f_equal.
    - unfold Log.ring_lines. rewrite <- map_some_of_omap by exact Hfull.
      apply map_ext_in. intros p Hp.
      destruct (ring_positions_fresh st Hh ltac:(lia) p Hp) as [Hp0 Hne].
      apply rd_insert_other; [lia | exact Hp0 | fold pos in Hne; congruence].
    - simpl. f_equal. apply rd_insert_same. unfold Log.LOG_MAX in Hlen. lia. }
  apply omap_of_map_some in Hmap as [Hlines Hall].
  split; [| exact Hlines].
  unfold Log.ring_ok. split; [unfold st'; cbn [Log.entries]; now rewrite length_insert |].
  split; [exact Hh |]. split; [unfold st'; cbn [Log.count]; lia | exact Hall].
Qed.

(** Pushing onto a full ring: the oldest entry goes, the new one comes
    last. *)
Lemma ring_push_full st s :
  Log.ring_ok st -> Log.count st = Log.LOG_MAX ->
  let st' := Log.mkState (<[Z.to_nat (Log.head st) := Some s]> (Log.entries st))
               (Log.count st) (Z.rem (Log.head st + 1) Log.LOG_MAX)
               (Log.file st) (Log.writable st) in
  Log.ring_ok st' /\ Log.ring_lines st' = drop 1 (Log.ring_lines st) ++ [s].
Proof.
  intros (Hlen & Hh & Hc & Hfull) Hcount st'.
  unfold Log.LOG_MAX in *.
  assert (Hh' : 0 <= Z.rem (Log.head st + 1) 15 < 15).
  { rewrite Z.rem_mod_nonneg by lia. apply Z.mod_pos_bound. lia. }
  assert (Hmap : map (Log.rd (Log.entries st')) (Log.ring_positions st')
                 = Some <$> (drop 1 (Log.ring_lines st) ++ [s])).
  { rewrite fmap_app, fmap_drop. unfold Log.ring_lines.
    rewrite <- map_some_of_omap by exact Hfull.
    unfold Log.ring_positions, st'. cbn [Log.entries Log.count Log.head].
    rewrite Hcount. change (Z.to_nat Log.LOG_MAX) with 15%nat.
    change (Z.to_nat 15) with 15%nat.
    change (seq 0 15) with (seq 0 14 ++ [14%nat]) at 1.
    change (seq 0 15) with (0%nat :: seq 1 14).
    rewrite !map_app, !map_map. cbn [map drop]. f_equal.
    - rewrite <- seq_shift, map_map. apply map_ext_in. intros i Hi.
      apply in_seq in Hi. unfold Log.LOG_MAX.
      rewrite !Z.rem_mod_nonneg by lia.
      rewrite Zplus_mod_idemp_l.
      replace (Log.head st + 1 + Z.of_nat i) with (Log.head st + Z.of_nat (S i)) by lia.
      apply rd_insert_other; [lia | |].
      + apply Z.mod_pos_bound. lia.
      + intros E. symmetry in E. revert E. apply mod_shift_ne; lia.
    - simpl. f_equal. unfold Log.LOG_MAX. rewrite !Z.rem_mod_nonneg by lia.
      rewrite Zplus_mod_idemp_l.
      replace (Log.head st + 1 + Z.of_nat 14) with (Log.head st + 1 * 15) by lia.
      rewrite Z.mod_add, Z.mod_small by lia.
      apply rd_insert_same. lia. }
  apply omap_of_map_some in Hmap as [Hlines Hall].
  split; [| exact Hlines].
  unfold Log.ring_ok, Log.LOG_MAX.
  split; [unfold st'; cbn [Log.entries]; now rewrite length_insert |].
  split; [exact Hh' |]. split; [unfold st'; cbn [Log.count]; lia | exact Hall].
Qed.

(** X20.  The ring of [log] is the list of the last 15 commands.  On a
    ring in order, [ring_push] leaves everything as it is when the command
    equals the newest entry; otherwise the entries from oldest to newest
    become the old ones followed by the command, cut to the last
    [LOG_MAX] = 15, the ring stays in order, and the history file (when it
    can be written) holds exactly these lines. *)
Theorem ring_push_keeps_last (s : string) (st : Log.state) :
  Log.ring_ok st ->
  let st' := Log.ring_push s st in
  Log.ring_ok st' /\
  (last (Log.ring_lines st) = Some s -> st' = st) /\
  (last (Log.ring_lines st) <> Some s ->
   Log.ring_lines st' = Log.keep_last 15 (Log.ring_lines st ++ [s]) /\
   (Log.writable st = true ->
    Log.file st' = Some (Log.concat_lines (Log.ring_lines st')))).
Proof.
  intros Hok st'. pose proof Hok as (Hlen & Hh & Hc & Hfull).
  pose proof (ring_last_entry st Hok) as Hlast.
  pose proof (ring_lines_length st Hok) as Hll.
  assert (Hpush : forall x,
             last (Log.ring_lines st) <> Some s ->
             Log.ring_ok x -> Log.writable x = Log.writable st ->
             Log.ring_lines x = Log.keep_last 15 (Log.ring_lines st ++ [s]) ->
             Log.ring_ok (Log.save_to_disk x) /\
             (last (Log.ring_lines st) = Some s -> Log.save_to_disk x = st) /\
             (last (Log.ring_lines st) <> Some s ->
              Log.ring_lines (Log.save_to_disk x)
              = Log.keep_last 15 (Log.ring_lines st ++ [s]) /\
              (Log.writable st = true ->
               Log.file (Log.save_to_disk x)
               = Some (Log.concat_lines (Log.ring_lines (Log.save_to_disk x)))))).
  { intros x Hnew Hx Hwx Hlx. destruct (ring_save x) as [Hsl Hso].
    split; [now apply Hso |]. split; [intros H; contradiction |].
    intros _. rewrite Hsl. split; [exact Hlx |]. intros Hw.
    unfold Log.save_to_disk. rewrite Hwx, Hw. reflexivity. }
  unfold st', Log.ring_push, Log.ring_last_index.
  set (x := if Log.count st <? Log.LOG_MAX then _ else _).
  assert (Hcases : last (Log.ring_lines st) <> Some s ->
            Log.ring_ok (Log.save_to_disk x) /\
            (last (Log.ring_lines st) = Some s -> Log.save_to_disk x = st) /\
            (last (Log.ring_lines st) <> Some s ->
             Log.ring_lines (Log.save_to_disk x)
             = Log.keep_last 15 (Log.ring_lines st ++ [s]) /\
             (Log.writable st = true ->
              Log.file (Log.save_to_disk x)
              = Some (Log.concat_lines (Log.ring_lines (Log.save_to_disk x)))))).
  { intros Hnew. unfold x.
    destruct (Z.ltb_spec (Log.count st) Log.LOG_MAX) as [Hroom | Hno].
    - destruct (ring_push_room st s Hok Hroom) as [Hok' Hl'].
      apply Hpush; [exact Hnew | exact Hok' | reflexivity |]. rewrite Hl'.
      unfold Log.keep_last. rewrite length_app, Hll. simpl.
      replace (Z.to_nat (Log.count st) + 1 - 15)%nat with 0%nat
        by (unfold Log.LOG_MAX in *; lia).
      reflexivity.
    - assert (Hcount : Log.count st = Log.LOG_MAX) by lia.
      destruct (ring_push_full st s Hok Hcount) as [Hok' Hl'].
      apply Hpush; [exact Hnew | exact Hok' | reflexivity |]. rewrite Hl'.
      unfold Log.keep_last. rewrite length_app, Hll, Hcount. simpl.
      change (Z.to_nat Log.LOG_MAX + 1 - 15)%nat with 1%nat.
      rewrite drop_app_le; [reflexivity |]. rewrite Hll, Hcount.
      unfold Log.LOG_MAX. lia. }
  clearbody x.
  destruct (Z.eqb_spec (Log.count st) 0) as [E0 | E0].
  - change (negb (-1 =? -1)) with false. cbn [andb].
    apply Hcases. rewrite Hlast. discriminate.
  - assert (Hnz : (Z.rem (Log.head st + Log.count st - 1) Log.LOG_MAX =? -1) = false).
    { apply Z.eqb_neq. unfold Log.LOG_MAX in *. rewrite Z.rem_mod_nonneg by lia.
      pose proof (Z.mod_pos_bound (Log.head st + Log.count st - 1) 15 ltac:(lia)). lia. }
    rewrite Hnz. cbn [negb andb].
    destruct (Log.rd (Log.entries st) _) as [e |] eqn:Ee.
    + destruct (String.eqb_spec e s) as [-> | Hne].
      * split; [exact Hok |]. split; [reflexivity |]. intros H. now rewrite Hlast in H.
      * apply Hcases. rewrite Hlast. congruence.
    + apply Hcases. rewrite Hlast. discriminate.
Qed.

Lemma ring_push_keeps_last_witness :
  Log.ring_ok empty_history /\
  Log.ring_lines (Log.ring_push "ls" (Log.ring_push "ls" (Log.ring_push "pwd" empty_history)))
  = ["pwd"; "ls"]%string.
Proof.
  assert (H : Log.ring_ok empty_history).
  { repeat split; try (vm_compute; congruence). constructor. }
  split; [exact H |].
  pose proof (ring_push_keeps_last "pwd" empty_history H) as (H1 & _).
  pose proof (ring_push_keeps_last "ls" _ H1) as (H2 & _).
  pose proof (ring_push_keeps_last "ls" _ H2) as (_ & Hsame & _).
  rewrite Hsame; reflexivity.
Defined.

Lemma walk_back_pos n : forall p,
  0 <= p < 15 -> Log.walk_back n p = (p - Z.of_nat n) mod 15.
Proof.
  induction n as [| n IH]; intros p Hp.
  - simpl. rewrite Z.sub_0_r, Z.mod_small; lia.
  - cbn [Log.walk_back]. unfold Log.LOG_MAX. rewrite Z.rem_mod_nonneg by lia.
    rewrite IH by (apply Z.mod_pos_bound; lia).
    rewrite Zminus_mod_idemp_l.
    replace (p - 1 + 15 - Z.of_nat n) with (p - Z.of_nat (S n) + 1 * 15) by lia.
    now rewrite Z.mod_add by lia.
Qed.

Lemma ring_lines_lookup st i :
  Log.ring_ok st -> (i < Z.to_nat (Log.count st))%nat ->
  Log.ring_lines st !! i
  = Log.rd (Log.entries st) (Z.rem (Log.head st + Z.of_nat i) Log.LOG_MAX).
Proof.
  intros (_ & _ & _ & Hfull) Hi.
  pose proof (map_some_of_omap _ _ Hfull) as Hmap. fold (Log.ring_lines st) in Hmap.
  apply (f_equal (fun l => l !! i)) in Hmap.
  rewrite list_lookup_fmap in Hmap.
  change (map (Log.rd (Log.entries st)) (Log.ring_positions st))
    with (Log.rd (Log.entries st) <$> Log.ring_positions st) in Hmap.
  rewrite list_lookup_fmap in Hmap. unfold Log.ring_positions in Hmap.
  change (map (fun i => Z.rem (Log.head st + Z.of_nat i) Log.LOG_MAX)
            (seq 0 (Z.to_nat (Log.count st))))
    with ((fun i => Z.rem (Log.head st + Z.of_nat i) Log.LOG_MAX)
            <$> seq 0 (Z.to_nat (Log.count st))) in Hmap.
  rewrite list_lookup_fmap in Hmap.
  rewrite (lookup_seq_lt _ _ _ Hi) in Hmap. simpl in Hmap.
  destruct (Log.ring_lines st !! i) as [l |]; simpl in Hmap; [now injection Hmap | discriminate].
Qed.

(** X21.  [log execute k] runs the k-th newest command.  For an index
    outside 1..[count] nothing is run and the status is 1; for an index
    within, the command handed to [system] is the entry [k - 1] places
    before the newest, and the status is the exit status of that command
    (1 when [system] fails or the command does not exit). *)
Theorem exec_index_selects (system : string -> option wstatus) (index : Z)
    (st : Log.state) :
  Log.ring_ok st ->
  (index <= 0 \/ Log.count st < index -> Log.exec_index system index st = (1, [])) /\
  (1 <= index <= Log.count st ->
   exists cmd,
     Log.ring_lines st !! Z.to_nat (Log.count st - index) = Some cmd /\
     Log.exec_index system index st
     = (match system cmd with
        | None => 1
        | Some rc => if WIFEXITED rc then WEXITSTATUS rc else 1
        end, [Log.System cmd])).
Proof.
  intros Hok. pose proof Hok as (Hlen & Hh & Hc & Hfull). unfold Log.exec_index. split.
  - intros H. destruct (Z.leb_spec index 0); [reflexivity |].
    destruct (Z.gtb_spec index (Log.count st)); [reflexivity | lia].
  - intros H. destruct (Z.leb_spec index 0); [lia |].
    destruct (Z.gtb_spec index (Log.count st)); [lia |]. cbn [orb].
    unfold Log.LOG_MAX in *.
    assert (Hpos : Log.walk_back (Z.to_nat (index - 1))
                     (Z.rem (Log.head st + Log.count st - 1) 15)
                   = Z.rem (Log.head st + Z.of_nat (Z.to_nat (Log.count st - index))) 15).
    { rewrite !Z.rem_mod_nonneg by lia.
      rewrite walk_back_pos by (apply Z.mod_pos_bound; lia).
      rewrite Zminus_mod_idemp_l. f_equal. lia. }
    change (Z.rem (Log.head st + Log.count st - 1) Log.LOG_MAX)
      with (Z.rem (Log.head st + Log.count st - 1) 15).
    rewrite Hpos.
    pose proof (ring_lines_lookup st (Z.to_nat (Log.count st - index)) Hok ltac:(lia)) as Hl.
    unfold Log.LOG_MAX in Hl. rewrite <- Hl.
    destruct (Log.ring_lines st !! Z.to_nat (Log.count st - index)) as [cmd |] eqn:E.
    + exists cmd. split; reflexivity.
    + exfalso. apply lookup_ge_None in E. rewrite (ring_lines_length st Hok) in E. lia.
Qed.

Lemma exec_index_selects_witness :
  let st := Log.ring_push "ls" (Log.ring_push "pwd" empty_history) in
  Log.ring_ok st /\
  Log.exec_index (fun _ => Some (Exited 0)) 2 st = (0, [Log.System "pwd"]).
Proof.
  assert (H : Log.ring_ok (Log.ring_push "ls" (Log.ring_push "pwd" empty_history))).
  { repeat split; try (vm_compute; congruence). repeat constructor; discriminate. }
  split; [exact H |].
  destruct (exec_index_selects (fun _ => Some (Exited 0)) 2 _ H) as [_ Hin].
  destruct Hin as (cmd & Hcmd & Hrun); [vm_compute; split; congruence |].
  vm_compute in Hcmd. injection Hcmd as <-. exact Hrun.
Defined.

(** ** The history file *)

Lemma getlines_line l rest :
  all_chars (fun c => negb (c =? "010")%char) l = true ->
  Log.getlines (l +:+ Log.newline +:+ rest) = (l +:+ Log.newline) :: Log.getlines rest.
Proof.
  induction l as [| c l IH]; intros H.
  - reflexivity.
  - simpl in H. apply andb_prop in H as [Hc Hl]. apply negb_true_iff in Hc.
    rewrite !append_cons. cbn [Log.getlines]. rewrite Hc, (IH Hl). reflexivity.
Qed.

Lemma getlines_concat ls :
  Forall clean_line ls ->
  Log.getlines (Log.concat_lines ls) = map (fun l => l +:+ Log.newline) ls.
Proof.
  induction 1 as [| l ls [Hl _] Hls IH]; [reflexivity |].
  cbn [Log.concat_lines fold_right map]. fold (Log.concat_lines ls).
  rewrite getlines_line by exact Hl. now rewrite IH.
Qed.

Lemma strip_eol_newline l : Log.strip_eol (l +:+ Log.newline) = Log.strip_eol l.
Proof.
  induction l as [| c l IH]; [reflexivity |].
  rewrite append_cons. cbn [Log.strip_eol]. now rewrite IH.
Qed.

Lemma keep_last_short {A} n (l : list A) : (length l <= n)%nat -> Log.keep_last n l = l.
Proof.
  intros H. unfold Log.keep_last. replace (length l - n)%nat with 0%nat by lia. reflexivity.
Qed.

Lemma keep_last_length {A} n (l : list A) : (length (Log.keep_last n l) <= n)%nat.
Proof. unfold Log.keep_last. rewrite length_drop. lia. Qed.

Lemma keep_last_snoc {A} n (l : list A) x :
  (0 < n)%nat ->
  Log.keep_last n (Log.keep_last n l ++ [x]) = Log.keep_last n (l ++ [x]).
Proof.
  intros Hn. unfold Log.keep_last. rewrite !length_app, length_drop. simpl.
  destruct (Nat.le_gt_cases (length l) n) as [Hle | Hgt].
  - replace (length l - n)%nat with 0%nat by lia. simpl.
    now replace (length l - 0 + 1 - n)%nat with (length l + 1 - n)%nat by lia.
  - replace (length l - (length l - n) + 1 - n)%nat with 1%nat by lia.
    rewrite !drop_app_le by (rewrite ?length_drop; lia).
    rewrite drop_drop. do 2 f_equal. lia.
Qed.

Lemma tmp_push_keep_last tmp dup :
  (length tmp <= 15)%nat -> Log.tmp_push tmp dup = Log.keep_last 15 (tmp ++ [dup]).
Proof.
  intros H. unfold Log.tmp_push, Log.keep_last, Log.LOG_MAX. rewrite length_app. simpl.
  destruct (Z.ltb_spec (Z.of_nat (length tmp)) 15) as [Hlt | Hge].
  - now replace (length tmp + 1 - 15)%nat with 0%nat by lia.
  - replace (length tmp + 1 - 15)%nat with 1%nat by lia.
    rewrite drop_app_le by lia. reflexivity.
Qed.

(** The temporary array of [load_from_disk] ends up holding the last 15
    lines read. *)
Lemma fold_tmp_push ls : forall tmp,
  (length tmp <= 15)%nat ->
  fold_left Log.tmp_push ls tmp = Log.keep_last 15 (tmp ++ ls).
Proof.
  induction ls as [| l ls IH] using rev_ind; intros tmp H.
  - simpl. rewrite app_nil_r. symmetry. now apply keep_last_short.
  - rewrite fold_left_app. simpl. rewrite IH by exact H.
    rewrite tmp_push_keep_last by apply keep_last_length.
    rewrite keep_last_snoc by lia. now rewrite app_assoc.
Qed.

(** The ring that [load_from_disk] builds from at most 15 lines. *)
Lemma loaded_ring tmp rest f w :
  (length tmp <= 15)%nat -> length rest = 15%nat ->
  let st := Log.mkState ((Some <$> tmp) ++ drop (length tmp) rest)
              (Z.of_nat (length tmp)) 0 f w in
  Log.ring_ok st /\ Log.ring_lines st = tmp.
Proof.
  intros Ht Hr st.
  assert (Hmap : map (Log.rd (Log.entries st)) (Log.ring_positions st) = Some <$> tmp).
  { unfold Log.ring_positions, st. cbn [Log.entries Log.count Log.head].
    rewrite Nat2Z.id, map_map. apply list_eq. intros i.
    change (map (fun x => Log.rd ((Some <$> tmp) ++ drop (length tmp) rest)
                            (Z.rem (0 + Z.of_nat x) Log.LOG_MAX)) (seq 0 (length tmp)))
      with ((fun x => Log.rd ((Some <$> tmp) ++ drop (length tmp) rest)
                        (Z.rem (0 + Z.of_nat x) Log.LOG_MAX)) <$> seq 0 (length tmp)).
    rewrite !list_lookup_fmap.
    destruct (Nat.lt_ge_cases i (length tmp)) as [Hi | Hi].
    - rewrite (lookup_seq_lt _ _ _ Hi). simpl.
      unfold Log.rd, Log.LOG_MAX. rewrite Z.add_0_l, Z.rem_small by lia. rewrite Nat2Z.id.
      rewrite lookup_app_l by (rewrite length_fmap; lia).
      rewrite list_lookup_fmap. destruct (tmp !! i) eqn:E; [reflexivity |].
      apply lookup_ge_None in E. lia.
    - rewrite (lookup_ge_None_2 (seq 0 (length tmp))) by (rewrite length_seq; lia).
      now rewrite (lookup_ge_None_2 tmp) by lia. }
  apply omap_of_map_some in Hmap as [Hlines Hall].
  split; [| exact Hlines].
  unfold Log.ring_ok, st, Log.LOG_MAX. cbn [Log.entries Log.count Log.head].
  split; [rewrite length_app, length_fmap, length_drop; lia |].
  split; [lia |]. split; [lia | exact Hall].
Qed.

Lemma log_init_reads ls st :
  Forall clean_line ls -> Log.file st = Some (Log.concat_lines ls) ->
  Log.ring_ok (Log.log_init st) /\
  Log.ring_lines (Log.log_init st) = Log.keep_last 15 ls /\
  Log.head (Log.log_init st) = 0.
Proof.
  intros Hclean Hfile. unfold Log.log_init, Log.load_from_disk, Log.free_all.
  cbn [Log.file Log.entries Log.writable]. rewrite Hfile.
  rewrite getlines_concat by exact Hclean. rewrite map_map.
  assert (Hstrip : map (fun l => Log.strip_eol (l +:+ Log.newline)) ls = ls).
  { clear Hfile. induction Hclean as [| l ls [_ Hl] _ IH]; [reflexivity |].
    simpl. now rewrite strip_eol_newline, Hl, IH. }
  rewrite Hstrip. rewrite fold_tmp_push by (simpl; lia). simpl app.
  destruct (loaded_ring (Log.keep_last 15 ls) (replicate (Z.to_nat Log.LOG_MAX) None)
              (Some (Log.concat_lines ls)) (Log.writable st)
              (keep_last_length 15 ls) eq_refl) as [Hok Hlines].
  split; [exact Hok |]. split; [exact Hlines | reflexivity].
Qed.



(** X23.  The history survives a restart.  After [save_to_disk] on a ring
    in order with clean lines and a writable file, [log_init] (as run by
    the next shell) lists the same commands in the same order. *)
Theorem history_survives_restart (st : Log.state) :
  Log.ring_ok st -> Log.writable st = true ->
  Forall clean_line (Log.ring_lines st) ->
  Log.ring_lines (Log.log_init (Log.save_to_disk st)) = Log.ring_lines st /\
  Log.ring_ok (Log.log_init (Log.save_to_disk st)).
Proof.
  intros Hok Hw Hclean.
  assert (Hfile : Log.file (Log.save_to_disk st)
                  = Some (Log.concat_lines (Log.ring_lines st))).
  { unfold Log.save_to_disk. now rewrite Hw. }
  destruct (log_init_reads (Log.ring_lines st) (Log.save_to_disk st) Hclean Hfile)
    as (Hok' & Hlines & _).
  split; [| exact Hok']. rewrite Hlines. apply keep_last_short.
  rewrite (ring_lines_length st Hok). destruct Hok as (_ & _ & Hc & _).
  unfold Log.LOG_MAX in Hc. lia.
Qed.

Lemma history_survives_restart_witness :
  let st := Log.ring_push "ls" (Log.ring_push "pwd" empty_history) in
  Log.writable st = true /\
  Log.ring_lines (Log.log_init (Log.save_to_disk st)) = ["pwd"; "ls"]%string.
Proof.
  assert (H : Log.ring_ok (Log.ring_push "ls" (Log.ring_push "pwd" empty_history))).
  { repeat split; try (vm_compute; congruence). repeat constructor; discriminate. }
  split; [reflexivity |].
  destruct (history_survives_restart _ H eq_refl) as [Hl _].
  - repeat constructor.
  - exact Hl.
Defined.

(** ** The filter on the command name [log] *)

Lemma name_char_not_separator c :
  is_name_char c = true ->
  (c =? "|")%char || (c =? ";")%char || (c =? "&")%char = false /\
  (c =? "<")%char || (c =? ">")%char = false.
Proof.
  unfold is_name_char, is_special. intros H.
  apply negb_true_iff, orb_false_elim in H as [_ H].
  repeat (apply orb_false_elim in H as [H ?]).
  split; repeat (apply orb_false_intro); assumption.
Qed.

Lemma ends_name_before_amp args blanks t :
  all_chars is_ws blanks = true ->
  ends_name (spaced args +:+ blanks +:+ String "&" t).
Proof.
  intros Hb. destruct args as [| a args]; [| reflexivity].
  simpl. rewrite append_nil. destruct blanks as [| b blanks]; [reflexivity |].
  simpl in Hb. apply andb_prop in Hb as [Hb _]. rewrite append_cons. simpl.
  unfold is_name_char. now rewrite Hb.
Qed.

(** The skip over the arguments of a command stops at the [&] that
    follows them. *)
Lemma skip_atomic_words args : forall fuel blanks t,
  Forall (fun a => is_name a = true) args -> (length args < fuel)%nat ->
  all_chars is_ws blanks = true ->
  Log.skip_atomic fuel (spaced args +:+ blanks +:+ String "&" t) = String "&" t.
Proof.
  induction args as [| w args IH]; intros fuel blanks t Hn Hf Hb.
  - destruct fuel as [| fuel]; [simpl in Hf; lia |].
    cbn [spaced]. rewrite append_nil. cbn [Log.skip_atomic].
    rewrite (skip_ws_blanks blanks (String "&" t) Hb). reflexivity.
  - destruct fuel as [| fuel]; [simpl in Hf; lia |].
    apply Forall_cons_1 in Hn as [Hw Hn].
    change (spaced (w :: args)) with (" " +:+ w +:+ spaced args).
    rewrite !append_assoc_string.
    change (" " +:+ (w +:+ (spaced args +:+ (blanks +:+ String "&" t))))
      with (String " " (w +:+ (spaced args +:+ (blanks +:+ String "&" t)))).
    cbn [Log.skip_atomic skip_ws]. change (is_ws " ") with true. cbv iota.
    rewrite skip_ws_word by exact Hw.
    pose proof Hw as Hw'. unfold is_name in Hw'. apply andb_prop in Hw' as [Hne Hall].
    pose proof (read_name_word w (spaced args +:+ blanks +:+ String "&" t) Hall
                  (ends_name_before_amp args blanks t Hb)) as Hr.
    destruct w as [| c w]; [discriminate Hne |].
    rewrite append_cons in Hr |- *.
    simpl in Hall. apply andb_prop in Hall as [Hc _].
    destruct (name_char_not_separator c Hc) as [H1 H2]. rewrite H1, H2, Hr.
    cbn [snd]. apply IH; [exact Hn | simpl in Hf; lia | exact Hb].
Qed.

(** X24.  What the filter of the history does not see.  A line that
    starts with a simple command other than [log], followed by [&&], is
    stored in the history whatever comes after the [&&], the command
    [log] included: the scan for command names ends at the second [&]. *)
Theorem command_after_and_escapes_filter (w : string) (args : list string)
    (blanks rest : string) (st : Log.state) :
  Forall (fun a => is_name a = true) (w :: args) -> w <> "log"%string ->
  all_chars is_ws blanks = true ->
  let line := join_argv (w :: args) +:+ blanks +:+ "&&" +:+ rest in
  Log.contains_log_command_name line = false /\
  Log.log_maybe_store_shell_cmd line st = Log.ring_push (Log.strip_eol line) st.
Proof.
  intros Hn Hw Hb line.
  assert (H : Log.contains_log_command_name line = false).
  { unfold Log.contains_log_command_name, line. rewrite join_argv_spaced.
    apply Forall_cons_1 in Hn as [Hname Hargs].
    rewrite !append_assoc_string.
    change ("&&" +:+ rest) with (String "&" (String "&" rest)).
    set (tail := spaced args +:+ blanks +:+ String "&" (String "&" rest)).
    pose proof Hname as Hw'. unfold is_name in Hw'. apply andb_prop in Hw' as [Hne Hall].
    pose proof (read_name_word w tail Hall
                  (ends_name_before_amp args blanks (String "&" rest) Hb)) as Hr.
    pose proof (skip_ws_word w tail Hname) as Hs.
    destruct (w +:+ tail) as [| c q] eqn:Ep.
    { destruct w; [discriminate Hne | discriminate Ep]. }
    cbn [Log.contains_log_loop]. rewrite Hs, Hr.
    apply negb_true_iff in Hne. rewrite Hne.
    destruct (String.eqb_spec w "log") as [E | _]; [contradiction |].
    unfold tail at 2. rewrite skip_atomic_words; [| exact Hargs | | exact Hb].
    - destruct (String.length (String c q)) as [| k]; [reflexivity |]. reflexivity.
    - unfold tail. rewrite !length_append. pose proof (spaced_length args). lia. }
  split; [exact H |]. unfold Log.log_maybe_store_shell_cmd. now rewrite H.
Qed.

Lemma command_after_and_escapes_filter_witness :
  Forall (fun a => is_name a = true) ["echo"; "hi"]%string /\
  Log.contains_log_command_name "echo hi && log" = false /\
  Log.ring_lines (Log.log_maybe_store_shell_cmd "echo hi && log" empty_history)
  = ["echo hi && log"%string].
Proof.
  assert (H : Forall (fun a => is_name a = true) ["echo"; "hi"]%string)
    by (repeat constructor).
  split; [exact H |].
  destruct (command_after_and_escapes_filter "echo" ["hi"%string] " " " log" empty_history H)
    as [H1 H2]; [discriminate | reflexivity |].
  split; [exact H1 | reflexivity].
Defined.

(** * Properties of [activities] (activities.c) *)

Lemma ascii_compare_lt a b :
  Ascii.compare a b = Lt <-> (N_of_ascii a < N_of_ascii b)%N.
Proof. unfold Ascii.compare. apply N.compare_lt_iff. Qed.

Lemma string_compare_lt_trans a : forall b c,
  String.compare a b = Lt -> String.compare b c = Lt -> String.compare a c = Lt.
Proof.
  induction a as [| x a IH]; intros [| y b] [| z c] H1 H2; simpl in *;
    try discriminate; try reflexivity.
  destruct (Ascii.compare x y) eqn:Exy; try discriminate;
    destruct (Ascii.compare y z) eqn:Eyz; try discriminate.
  - apply Ascii.compare_eq_iff in Exy, Eyz. subst.
    assert (E : Ascii.compare z z = Eq).
    { unfold Ascii.compare. apply N.compare_refl. }
    rewrite E. now apply (IH b c).
  - apply Ascii.compare_eq_iff in Exy. subst. now rewrite Eyz.
  - apply Ascii.compare_eq_iff in Eyz. subst. now rewrite Exy.
  - apply ascii_compare_lt in Exy. apply ascii_compare_lt in Eyz.
    assert (E : Ascii.compare x z = Lt)
      by (apply ascii_compare_lt; eapply N.lt_trans; eassumption).
    now rewrite E.
Qed.

Lemma string_compare_refl a : String.compare a a = Eq.
Proof.
  induction a as [| x a IH]; [reflexivity |]. simpl.
  assert (E : Ascii.compare x x = Eq) by (unfold Ascii.compare; apply N.compare_refl).
  now rewrite E.
Qed.

Lemma in_order_total a b :
  Activities.out_of_order a b = true -> Activities.in_order b a.
Proof.
  unfold Activities.in_order, Activities.out_of_order.
  rewrite (String.compare_antisym (Activities.name a) (Activities.name b)).
  destruct (String.compare (Activities.name b) (Activities.name a)); simpl;
    try discriminate; try reflexivity.
  intros H. apply Z.gtb_lt in H.
  destruct (Z.gtb_spec (Activities.pid b) (Activities.pid a)); [lia | reflexivity].
Qed.

Lemma in_order_trans a b c :
  Activities.in_order a b -> Activities.in_order b c -> Activities.in_order a c.
Proof.
  unfold Activities.in_order, Activities.out_of_order.
  destruct (String.compare (Activities.name a) (Activities.name b)) eqn:Eab;
    try discriminate;
    destruct (String.compare (Activities.name b) (Activities.name c)) eqn:Ebc;
    try discriminate; intros H1 H2.
  - apply String.compare_eq_iff in Eab, Ebc. rewrite Eab, Ebc, string_compare_refl.
    destruct (Z.gtb_spec (Activities.pid a) (Activities.pid b)); [discriminate |].
    destruct (Z.gtb_spec (Activities.pid b) (Activities.pid c)); [discriminate |].
    destruct (Z.gtb_spec (Activities.pid a) (Activities.pid c)); [lia | reflexivity].
  - apply String.compare_eq_iff in Eab. now rewrite Eab, Ebc.
  - apply String.compare_eq_iff in Ebc. now rewrite <- Ebc, Eab.
  - now rewrite (string_compare_lt_trans _ _ _ Eab Ebc).
Qed.

Lemma in_order_refl a : Activities.in_order a a.
Proof.
  unfold Activities.in_order, Activities.out_of_order. rewrite string_compare_refl.
  destruct (Z.gtb_spec (Activities.pid a) (Activities.pid a)); [lia | reflexivity].
Qed.

(** The inner loop brings the least remaining entry to the front and
    only moves entries around. *)
Lemma inner_loop_least rest : forall x,
  let '(m, r) := Activities.inner_loop x rest in
  Permutation (m :: r) (x :: rest) /\
  Activities.in_order m x /\ Forall (Activities.in_order m) r.
Proof.
  induction rest as [| y rest IH]; intros x; simpl.
  - split; [reflexivity |]. split; [apply in_order_refl | constructor].
  - destruct (Activities.out_of_order x y) eqn:E.
    + specialize (IH y). destruct (Activities.inner_loop y rest) as [m r'].
      destruct IH as (Hp & Hm & Hall).
      assert (Hmx : Activities.in_order m x).
      { eapply in_order_trans; [exact Hm | now apply in_order_total]. }
      split; [| split; [exact Hmx | constructor; [exact Hmx | exact Hall]]].
      transitivity (x :: m :: r'); [apply perm_swap | now constructor].
    + specialize (IH x). destruct (Activities.inner_loop x rest) as [m r'].
      destruct IH as (Hp & Hm & Hall).
      assert (Hmy : Activities.in_order m y).
      { eapply in_order_trans; [exact Hm | exact E]. }
      split; [| split; [exact Hm | constructor; [exact Hmy | exact Hall]]].
      transitivity (y :: m :: r'); [apply perm_swap |].
      transitivity (y :: x :: rest); [now constructor | apply perm_swap].
Qed.

Lemma outer_loop_sorts n : forall acts,
  (length acts <= n)%nat ->
  Permutation (Activities.outer_loop n acts) acts /\
  StronglySorted Activities.in_order (Activities.outer_loop n acts).
Proof.
  induction n as [| n IH]; intros acts Hn.
  - destruct acts; [| simpl in Hn; lia]. split; [reflexivity | constructor].
  - destruct acts as [| x rest]; [split; [reflexivity | constructor] |].
    cbn [Activities.outer_loop].
    pose proof (inner_loop_least rest x) as Hin.
    destruct (Activities.inner_loop x rest) as [m r]. destruct Hin as (Hp & Hm & Hall).
    assert (Hlen : (length r <= n)%nat).
    { apply Permutation_length in Hp. simpl in Hp, Hn. lia. }
    destruct (IH r Hlen) as [Hp' Hs]. split.
    + rewrite <- Hp. now constructor.
    + constructor; [exact Hs |].
      apply List.Forall_forall. intros a Ha.
      apply (proj1 (List.Forall_forall _ _) Hall).
      eapply Permutation_in; [exact Hp' | exact Ha].
Qed.

(** X25.  [activities] lists every unfinished stage of every job of the
    table exactly once, one per line, ordered by name (as [strcmp] orders
    names) and, among equal names, by pid; its status is 0. *)
Theorem activities_sorted_listing (s : shell) :
  exists acts,
    Activities.run_activities_argv s = (0, map Activities.act_line acts) /\
    Permutation acts
      (map (fun '(p, nm, st) => Activities.mkAct p nm st) (jobs_for_each_activity s)) /\
    StronglySorted Activities.in_order acts.
Proof.
  unfold Activities.run_activities_argv.
  set (acts := map _ (jobs_for_each_activity s)).
  destruct (outer_loop_sorts (length acts) acts (Nat.le_refl _)) as [Hp Hs].
  exists (Activities.outer_loop (length acts) acts). now split.
Qed.

(** * Properties of the prompt (prompt.c) *)

Lemma prefix_split h : forall c,
  String.prefix h c = true -> c = h +:+ advance (String.length h) c.
Proof.
  induction h as [| x h IH]; intros c H; [destruct c; reflexivity |].
  destruct c as [| y c]; [discriminate |]. simpl in H.
  destruct (ascii_dec x y) as [-> | Hne]; [| discriminate].
  rewrite append_cons. simpl. f_equal. now apply IH.
Qed.

Lemma get_advance n : forall c,
  String.get n c = match advance n c with String ch _ => Some ch | EmptyString => None end
  \/ (String.length c < n)%nat.
Proof.
  induction n as [| n IH]; intros [| y c].
  - now left.
  - now left.
  - right. simpl. lia.
  - simpl. destruct (IH c) as [H | H]; [now left | right; lia].
Qed.

Lemma absolute_slash c : Prompt.absolute c = true -> exists t, c = String "/" t.
Proof.
  destruct c as [| ch t]; [discriminate |].
  destruct (Ascii.eqb_spec ch "/") as [-> | Hne]; [now exists t |].
  unfold Prompt.absolute. destruct ch as [[] [] [] [] [] [] [] []]; try discriminate.
  contradiction.
Qed.

(** The home put back in the place of the tilde. *)
Lemma prompt_path_shape h c :
  Prompt.absolute c = true ->
  Prompt.prompt_path (Some h) (Some c) = c \/
  exists r, Prompt.prompt_path (Some h) (Some c) = String "~" r /\
            c = if (h =? "/")%string then (if is_empty r then "/" else r) else h +:+ r.
Proof.
  intros Habs. destruct (absolute_slash c Habs) as [t ->].
  unfold Prompt.prompt_path.
  destruct (String.eqb_spec h "/") as [-> | Hh]; cbn [andb].
  - right. destruct t as [| y t].
    + exists EmptyString. split; reflexivity.
    + exists (String "/" (String y t)). split; reflexivity.
  - destruct (String.prefix h (String "/" t)) eqn:Ep; [| now left].
    pose proof (prefix_split h _ Ep) as Hsplit.
    destruct (get_advance (String.length h) (String "/" t)) as [Hg | Hlen].
    + rewrite Hg. destruct (advance (String.length h) (String "/" t)) as [| ch r] eqn:Ea.
      * right. exists EmptyString. split; [reflexivity | exact Hsplit].
      * destruct (Ascii.eqb_spec ch "/") as [-> | _]; [| now left].
        right. exists (String "/" r). split; [reflexivity | exact Hsplit].
    + exfalso. apply (f_equal String.length) in Hsplit.
      rewrite length_append in Hsplit. lia.
Qed.

(** X26.  The prompt tells where the shell is: for a given home, two
    absolute working directories that are shown by the same path in the
    prompt are the same directory.  (The home itself is shown as [~] and
    a directory below it as [~/...]; a directory whose name merely starts
    with the text of the home is shown in full.) *)
Theorem prompt_identifies_directory (h c1 c2 : string) :
  Prompt.absolute c1 = true -> Prompt.absolute c2 = true ->
  Prompt.prompt_path (Some h) (Some c1) = Prompt.prompt_path (Some h) (Some c2) ->
  c1 = c2.
Proof.
  intros H1 H2 E.
  destruct (prompt_path_shape h c1 H1) as [P1 | (r1 & P1 & R1)];
    destruct (prompt_path_shape h c2 H2) as [P2 | (r2 & P2 & R2)].
  - congruence.
  - rewrite P1, P2 in E. subst c1. discriminate H1.
  - rewrite P1, P2 in E. subst c2. discriminate H2.
  - rewrite P1, P2 in E. injection E as ->. congruence.
Qed.

Lemma prompt_identifies_directory_witness :
  Prompt.prompt_path (Some "/code"%string) (Some "/code/src"%string) = "~/src"%string /\
  Prompt.prompt_path (Some "/code"%string) (Some "/codex"%string) = "/codex"%string /\
  "/code/src"%string = "/code/src"%string.
Proof.
  split; [reflexivity |]. split; [reflexivity |].
  apply (prompt_identifies_directory "/code" "/code/src" "/code/src"); reflexivity.
Defined.

(** * Properties of [reveal] (reveal.c) *)

Lemma args_loop_error D hst args : forall sa ll target pc st lines,
  Reveal.args_loop D hst args sa ll target pc = inl (st, lines) ->
  st = 1 /\ (lines = ["reveal: Invalid Syntax!"%string] \/ lines = ["No such directory!"%string]).
Proof.
  induction args as [| a rest IH]; intros sa ll target pc st lines H; simpl in H;
    [discriminate |].
  destruct (Reveal.is_flag_word a).
  - destruct (Reveal.flag_letters _ sa ll) as [[sa' ll'] |];
      [now apply IH in H | injection H as <- <-; auto].
  - destruct (pc + 1 >? 1); [injection H as <- <-; auto |].
    destruct (a =? "~")%string; [now apply IH in H |].
    destruct (a =? ".")%string; [now apply IH in H |].
    destruct (a =? "..")%string; [now apply IH in H |].
    destruct (a =? "-")%string; [| now apply IH in H].
    destruct (Hop.hop_prev_cwd_available hst);
      [now apply IH in H | injection H as <- <-; auto].
Qed.

Lemma flag_letters_letters letters : forall sa ll,
  Reveal.flag_letters letters sa ll
  = if all_chars (fun c => (c =? "a")%char || (c =? "l")%char) letters
    then Some (sa || has_char "a" letters, ll || has_char "l" letters)
    else None.
Proof.
  induction letters as [| c r IH]; intros sa ll; cbn [Reveal.flag_letters all_chars has_char].
  - now rewrite !orb_false_r.
  - destruct (Ascii.eqb_spec c "a") as [-> | Ha].
    + rewrite IH. cbn [orb andb]. change ("a" =? "l")%char with false. cbn [orb].
      destruct (all_chars _ r); [| reflexivity]. now rewrite orb_true_r.
    + destruct (Ascii.eqb_spec c "l") as [-> | Hl]; cbn [orb andb]; [| reflexivity].
      rewrite IH. destruct (all_chars _ r); [| reflexivity]. now rewrite orb_true_r.
Qed.

(** The loop of [run_reveal_argv], by what the arguments are as a whole.
    It ends early with status 1 if a flag word has a letter other than [a]
    and [l], if there is a second path word, or if the path word is [-]
    and no previous directory is recorded; otherwise the flags are those
    named in some flag word and the target is that of the path word. *)
Lemma args_loop_whole D hst args : forall sa ll target pc,
  0 <= pc <= 1 ->
  match Reveal.args_loop D hst args sa ll target pc with
  | inl (st, lines) =>
    st = 1 /\
    (lines = ["reveal: Invalid Syntax!"%string] \/
     (lines = ["No such directory!"%string] /\ In "-"%string (path_words args) /\
      Hop.hop_prev_cwd_available hst = false)) /\
    (forallb good_flag (flag_words args) = true ->
     pc + Z.of_nat (length (path_words args)) <= 1 ->
     lines = ["No such directory!"%string] /\
     exists p, path_words args = [p] /\ reveal_target D hst p = None)
  | inr (sa', ll', target') =>
    forallb good_flag (flag_words args) = true /\
    pc + Z.of_nat (length (path_words args)) <= 1 /\
    sa' = sa || existsb (fun a => has_char "a" (advance 1 a)) (flag_words args) /\
    ll' = ll || existsb (fun a => has_char "l" (advance 1 a)) (flag_words args) /\
    target' = match path_words args with
              | [] => target
              | p :: _ => reveal_target D hst p
              end
  end.
Proof.
  induction args as [| a rest IH]; intros sa ll target pc Hpc.
  { simpl. rewrite !orb_false_r. repeat split; lia. }
  cbn [Reveal.args_loop]. unfold flag_words, path_words in *. cbn [List.filter].
  destruct (Reveal.is_flag_word a) eqn:Ef; cbn [negb].
  - rewrite flag_letters_letters. fold (good_flag a).
    cbn [forallb existsb]. destruct (good_flag a) eqn:Eg; cbn [andb].
    + specialize (IH (sa || has_char "a" (advance 1 a))
                     (ll || has_char "l" (advance 1 a)) target pc Hpc).
      destruct (Reveal.args_loop D hst rest _ _ target pc) as [[st lines] | [[sa' ll'] t']].
      * exact IH.
      * destruct IH as (H1 & H2 & -> & -> & H5).
        rewrite <- !orb_assoc. auto.
    + split; [reflexivity |]. split; [now left |]. intros; discriminate.
  - cbn [length]. destruct (Z.gtb_spec (pc + 1) 1) as [Hgt | Hle].
    { split; [reflexivity |]. split; [now left |]. intros; lia. }
    assert (pc = 0) by lia. subst pc. cbn [Z.add].
    assert (Hnext : forall t,
               t = reveal_target D hst a ->
               match Reveal.args_loop D hst rest sa ll t 1 with
               | inl (st, lines) =>
                 st = 1 /\
                 (lines = ["reveal: Invalid Syntax!"%string] \/
                  (lines = ["No such directory!"%string] /\
                   In "-"%string (a :: List.filter (fun a => negb (Reveal.is_flag_word a)) rest) /\
                   Hop.hop_prev_cwd_available hst = false)) /\
                 (forallb good_flag (List.filter Reveal.is_flag_word rest) = true ->
                  0 + Z.of_nat (S (length (List.filter
                                            (fun a => negb (Reveal.is_flag_word a)) rest))) <= 1 ->
                  lines = ["No such directory!"%string] /\
                  exists p, a :: List.filter (fun a => negb (Reveal.is_flag_word a)) rest = [p] /\
                            reveal_target D hst p = None)
               | inr (sa', ll', target') =>
                 forallb good_flag (List.filter Reveal.is_flag_word rest) = true /\
                 0 + Z.of_nat (S (length (List.filter
                                           (fun a => negb (Reveal.is_flag_word a)) rest))) <= 1 /\
                 sa' = sa || existsb (fun a => has_char "a" (advance 1 a))
                                     (List.filter Reveal.is_flag_word rest) /\
                 ll' = ll || existsb (fun a => has_char "l" (advance 1 a))
                                     (List.filter Reveal.is_flag_word rest) /\
                 target' = reveal_target D hst a
               end).
    { intros t Ht. specialize (IH sa ll t 1 ltac:(lia)).
      destruct (Reveal.args_loop D hst rest sa ll t 1) as [[st lines] | [[sa' ll'] t']].
      - destruct IH as (H1 & H2 & H3). split; [exact H1 |]. split.
        + destruct H2 as [H2 | (H2 & Hin & Hav)]; [now left | right].
          split; [exact H2 |]. split; [now right | exact Hav].
        + intros Hg Hlen. destruct (H3 Hg ltac:(lia)) as (_ & p & Hp & _).
          rewrite Hp in Hlen. simpl in Hlen. lia.
      - destruct IH as (H1 & H2 & H3 & H4 & H5).
        split; [exact H1 |]. split; [lia |]. split; [exact H3 |]. split; [exact H4 |].
        destruct (List.filter (fun a => negb (Reveal.is_flag_word a)) rest) as [| p ps];
          [now rewrite H5 | simpl in H2; lia]. }
    unfold reveal_target in Hnext at 1.
    destruct (String.eqb_spec a "~") as [-> | Hn1]; [now apply Hnext |].
    destruct (String.eqb_spec a ".") as [-> | Hn2]; [now apply Hnext |].
    destruct (String.eqb_spec a "..") as [-> | Hn3]; [now apply Hnext |].
    destruct (String.eqb_spec a "-") as [-> | Hn4]; [| now apply Hnext].
    destruct (Hop.hop_prev_cwd_available hst) eqn:Eav; [now apply Hnext |].
    split; [reflexivity |]. split; [right; split; [reflexivity |]; split; [now left | reflexivity] |].
    intros Hg Hlen. split; [reflexivity |]. exists "-"%string.
    split.
    + destruct (List.filter (fun a => negb (Reveal.is_flag_word a)) rest) as [| p ps];
        [reflexivity | simpl in Hlen; lia].
    + unfold reveal_target, Hop.hop_get_prev_cwd. simpl. now rewrite Eav.
Qed.

(** X27.  [reveal] lists all or nothing.  Its status is 0 or 1.  With
    status 1 no directory was opened and at most one line was printed,
    [reveal: Invalid Syntax!] or [No such directory!]; with status 0
    exactly one directory was handed to [opendir], also when it cannot be
    opened.  A flag word with a letter other than [a] and [l], or a second
    path word, anywhere among the arguments gives status 1 without a
    listing: the line is [reveal: Invalid Syntax!], unless an earlier [-]
    with no previous directory recorded has already ended the command with
    [No such directory!].  Otherwise the result is that of the one
    directory named: the working directory when there is no path word,
    else the target of the path word, listed with the flags that occur in
    some flag word; when the target is [NULL] the status is 1 and the line
    [No such directory!]. *)
Theorem reveal_all_or_nothing (D : Hop.Dirs) (readdir : string -> option (list string))
    (hst : Hop.state) (argv : list string) :
  let '(st, lines, opened) := Reveal.run_reveal_argv D readdir hst argv in
  ((st = 1 /\ opened = [] /\
    (lines = [] \/ lines = ["reveal: Invalid Syntax!"%string]
     \/ lines = ["No such directory!"%string])) \/
   (st = 0 /\ exists target, opened = [target])) /\
  (forall a0 args, argv = a0 :: args ->
     (forallb good_flag (flag_words args) = false \/ (2 <= length (path_words args))%nat ->
      st = 1 /\ opened = [] /\
      (lines = ["reveal: Invalid Syntax!"%string] \/
       (lines = ["No such directory!"%string] /\ In "-"%string (path_words args) /\
        Hop.hop_prev_cwd_available hst = false))) /\
     (forallb good_flag (flag_words args) = true -> (length (path_words args) <= 1)%nat ->
      (st, lines, opened)
      = match (match path_words args with
               | [] => Some "."%string
               | p :: _ => reveal_target D hst p
               end) with
        | Some target =>
          (0,
           snd (Reveal.list_dir readdir target
                  (existsb (fun a => has_char "a" (advance 1 a)) (flag_words args))
                  (existsb (fun a => has_char "l" (advance 1 a)) (flag_words args))),
           [target])
        | None => (1, ["No such directory!"%string], [])
        end)).
Proof.
  unfold Reveal.run_reveal_argv. destruct argv as [| a0 args].
  { split; [left; auto | intros; discriminate]. }
  pose proof (args_loop_whole D hst args false false (Some "."%string) 0 ltac:(lia)) as Hw.
  destruct (Reveal.args_loop D hst args false false (Some "."%string) 0)
    as [[st lines] | [[sa ll] target]] eqn:E.
  - destruct Hw as (-> & Hlines & Hgood). split.
    { left. destruct Hlines as [-> | (-> & _)]; auto. }
    intros a0' args' Heq. injection Heq as _ <-. split.
    + intros _. auto.
    + intros Hg Hlen. destruct (Hgood Hg ltac:(lia)) as (-> & p & Hp & Hnone).
      rewrite Hp, Hnone. reflexivity.
  - destruct Hw as (Hg & Hlen & -> & -> & ->). cbn [orb].
    assert (Hsh : forall a0' args', a0 :: args = a0' :: args' -> args' = args)
      by (intros ? ? Heq; now injection Heq).
    destruct (match path_words args with
              | [] => Some "."%string
              | p :: _ => reveal_target D hst p
              end) as [t |] eqn:Et.
    + split; [right; split; [reflexivity | now exists t] |].
      intros a0' args' Heq. rewrite (Hsh _ _ Heq). split.
      * intros [Hbad | Hmany]; [congruence | lia].
      * intros _ _. now rewrite Et.
    + split; [left; auto |].
      intros a0' args' Heq. rewrite (Hsh _ _ Heq). split.
      * intros [Hbad | Hmany]; [congruence | lia].
      * intros _ _. now rewrite Et.
Qed.

(** [reveal -l src -x]: the bad flag letter after the path keeps [src]
    from being listed; [reveal -a -l src] lists it with both flags. *)
Lemma reveal_bad_flag_after_path :
  Reveal.run_reveal_argv small_world (fun _ => Some ["b"; ".a"]%string) at_home
    ["reveal"; "-l"; "src"; "-x"]%string
  = (1, ["reveal: Invalid Syntax!"%string], []) /\
  Reveal.run_reveal_argv small_world (fun _ => Some ["b"; ".a"]%string) at_home
    ["reveal"; "src"; "lib"]%string
  = (1, ["reveal: Invalid Syntax!"%string], []) /\
  Reveal.run_reveal_argv small_world (fun _ => Some ["b"; ".a"]%string) at_home
    ["reveal"; "-a"; "-l"; "src"]%string
  = (0, [".a"; "b"]%string, ["src"%string]).
Proof. repeat split. Qed.

Lemma insert_sorted_perm x l : Permutation (Reveal.insert_sorted x l) (x :: l).
Proof.
  induction l as [| y r IH]; simpl; [reflexivity |].
  destruct (x <=? y)%string; [reflexivity |].
  transitivity (y :: x :: r); [now constructor | apply perm_swap].
Qed.

Lemma qsort_perm l : Permutation (Reveal.qsort l) l.
Proof.
  induction l as [| x l IH]; simpl; [reflexivity |].
  transitivity (x :: Reveal.qsort l); [apply insert_sorted_perm | now constructor].
Qed.

(** X28.  Hidden names.  With [-l], the lines that [list_dir] prints for
    a directory that opens are the names of the directory, each once,
    without those that start with a dot unless [-a] is given. *)
Theorem list_dir_hides_dot_names (readdir : string -> option (list string))
    (path : string) (show_all : bool) (names : list string) :
  readdir path = Some names ->
  let lines := snd (Reveal.list_dir readdir path show_all true) in
  Permutation lines (filter (fun name => show_all || negb (Reveal.hidden name)) names) /\
  (show_all = false -> Forall (fun name => Reveal.hidden name = false) lines) /\
  (show_all = true -> Permutation lines names).
Proof.
  intros H lines. unfold lines, Reveal.list_dir. rewrite H. cbn [snd].
  set (keep := fun name => show_all || negb (Reveal.hidden name)).
  pose proof (qsort_perm (filter keep names)) as Hp.
  split; [exact Hp |]. split.
  - intros ->. apply List.Forall_forall. intros name Hin.
    apply (Permutation_in _ Hp) in Hin. apply list_elem_of_In, list_elem_of_filter in Hin.
    destruct Hin as [Hk _]. unfold keep in Hk. simpl in Hk.
    now apply Is_true_true, negb_true_iff in Hk.
  - intros ->. etransitivity; [exact Hp |]. unfold keep. clear.
    induction names as [| n names IH]; [reflexivity |].
    rewrite filter_cons_True by exact I. now constructor.
Qed.

Lemma list_dir_hides_dot_names_witness :
  snd (Reveal.list_dir (fun _ => Some ["src"; ".git"; "Makefile"]%string) "." false true)
  = ["Makefile"; "src"]%string /\
  Forall (fun name => Reveal.hidden name = false) ["Makefile"; "src"]%string.
Proof.
  split; [reflexivity |].
  destruct (list_dir_hides_dot_names (fun _ => Some ["src"; ".git"; "Makefile"]%string)
              "." false ["src"; ".git"; "Makefile"]%string eq_refl) as (_ & Hh & _).
  exact (Hh eq_refl).
Defined.

(** X29.  [reveal -] after [hop].  Once [hop dir] has moved the shell
    from a directory [d0] that the system can name, [reveal -] opens
    exactly [d0] and returns 0. *)
Theorem reveal_dash_after_hop (D : Hop.Dirs) (readdir : string -> option (list string))
    (dir d1 : string) (st : Hop.state) :
  dir <> "~"%string -> dir <> "."%string -> dir <> "-"%string ->
  is_empty (Hop.cwd st) = false ->
  Hop.os_getcwd_ok D (Hop.cwd st) = true ->
  (String.length (Hop.cwd st) < Hop.PATH_MAX)%nat ->
  Hop.os_chdir D (Hop.cwd st) dir = Some d1 ->
  let st' := snd (Hop.run_hop_argv D ["hop"; dir]%string st) in
  Reveal.run_reveal_argv D readdir st' ["reveal"; "-"]%string
  = (0, snd (Reveal.list_dir readdir (Hop.cwd st) false false), [Hop.cwd st]).
Proof.
  intros H1 H2 H3 Hne Hok Hlen Hgo st'.
  assert (Hst : st' = Hop.mkState d1 (Hop.cwd st) true (Hop.out st)).
  { unfold st'. cbn [Hop.run_hop_argv fold_left snd]. unfold Hop.hop_one.
    destruct (String.eqb_spec dir "~") as [E | _]; [contradiction |].
    destruct (String.eqb_spec dir ".") as [E | _]; [contradiction |].
    destruct (String.eqb_spec dir "-") as [E | _]; [contradiction |].
    destruct (String.eqb_spec dir "..") as [-> | _];
      now rewrite (change_dir_to_moved D _ d1 st Hok Hlen Hne Hgo). }
  rewrite Hst. unfold Reveal.run_reveal_argv.
  cbn [Reveal.args_loop Reveal.is_flag_word].
  change (0 + 1 >? 1) with false. change ("-" =? "~")%string with false.
  change ("-" =? ".")%string with false. change ("-" =? "..")%string with false.
  change ("-" =? "-")%string with true. cbv iota.
  unfold Hop.hop_get_prev_cwd, Hop.hop_prev_cwd_available.
  cbn [Hop.prev_cwd_set Hop.prev_cwd]. rewrite Hne. reflexivity.
Qed.

Lemma reveal_dash_after_hop_witness :
  Hop.os_chdir small_world (Hop.cwd at_home) "/tmp" = Some "/tmp"%string /\
  Reveal.run_reveal_argv small_world (fun _ => Some ["b"; "a"]%string)
    (snd (Hop.run_hop_argv small_world ["hop"; "/tmp"]%string at_home)) ["reveal"; "-"]%string
  = (0, ["a b"%string], ["/home/u"%string]).
Proof.
  split; [reflexivity |].
  apply (reveal_dash_after_hop small_world (fun _ => Some ["b"; "a"]%string)
           "/tmp" "/tmp" at_home);
    try discriminate; try reflexivity. unfold Hop.PATH_MAX. simpl. lia.
Defined.

(** * Redirections, attached and spaced *)

Lemma name_first_char f :
  is_name f = true ->
  exists c q, f = String c q /\ is_name_char c = true.
Proof.
  unfold is_name. destruct f as [| c q]; [discriminate |]. simpl. intros H.
  apply andb_prop in H as [Hc _]. now exists c, q.
Qed.

Lemma skip_ws_blanks_word blanks f :
  all_chars is_ws blanks = true -> is_name f = true ->
  skip_ws (blanks +:+ f) = f.
Proof.
  intros Hb Hf. rewrite (skip_ws_blanks blanks f Hb).
  rewrite <- (append_empty_r f) at 1. rewrite skip_ws_word by exact Hf.
  apply append_empty_r.
Qed.

(** The text after a redirection operator does not start with [>]. *)
Lemma no_second_angle blanks f :
  all_chars is_ws blanks = true -> is_name f = true ->
  match blanks +:+ f with
  | String c' q' => (c' =? ">")%char = false
  | EmptyString => True
  end.
Proof.
  intros Hb Hf. destruct blanks as [| b blanks].
  - rewrite append_nil. destruct (name_first_char f Hf) as (c & q & -> & Hc).
    now destruct (name_char_plain c Hc) as (_ & _ & ->).
  - rewrite append_cons. simpl in Hb. apply andb_prop in Hb as [Hb _].
    unfold is_ws in Hb. destruct (Ascii.eqb_spec b ">") as [-> | _]; [discriminate | reflexivity].
Qed.

(** X30.  A redirection is read the same whether the operator is attached
    to its neighbours or set off by blanks: a command name, any white
    space, one of [<], [>], [>>], any white space and a file name are
    parsed into the one command with that name and that one redirection
    of the matching type. *)
Theorem redirection_attached_or_spaced (w f blanks1 blanks2 : string) (ty : RedirType) :
  is_name w = true -> is_name f = true ->
  all_chars is_ws blanks1 = true -> all_chars is_ws blanks2 = true ->
  parse_pipeline (w +:+ blanks1 +:+ redir_operator ty +:+ blanks2 +:+ f)
  = Some (mkPipeline [mkCmd [w] [mkRedir ty f]]).
Proof.
  intros Hw Hf Hb1 Hb2.
  set (tail := blanks1 +:+ redir_operator ty +:+ blanks2 +:+ f).
  set (seg := w +:+ tail).
  pose proof Hw as Hw'. unfold is_name in Hw'. apply andb_prop in Hw' as [Hwne Hwall].
  pose proof Hf as Hf'. unfold is_name in Hf'. apply andb_prop in Hf' as [Hfne Hfall].
  apply negb_true_iff in Hwne, Hfne.
  assert (Hop : exists c q, redir_operator ty = String c q /\
                            ((c =? "<")%char || (c =? ">")%char = true) /\
                            (c =? "|")%char = false /\ is_ws c = false).
  { destruct ty; [exists "<"%char, EmptyString | exists ">"%char, EmptyString
                 | exists ">"%char, ">"%string]; repeat split. }
  assert (Hends : ends_name tail).
  { unfold tail. destruct blanks1 as [| b blanks1].
    - rewrite append_nil. destruct ty; reflexivity.
    - rewrite append_cons. simpl in Hb1 |- *. apply andb_prop in Hb1 as [Hb _].
      unfold is_name_char. now rewrite Hb. }
  assert (Hnobar : all_chars (fun c => negb (c =? "|")%char) seg = true).
  { unfold seg, tail. rewrite !all_chars_append.
    assert (Hn : forall t, all_chars is_name_char t = true ->
                           all_chars (fun c => negb (c =? "|")%char) t = true).
    { intros t. apply all_chars_impl. intros c Hc.
      now destruct (name_char_plain c Hc) as [-> _]. }
    assert (Hs : forall t, all_chars is_ws t = true ->
                           all_chars (fun c => negb (c =? "|")%char) t = true).
    { intros t. apply all_chars_impl. intros c Hc. now rewrite (is_ws_not_bar c Hc). }
    rewrite (Hn w Hwall), (Hn f Hfall), (Hs _ Hb1), (Hs _ Hb2).
    destruct ty; reflexivity. }
  assert (Htrim : trim seg = seg).
  { unfold trim, seg. rewrite skip_ws_word by exact Hw.
    unfold tail. rewrite <- !append_assoc_string.
    apply rtrim_keeps_end; [now apply rtrim_name |].
    destruct f; [discriminate Hfne | discriminate]. }
  assert (Hseg : parse_segment seg = Some (mkCmd [w] [mkRedir ty f])).
  { unfold parse_segment, seg. rewrite skip_ws_word by exact Hw.
    rewrite (read_name_word w tail Hwall Hends), Hwne.
    destruct Hop as (c & q & Eop & Hangle & Hbar & Hws).
    assert (Hskip : skip_ws tail = String c (q +:+ blanks2 +:+ f)).
    { unfold tail. rewrite (skip_ws_blanks blanks1 _ Hb1), Eop, append_cons.
      simpl. now rewrite Hws. }
    cbn [parse_segment_loop]. rewrite Hskip, Hbar, Hangle.
    assert (Hread : read_name (skip_ws (blanks2 +:+ f)) = (f, EmptyString)).
    { rewrite (skip_ws_blanks_word blanks2 f Hb2 Hf).
      rewrite <- (append_empty_r f) at 1. now apply read_name_word. }
    pose proof (no_second_angle blanks2 f Hb2 Hf) as Hangle2.
    destruct ty; injection Eop as <- <-.
    - rewrite append_nil. change ("<" =? "<")%char with true. cbn [negb andb].
      assert (Hq : match blanks2 +:+ f with
                   | String c' q' => (false, blanks2 +:+ f)
                   | EmptyString => (false, blanks2 +:+ f)
                   end = (false, blanks2 +:+ f)) by (destruct (blanks2 +:+ f); reflexivity).
      rewrite Hq. cbv beta iota zeta. rewrite Hread, Hfne. cbn [length].
      destruct (String.length (w +:+ tail)) as [| k] eqn:El.
      { rewrite length_append in El. destruct w; [discriminate Hwne | discriminate El]. }
      reflexivity.
    - rewrite append_nil. change (">" =? "<")%char with false. cbn [negb andb].
      assert (Hq : match blanks2 +:+ f with
                   | String c' q' => if (c' =? ">")%char then (true, q') else (false, blanks2 +:+ f)
                   | EmptyString => (false, blanks2 +:+ f)
                   end = (false, blanks2 +:+ f)).
      { destruct (blanks2 +:+ f); [reflexivity | now rewrite Hangle2]. }
      rewrite Hq. cbv beta iota zeta. rewrite Hread, Hfne. cbn [length].
      destruct (String.length (w +:+ tail)) as [| k] eqn:El.
      { rewrite length_append in El. destruct w; [discriminate Hwne | discriminate El]. }
      reflexivity.
    - change (">" +:+ blanks2 +:+ f) with (String ">" (blanks2 +:+ f)).
      change (">" =? "<")%char with false. change (">" =? ">")%char with true.
      cbn [negb andb]. cbv beta iota zeta.
      change (">" =? ">")%char with true. cbv beta iota zeta.
      rewrite Hread, Hfne. cbn [length].
      destruct (String.length (w +:+ tail)) as [| k] eqn:El.
      { rewrite length_append in El. destruct w; [discriminate Hwne | discriminate El]. }
      reflexivity. }
  unfold parse_pipeline. fold tail. fold seg.
  assert (Hs : exists c q, seg = String c q).
  { unfold seg. destruct w as [| c w]; [discriminate Hwne |]. now exists c, (w +:+ tail). }
  destruct Hs as (c & q & Es).
  assert (Hloop : parse_pipeline_loop (S (String.length seg)) seg []
                  = Some [mkCmd [w] [mkRedir ty f]]).
  { rewrite Es at 1. simpl String.length. rewrite Es at 1.
    cbn [parse_pipeline_loop]. rewrite <- Es, (upto_bar_no_bar seg Hnobar), Htrim.
    rewrite Es at 1. cbn [is_empty]. rewrite Hseg. reflexivity. }
  now rewrite Hloop.
Qed.

Lemma redirection_attached_or_spaced_witness :
  is_name "sort" = true /\
  parse_pipeline "sort<in.txt" = Some (mkPipeline [mkCmd ["sort"%string] [mkRedir R_IN "in.txt"]]) /\
  parse_pipeline "sort  >>  out.txt"
  = Some (mkPipeline [mkCmd ["sort"%string] [mkRedir R_OUT_APPEND "out.txt"]]).
Proof.
  split; [reflexivity |]. split.
  - apply (redirection_attached_or_spaced "sort" "in.txt" "" "" R_IN); reflexivity.
  - apply (redirection_attached_or_spaced "sort" "out.txt" "  " "  " R_OUT_APPEND); reflexivity.
Defined.
